(** * preprocess_gtfs.py: the GTFS pre-processing pipeline of the signage

    A shallow embedding of [GTFSProcessor] (src/python/preprocess_gtfs.py):
    the translation resolver [_get_translation], the calendar resolver
    [_process_calendar_data], the departure extractor
    [_create_departure_record] / [_process_stop_departures] and the
    aggregator [process_gtfs_data], followed by the properties of the
    specification that concern them.

    Conventions of the embedding
    - a Python [dict] / [defaultdict] is a [gmap]; a [set] is a [gset];
    - a pandas [Series] (one row) is a finite map from column names to
      cells, a [DataFrame] is its column index together with its rows;
    - an exception is a value [Raise e] of the [result] monad;
    - a [datetime.date] is its proleptic Gregorian ordinal
      ([date.toordinal()]). *)

From stdpp Require Import base option list gmap strings pretty.
From Stdlib Require Import ZArith Lia Ascii.

Local Open Scope Z_scope.

(** ** Python values and exceptions *)

Module Py.

(** What a cell of a loaded table holds: a missing value ([NaN], on which
    [pd.isna] answers true), text, or a number.  Numbers are kept integral:
    the enumerations, second counts and numeric identifiers of a feed. *)
Inductive cell :=
  | NaN
  | Str (s : string)
  | Int (z : Z).

#[global] Instance cell_eq_dec : EqDecision cell.
Proof. solve_decision. Defined.

(** The exceptions the modelled code can raise. *)
Inductive exn :=
  | KeyError (key : string)
  | IndexError
  | ValueError
  | IntCastingNaNError
  | OutOfBoundsDatetime
  | FileNotFoundError.

#[global] Instance exn_eq_dec : EqDecision exn.
Proof. solve_decision. Defined.

Inductive result (A : Type) :=
  | Ok (a : A)
  | Raise (e : exn).
Arguments Ok {A} a.
Arguments Raise {A} e.

#[global] Instance result_ret : MRet result := @Ok.
#[global] Instance result_bind : MBind result := λ A B f m,
  match m with Ok a => f a | Raise e => Raise e end.
#[global] Instance result_fmap : FMap result := λ A B f m,
  match m with Ok a => Ok (f a) | Raise e => Raise e end.

(** [pd.isna(x)] *)
Definition isna (c : cell) : bool :=
  match c with NaN => true | _ => false end.

(** Truth value of a cell ([not x] is its negation); a NaN is true. *)
Definition truthy (c : cell) : bool :=
  match c with
  | NaN => true
  | Str s => negb (String.eqb s "")
  | Int z => negb (z =? 0)
  end.

(** [str(x)], on the integral numbers of this embedding. *)
Definition str (c : cell) : string :=
  match c with
  | NaN => "nan"
  | Str s => s
  | Int z => pretty z
  end.

(** Element-wise [==] of pandas: a missing value equals nothing, text and
    numbers never compare equal. *)
Definition eqb (a b : cell) : bool :=
  match a, b with
  | Str s, Str t => String.eqb s t
  | Int x, Int y => x =? y
  | _, _ => false
  end.

(** Membership test of [Series.isin]: as [==], but a missing value is found
    among values that hold a missing value. *)
Definition isin (a : cell) (l : list cell) : bool :=
  existsb (λ b, eqb a b || (isna a && isna b)) l.

(** Python's [int] on text, for plain decimal literals: an optional sign and
    digits.  (Columns converted by the feed loader hold no text.) *)
Definition digit (a : ascii) : option Z :=
  let n := Z.of_N (N_of_ascii a) - 48 in
  if (0 <=? n) && (n <=? 9) then Some n else None.

Fixpoint digits (acc : Z) (s : string) : option Z :=
  match s with
  | EmptyString => Some acc
  | String a s' => d ← digit a; digits (10 * acc + d) s'
  end.

Definition int_of_text (s : string) : option Z :=
  match s with
  | EmptyString => None
  | String "+"%char (String _ _ as s') => digits 0 s'
  | String "-"%char (String _ _ as s') => Z.opp <$> digits 0 s'
  | _ => digits 0 s
  end.

(** One cell under [Series.astype(int)]: a missing value is refused.  (The
    numbers of a loaded column are within the machine integers, which is
    where the conversion of a number cannot fail.) *)
Definition astype_int (c : cell) : result Z :=
  match c with
  | NaN => Raise IntCastingNaNError
  | Int z => Ok z
  | Str s => match int_of_text s with Some z => Ok z | None => Raise ValueError end
  end.

(** A loop that threads an accumulator and stops at the first exception. *)
Fixpoint foldlM {A B} (f : B → A → result B) (b : B) (l : list A) : result B :=
  match l with
  | [] => Ok b
  | a :: l' => b' ← f b a; foldlM f b' l'
  end.

(** A loop that collects one result per element. *)
Fixpoint forM {A B} (f : A → result B) (l : list A) : result (list B) :=
  match l with
  | [] => Ok []
  | a :: l' => b ← f a; bs ← forM f l'; Ok (b :: bs)
  end.

End Py.
Import Py.

(** ** Dates *)

(** [date.weekday()]: Monday is 0. *)
Definition weekday (d : Z) : Z := (d + 6) mod 7.

(** Year, month and day of an ordinal (the civil-from-days computation on
    400-year eras that start on 1 March). *)
Definition ymd (d : Z) : Z * Z * Z :=
  let z := d + 305 in
  let era := z / 146097 in
  let doe := z mod 146097 in
  let yoe := (doe - doe / 1460 + doe / 36524 - doe / 146096) / 365 in
  let doy := doe - (365 * yoe + yoe / 4 - yoe / 100) in
  let mp := (5 * doy + 2) / 153 in
  let day := doy - (153 * mp + 2) / 5 + 1 in
  let m := if mp <? 10 then mp + 3 else mp - 9 in
  let y := yoe + era * 400 in
  (if m <=? 2 then y + 1 else y, m, day).

(** The ordinal of the day [day] of month [m] of year [y]: the computation
    [ymd] undoes. *)
Definition ordinal (y m day : Z) : Z :=
  let y' := if m <=? 2 then y - 1 else y in
  let era := y' / 400 in
  let yoe := y' mod 400 in
  let mp := if 2 <? m then m - 3 else m + 9 in
  let doy := (153 * mp + 2) / 5 + day - 1 in
  era * 146097 + (yoe * 365 + yoe / 4 - yoe / 100 + doy) - 305.

(** Decimal of [n], padded with zeros on the left up to [w] characters. *)
Definition zfill (w : nat) (n : Z) : string :=
  let s := pretty n in
  String.concat "" (replicate (w - String.length s) "0") +:+ s.

(** [_date_to_str]: [date.strftime('%Y-%m-%d')], with the year on four
    digits.  (Below year 1000 the C library decides whether [%Y] is padded;
    the properties that depend on the text of a key are stated from
    1000-01-01 on.) *)
Definition _date_to_str (d : Z) : string :=
  let '(y, m, dd) := ymd d in
  zfill 4 y +:+ "-" +:+ zfill 2 m +:+ "-" +:+ zfill 2 dd.

(** The days whose midnight a nanosecond [Timestamp] can hold: 1677-09-22
    to 2262-04-11. *)
Definition timestamp_min_day : Z := 612412.
Definition timestamp_max_day : Z := 825914.

Definition is_timestamp (d : Z) : bool :=
  (timestamp_min_day <=? d) && (d <=? timestamp_max_day).

(** [pd.date_range(start=s, end=e)]: both ends are turned into nanosecond
    timestamps, which raises [OutOfBoundsDatetime] outside their range; then
    the days from [s] to [e], both included, none when [e] is before [s]. *)
Definition date_range (s e : Z) : result (list Z) :=
  if is_timestamp s && is_timestamp e
  then Ok (seqZ s (e - s + 1))
  else Raise OutOfBoundsDatetime.

(** ** Tables *)

(** A row handed out by [iterrows()]. *)
Abbreviation Series := (gmap string cell).

Record DataFrame := mkDataFrame {
  columns : list string;
  rows : list Series;
}.

(** calendar.txt and calendar_dates.txt as the feed loader types them:
    parsed dates, weekday flags and a numeric exception type. *)
Record CalendarRow := mkCalendarRow {
  cal_service_id : string;
  start_date : Z;
  end_date : Z;
  monday : bool; tuesday : bool; wednesday : bool; thursday : bool;
  friday : bool; saturday : bool; sunday : bool;
}.

Record CalendarDateRow := mkCalendarDateRow {
  cd_service_id : string;
  cd_date : Z;
  exception_type : Z;
}.

(** A feed as [ptg.load_feed] hands it out.  The loader reads every field as
    text and converts some columns: the dates of the calendar tables, the
    columns it declares numeric (the weekday flags, exception_type,
    pickup_type) and the times of stop_times, which it parses into seconds
    after midnight; an empty field is a missing value.  [None] for [calendar]
    / [calendar_dates] is an object without that attribute ([hasattr] answers
    false). *)
Record Feed := mkFeed {
  calendar : option (list CalendarRow);
  calendar_dates : option (list CalendarDateRow);
  stop_times : DataFrame;
  trips : DataFrame;
  routes : DataFrame;
}.

(** One entry [{'gtfs_id': .., 'service_id': ..}] of the calendar output. *)
Record ServiceRef := mkServiceRef {
  sr_gtfs_id : string;
  sr_service_id : string;
}.

#[global] Instance ServiceRef_eq_dec : EqDecision ServiceRef.
Proof. solve_decision. Defined.

(** ** Calendar resolver *)

Module Calendar.

(** The accumulator [calendar = defaultdict(set)]. *)
Abbreviation Acc := (gmap string (gset (string * string))).

(** Reading [calendar[k]] in a [defaultdict(set)]: the empty set when the key
    is missing. *)
Definition at_key (c : Acc) (k : string) : gset (string * string) :=
  default ∅ (c !! k).

(** [calendar[k].add(x)]; the access creates the key when it is missing. *)
Definition add (k : string) (x : string * string) (c : Acc) : Acc :=
  <[k := at_key c k ∪ {[x]}]> c.

(** [calendar[k].discard(x)]; the access creates the key when it is missing. *)
Definition discard (k : string) (x : string * string) (c : Acc) : Acc :=
  <[k := at_key c k ∖ {[x]}]> c.

Definition valid_days (row : CalendarRow) : list bool :=
  [monday row; tuesday row; wednesday row; thursday row;
   friday row; saturday row; sunday row].

(** [valid_days[date.weekday()]] *)
Definition runs_on (row : CalendarRow) (d : Z) : bool :=
  default false (valid_days row !! Z.to_nat (weekday d)).

(** The flag a calendar row carries for weekday number [n] (Monday is 0). *)
Definition weekday_flag (row : CalendarRow) (n : Z) : bool :=
  match n with
  | 0 => monday row
  | 1 => tuesday row
  | 2 => wednesday row
  | 3 => thursday row
  | 4 => friday row
  | 5 => saturday row
  | 6 => sunday row
  | _ => false
  end.

(** Day [d] is one the row runs on and is written [k]. *)
Definition serves (row : CalendarRow) (k : string) (d : Z) : Prop :=
  weekday_flag row (weekday d) = true ∧ _date_to_str d = k.

#[global] Instance serves_dec row k d : Decision (serves row k d).
Proof. unfold serves. apply _. Defined.

(** Body of [for date in date_range]. *)
Definition day_step (gtfs_prefix : string) (row : CalendarRow)
    (c : Acc) (d : Z) : Acc :=
  if runs_on row d
  then add (_date_to_str d) (gtfs_prefix, cal_service_id row) c
  else c.

(** Body of [for _, row in feed.calendar.iterrows()]. *)
Definition calendar_step (gtfs_prefix : string) (c : Acc)
    (row : CalendarRow) : result Acc :=
  date_range ← date_range (start_date row) (end_date row);
  Ok (foldl (day_step gtfs_prefix row) c date_range).

(** Body of [for _, row in feed.calendar_dates.iterrows()]. *)
Definition calendar_dates_step (gtfs_prefix : string) (c : Acc)
    (row : CalendarDateRow) : Acc :=
  let date_str := _date_to_str (cd_date row) in
  if exception_type row =? 1
  then add date_str (gtfs_prefix, cd_service_id row) c
  else if exception_type row =? 2
  then discard date_str (gtfs_prefix, cd_service_id row) c
  else c.

(** [hasattr(feed, t) and not feed.t.empty] *)
Definition table_exists {A} (t : option (list A)) : bool :=
  match t with
  | Some (_ :: _) => true
  | _ => false
  end.

Definition table_rows {A} (t : option (list A)) : list A := default [] t.

(** The accumulator at the end of the two loops. *)
Definition resolve (feed : Feed) (gtfs_prefix : string) : result Acc :=
  let c := ∅ in
  c ← (if table_exists (calendar feed)
       then foldlM (calendar_step gtfs_prefix) c (table_rows (calendar feed))
       else Ok c);
  let c := if table_exists (calendar_dates feed)
           then foldl (calendar_dates_step gtfs_prefix) c
                      (table_rows (calendar_dates feed))
           else c in
  Ok c.

(** The closing comprehension: every set becomes the list of its entries (in
    the iteration order of the set, which is left open). *)
Definition to_entries (s : gset (string * string)) : list ServiceRef :=
  (λ x, mkServiceRef x.1 x.2) <$> elements s.

Definition _process_calendar_data (feed : Feed) (gtfs_prefix : string)
    : result (gmap string (list ServiceRef)) :=
  let calendar_exists := table_exists (calendar feed) in
  let calendar_dates_exists := table_exists (calendar_dates feed) in
  if negb calendar_exists && negb calendar_dates_exists then Ok ∅
  else
    calendar ← resolve feed gtfs_prefix;
    Ok (fmap (M:=gmap string) to_entries calendar).

End Calendar.

(** The exceptions of calendar_dates as the specification words them. *)
Module SpecCalendar.
Import Calendar.

(** A calendar_dates row that adds or removes service [s] under key [k]. *)
Definition speaks_of (s k : string) (r : CalendarDateRow) : Prop :=
  cd_service_id r = s ∧ _date_to_str (cd_date r) = k ∧
  (exception_type r = 1 ∨ exception_type r = 2).

#[global] Instance speaks_of_dec s k r : Decision (speaks_of s k r).
Proof. unfold speaks_of. apply _. Defined.

(** The last row of calendar_dates, in table order, that adds or removes the
    service under the key. *)
Definition last_exception (cds : list CalendarDateRow) (s k : string)
    : option CalendarDateRow :=
  last (filter (speaks_of s k) cds).

End SpecCalendar.

(** ** pandas operations on tables *)

Module DF.

(** [df.empty]: no row, or no column. *)
Definition empty (df : DataFrame) : bool :=
  match rows df, columns df with
  | _ :: _, _ :: _ => false
  | _, _ => true
  end.

(** [c in df.columns] *)
Definition has_column (df : DataFrame) (c : string) : bool :=
  bool_decide (c ∈ columns df).

(** The cell of a row under a column; missing when the row holds none. *)
Definition cell_of (r : Series) (c : string) : cell := default NaN (r !! c).

(** [df[c]]: the cells of column [c], one per row; a [KeyError] when the
    table has no such column. *)
Definition col (df : DataFrame) (c : string) : result (list cell) :=
  if has_column df c
  then Ok ((λ r, cell_of r c) <$> rows df)
  else Raise (KeyError c).

(** [df[mask]]: the rows whose mask entry is true, with the same columns. *)
Definition select (df : DataFrame) (mask : list bool) : DataFrame :=
  mkDataFrame (columns df)
    (fst <$> filter (λ p : Series * bool, p.2 = true) (zip (rows df) mask)).

(** [series == v] *)
Definition eq_mask (l : list cell) (v : cell) : list bool :=
  (λ c, eqb c v) <$> l.

(** [series.isin(values)] *)
Definition isin_mask (l : list cell) (values : list cell) : list bool :=
  (λ c, isin c values) <$> l.

(** [a & b] and [a | b] on masks. *)
Definition and_mask : list bool → list bool → list bool := zip_with andb.
Definition or_mask : list bool → list bool → list bool := zip_with orb.

(** [df[c].values[0]] *)
Definition first_value (df : DataFrame) (c : string) : result cell :=
  vs ← col df c;
  match vs with
  | v :: _ => Ok v
  | [] => Raise IndexError
  end.

(** [row[c]] on a row. *)
Definition at_ (row : Series) (c : string) : result cell :=
  match row !! c with
  | Some v => Ok v
  | None => Raise (KeyError c)
  end.

(** [row.get(c, d)] on a row. *)
Definition get (row : Series) (c : string) (d : cell) : cell :=
  default d (row !! c).

(** [df.iloc[0][c]] *)
Definition iloc0 (df : DataFrame) (c : string) : result cell :=
  match rows df with
  | r :: _ => at_ r c
  | [] => Raise IndexError
  end.

End DF.

(** ** Translation resolver *)

(** The mask of the three fixed criteria together with one keyed column:
    [(tr['table_name'] == table_name) & (tr['field_name'] == field_name) &
     (tr['language'] == language) & (tr[key_column] == key)]. *)
Definition translation_mask (tr : DataFrame)
    (table_name field_name language key_column : string) (key : cell)
    : result (list bool) :=
  t ← DF.col tr "table_name";
  f ← DF.col tr "field_name";
  l ← DF.col tr "language";
  k ← DF.col tr key_column;
  Ok (DF.and_mask
        (DF.and_mask
           (DF.and_mask (DF.eq_mask t (Str table_name))
                        (DF.eq_mask f (Str field_name)))
           (DF.eq_mask l (Str language)))
        (DF.eq_mask k key)).

Definition _get_translation (translations : option DataFrame)
    (table_name field_name language : string) (identifier : cell)
    : result cell :=
  match translations with
  | None => Ok (Str "")
  | Some tr =>
      if DF.empty tr then Ok (Str "") else
      mask ← translation_mask tr table_name field_name language
                              "record_id" identifier;
      let matched := DF.select tr mask in
      matched ← (if DF.empty matched then
                   mask ← translation_mask tr table_name field_name language
                                           "field_value" (Str (str identifier));
                   Ok (DF.select tr mask)
                 else Ok matched);
      if negb (DF.empty matched)
      then DF.iloc0 matched "translation"
      else Ok (Str "")
  end.

(** The lookup as the specification words it: the first row, in table order,
    that matches on table, field, language and record_id; failing that, the
    first row that matches on table, field, language and field_value (against
    the string form of the identifier); failing that, the empty string. *)
Module Spec.

Definition matches (table_name field_name language key_column : string)
    (key : cell) (r : Series) : bool :=
  eqb (DF.cell_of r "table_name") (Str table_name) &&
  eqb (DF.cell_of r "field_name") (Str field_name) &&
  eqb (DF.cell_of r "language") (Str language) &&
  eqb (DF.cell_of r key_column) key.

Definition lookup (tr : DataFrame) (table_name field_name language : string)
    (identifier : cell) : result cell :=
  match List.find (matches table_name field_name language
                           "record_id" identifier) (rows tr) with
  | Some r => DF.at_ r "translation"
  | None =>
      match List.find (matches table_name field_name language
                               "field_value" (Str (str identifier)))
                      (rows tr) with
      | Some r => DF.at_ r "translation"
      | None => Ok (Str "")
      end
  end.

End Spec.

(** ** Departure extractor *)

(** A departure record: the JSON value of each of its keys. *)
Record DepartureRecord := mkDepartureRecord {
  departure_time : cell;
  route_name : cell;
  route_name_en : cell;
  route_color : cell;
  route_text_color : cell;
  headsign : cell;
  headsign_en : cell;
  gtfs_id : cell;
  service_id : cell;
}.

#[global] Instance DepartureRecord_eq_dec : EqDecision DepartureRecord.
Proof. solve_decision. Defined.

(** [df[c].values[0] if c in df.columns else ''] *)
Definition value_or_blank (df : DataFrame) (c : string) : result cell :=
  if DF.has_column df c then DF.first_value df c else Ok (Str "").

(** [if pd.isna(x): x = ''] *)
Definition na_to_blank (x : cell) : cell :=
  if isna x then Str "" else x.

(** [pd.isna(x) or not x] *)
Definition blank (x : cell) : bool := isna x || negb (truthy x).

(** The head sign of a record, before [str]: that of the stop_times row,
    else that of the trip. *)
Definition resolve_headsign (row : Series) (trip_row : DataFrame)
    : result cell :=
  let headsign := DF.get row "stop_headsign" (Str "") in
  if blank headsign then
    headsign ← value_or_blank trip_row "trip_headsign";
    Ok (na_to_blank headsign)
  else Ok headsign.

(** The route name of a record, before [str]: the short name, else the long
    name. *)
Definition resolve_route_name (route_row : DataFrame) : result cell :=
  route_name ← value_or_blank route_row "route_short_name";
  if blank route_name then
    route_name ← value_or_blank route_row "route_long_name";
    Ok (na_to_blank route_name)
  else Ok route_name.

Definition _create_departure_record (row : Series)
    (trip_row route_row : DataFrame) (gtfs_prefix : string)
    (translations : option DataFrame) : result DepartureRecord :=
  headsign ← resolve_headsign row trip_row;
  route_name ← resolve_route_name route_row;
  route_color ← value_or_blank route_row "route_color";
  let route_color := na_to_blank route_color in
  route_text_color ← value_or_blank route_row "route_text_color";
  let route_text_color := na_to_blank route_text_color in
  service_id ← value_or_blank trip_row "service_id";
  let service_id := na_to_blank service_id in
  route_id ← DF.first_value trip_row "route_id";
  route_name_en ← _get_translation translations
                     "routes" "route_long_name" "en" route_id;
  headsign_en ← _get_translation translations
                   "stop_times" "stop_headsign" "en" headsign;
  departure_time ← DF.at_ row "departure_time";
  Ok {| departure_time := departure_time;
        route_name := Str (str route_name);
        route_name_en := Str (str route_name_en);
        route_color := Str (str route_color);
        route_text_color := Str (str route_text_color);
        headsign := Str (str headsign);
        headsign_en := Str (str headsign_en);
        gtfs_id := Str gtfs_prefix;
        service_id := Str (str service_id) |}.

(** The selection of the stop_times rows of one stop:
    [feed.stop_times[(st['stop_id'] == stop_id) &
       (st['pickup_type'].isna() | (st['pickup_type'].astype(int) == 0))]]. *)
Definition select_stop_times (feed : Feed) (stop_id : string)
    : result DataFrame :=
  let st := stop_times feed in
  ids ← DF.col st "stop_id";
  pickup ← DF.col st "pickup_type";
  pickup' ← DF.col st "pickup_type";
  ints ← forM astype_int pickup';
  Ok (DF.select st
        (DF.and_mask (DF.eq_mask ids (Str stop_id))
           (DF.or_mask (isna <$> pickup) ((λ z, z =? 0) <$> ints)))).

(** Body of [for _, row in stop_times.iterrows()]: [None] stands for
    [continue], [Some] for the record that is appended. *)
Definition departure_of_row (trips routes : DataFrame) (gtfs_prefix : string)
    (translations : option DataFrame) (row : Series)
    : result (option DepartureRecord) :=
  departure_time ← DF.at_ row "departure_time";
  if isna departure_time then Ok None else
  trip_ids ← DF.col trips "trip_id";
  trip_id ← DF.at_ row "trip_id";
  let trip_row := DF.select trips (DF.eq_mask trip_ids trip_id) in
  if DF.empty trip_row then Ok None else
  route_id ← DF.first_value trip_row "route_id";
  route_ids ← DF.col routes "route_id";
  let route_row := DF.select routes (DF.eq_mask route_ids route_id) in
  if DF.empty route_row then Ok None else
  departure_record ← _create_departure_record
                       row trip_row route_row gtfs_prefix translations;
  Ok (Some departure_record).

(** Body of [for stop_id in stop_id_list]: the list appended to
    [departures_list]. *)
Definition departures_of_stop (feed : Feed) (gtfs_prefix : string)
    (translations : option DataFrame) (stop_id : option string)
    : result (list DepartureRecord) :=
  match stop_id with
  | None => Ok []
  | Some stop_id =>
      stop_times ← select_stop_times feed stop_id;
      if DF.empty stop_times then Ok [] else
      trip_ids ← DF.col (trips feed) "trip_id";
      st_trip_ids ← DF.col stop_times "trip_id";
      let trips := DF.select (trips feed) (DF.isin_mask trip_ids st_trip_ids) in
      route_ids ← DF.col (routes feed) "route_id";
      trip_route_ids ← DF.col trips "route_id";
      let routes :=
        DF.select (routes feed) (DF.isin_mask route_ids trip_route_ids) in
      departures ← forM (departure_of_row trips routes gtfs_prefix translations)
                        (rows stop_times);
      Ok (omap (M:=list) id departures)
  end.

Definition _process_stop_departures (stop_id_list : list (option string))
    (feed : Feed) (gtfs_prefix : string) (translations : option DataFrame)
    : result (list (list DepartureRecord)) :=
  forM (departures_of_stop feed gtfs_prefix translations) stop_id_list.

(** ** Aggregator *)

(** What is found at the path of a provider's archive: the feed and its
    translations.txt ([None] when the archive has none). *)
Record Archive := mkArchive {
  feed : Feed;
  translations : option DataFrame;
}.

(** The processor after [__init__]: the providers in configured order, the
    archive found at each provider's path (none when the file is missing),
    the platform configuration (a [dict] in insertion order: platform, then
    its [provider, stop_id] pairs) and the day boundary. *)
Record GTFSProcessor := mkGTFSProcessor {
  gtfs_providers : list string;
  gtfs_files : gmap string Archive;
  platform_config : list (string * list (string * option string));
  date_change_hour : Z;
}.

Record SignageData := mkSignageData {
  out_departure_info : gmap string (list DepartureRecord);
  out_calendar : gmap string (list ServiceRef);
  out_gtfs_id : list string;
  out_date_change_hour : Z;
}.

(** [[stop_id for prov, stop_id in stop_configs if prov == provider]] *)
Definition provider_stops (provider : string)
    (stop_configs : list (string * option string)) : list (option string) :=
  snd <$> filter (λ c : string * option string, c.1 = provider) stop_configs.

(** [if departures: departure_info[platform_num].extend(departures)] *)
Definition extend_platform (platform_num : string)
    (departure_info : gmap string (list DepartureRecord))
    (departures : list DepartureRecord)
    : result (gmap string (list DepartureRecord)) :=
  match departures with
  | [] => Ok departure_info
  | _ :: _ =>
      match departure_info !! platform_num with
      | Some l => Ok (<[platform_num := l ++ departures]> departure_info)
      | None => Raise (KeyError platform_num)
      end
  end.

(** Body of [for platform_num, stop_configs in self.platform_config.items()]. *)
Definition platform_step (provider : string) (a : Archive)
    (departure_info : gmap string (list DepartureRecord))
    (entry : string * list (string * option string))
    : result (gmap string (list DepartureRecord)) :=
  let '(platform_num, stop_configs) := entry in
  match provider_stops provider stop_configs with
  | [] => Ok departure_info
  | (_ :: _) as stops =>
      gtfs_departure_info ←
        _process_stop_departures stops (feed a) provider (translations a);
      foldlM (extend_platform platform_num) departure_info gtfs_departure_info
  end.

(** [for date, service_ids in gtfs_calendar.items():
       calendar[date].extend(service_ids)] on a [defaultdict(list)]. *)
Definition extend_calendar (calendar gtfs_calendar : gmap string (list ServiceRef))
    : gmap string (list ServiceRef) :=
  map_fold (λ date service_ids calendar,
              <[date := default [] (calendar !! date) ++ service_ids]> calendar)
           calendar gtfs_calendar.

(** Body of [for provider in self.gtfs_providers]. *)
Definition provider_step (self : GTFSProcessor)
    (acc : gmap string (list DepartureRecord) * gmap string (list ServiceRef))
    (provider : string)
    : result (gmap string (list DepartureRecord) * gmap string (list ServiceRef)) :=
  let '(departure_info, calendar) := acc in
  match gtfs_files self !! provider with
  | None => Raise FileNotFoundError
  | Some a =>
      departure_info ←
        foldlM (platform_step provider a) departure_info (platform_config self);
      gtfs_calendar ← Calendar._process_calendar_data (feed a) provider;
      Ok (departure_info, extend_calendar calendar gtfs_calendar)
  end.

Definition process_gtfs_data (self : GTFSProcessor) : result SignageData :=
  let departure_info : gmap string (list DepartureRecord) :=
    list_to_map ((λ e : string * list (string * option string), (e.1, []))
                   <$> platform_config self) in
  let calendar : gmap string (list ServiceRef) := ∅ in
  acc ← foldlM (provider_step self) (departure_info, calendar)
               (gtfs_providers self);
  Ok {| out_departure_info := acc.1;
        out_calendar := acc.2;
        out_gtfs_id := gtfs_providers self;
        out_date_change_hour := date_change_hour self |}.

(** ** The fall-back rules and the selection of rows, as the specification
    words them *)

Module SpecRecord.

(** The value of a column in a one-row selection, when the column exists. *)
Definition column_value (df : DataFrame) (c : string) : option cell :=
  if DF.has_column df c
  then (λ r, DF.cell_of r c) <$> head (rows df)
  else None.

(** A value of a text column as the feed loader hands it out: text or a
    missing value, or no value when the column is not there. *)
Definition loaded_text (o : option cell) : Prop :=
  match o with
  | Some (Int _) => False
  | _ => True
  end.

(** The text of a value that is there and is not empty. *)
Definition nonempty_text (o : option cell) : option string :=
  match o with
  | Some (Str (String a s)) => Some (String a s)
  | _ => None
  end.

(** "[own] if non-empty, else [other] if it exists, else the empty string"
    (a missing value counts as empty). *)
Definition precedence (own other : option cell) : string :=
  match nonempty_text own with
  | Some s => s
  | None =>
      match nonempty_text other with
      | Some t => t
      | None => ""
      end
  end.

(** A value that is absent (no such column) or missing (null). *)
Definition missing (o : option cell) : Prop :=
  match o with
  | None | Some NaN => True
  | _ => False
  end.

(** A value that is absent, missing or the empty text. *)
Definition unset (o : option cell) : Prop :=
  match o with
  | None | Some NaN | Some (Str EmptyString) => True
  | _ => False
  end.

(** No English translation is to be found for [identifier]: there is no
    translation table, or an empty one, or none of its rows matches the
    identifier, by record_id or by field_value. *)
Definition untranslated (tr : option DataFrame) (table_name field_name : string)
    (identifier : cell) : Prop :=
  match tr with
  | None => True
  | Some t =>
      DF.empty t = true ∨
      Forall (λ r, Spec.matches table_name field_name "en" "record_id"
                     identifier r = false ∧
                   Spec.matches table_name field_name "en" "field_value"
                     (Str (str identifier)) r = false)
             (rows t)
  end.

(** The rows of trips that carry the trip_id of a stop_times row, and the
    rows of routes that carry the route_id of the first of them. *)
Definition trip_rows (feed : Feed) (row : Series) : DataFrame :=
  mkDataFrame (columns (trips feed))
    (filter (λ t, eqb (DF.cell_of t "trip_id") (DF.cell_of row "trip_id") = true)
            (rows (trips feed))).

Definition route_rows (feed : Feed) (row : Series) : DataFrame :=
  mkDataFrame (columns (routes feed))
    match rows (trip_rows feed row) with
    | t :: _ =>
        filter (λ r, eqb (DF.cell_of r "route_id") (DF.cell_of t "route_id") = true)
               (rows (routes feed))
    | [] => []
    end.

(** A stop_times row that gives a record: it has a departure time, a trip
    and a route. *)
Definition joinable (feed : Feed) (row : Series) : bool :=
  negb (isna (DF.cell_of row "departure_time")) &&
  negb (DF.empty (trip_rows feed row)) &&
  negb (DF.empty (route_rows feed row)).

(** "The empty string stands for unknown/absent", field by field, for the
    record built from a stop_times row, its trip and its route: the head sign
    and the route name are empty when both their sources are unset, the
    colours and the service are empty when their source is missing, and a
    translated field is empty when no translation is to be found for its
    key (the route_id of the trip; the head sign of the record, when head
    signs are text). *)
Definition absent_is_empty (row : Series) (trip_row route_row : DataFrame)
    (tr : option DataFrame) (rec : DepartureRecord) : Prop :=
  (unset (row !! "stop_headsign") →
   unset (column_value trip_row "trip_headsign") →
   headsign rec = Str "") ∧
  (unset (column_value route_row "route_short_name") →
   unset (column_value route_row "route_long_name") →
   route_name rec = Str "") ∧
  (missing (column_value route_row "route_color") →
   route_color rec = Str "") ∧
  (missing (column_value route_row "route_text_color") →
   route_text_color rec = Str "") ∧
  (missing (column_value trip_row "service_id") →
   service_id rec = Str "") ∧
  (∀ route_id, column_value trip_row "route_id" = Some route_id →
     untranslated tr "routes" "route_long_name" route_id →
     route_name_en rec = Str "") ∧
  (loaded_text (row !! "stop_headsign") →
   loaded_text (column_value trip_row "trip_headsign") →
   untranslated tr "stop_times" "stop_headsign" (headsign rec) →
   headsign_en rec = Str "").

(** A cell that holds text. *)
Definition is_text (c : cell) : Prop := ∃ s, c = Str s.

(** The fields of a record that the specification calls textual, but for
    departure_time. *)
Definition textual_fields (rec : DepartureRecord) : list cell :=
  [route_name rec; route_name_en rec; route_color rec; route_text_color rec;
   headsign rec; headsign_en rec; gtfs_id rec; service_id rec].

(** What holds of every record of a successful extraction for one stop of
    [feed]: the eight fields passed through [str] are text, the departure
    time is the cell of a stop_times row, as loaded and not missing, and in
    the record of that row the empty string stands for what is absent. *)
Definition record_ok (f : Feed) (tr : option DataFrame)
    (rec : DepartureRecord) : Prop :=
  Forall is_text (textual_fields rec) ∧
  departure_time rec ≠ NaN ∧
  ∃ row, row ∈ rows (stop_times f) ∧
         row !! "departure_time" = Some (departure_time rec) ∧
         absent_is_empty row (trip_rows f row) (route_rows f row) tr rec.

(** "pickup_type is absent/null or equals 0" *)
Definition regular_boarding (c : cell) : bool :=
  isna c || match astype_int c with Ok z => z =? 0 | Raise _ => false end.

(** The rows of stop_times the extractor keeps for a stop. *)
Definition boards_at (stop_id : string) (r : Series) : bool :=
  eqb (DF.cell_of r "stop_id") (Str stop_id) &&
  regular_boarding (DF.cell_of r "pickup_type").

(** "The platform's configured (provider, stop) pairs, filtered down to this
    provider": the stops of the pairs of [provider], in configured order. *)
Fixpoint stops_of (provider : string)
    (stop_configs : list (string * option string)) : list (option string) :=
  match stop_configs with
  | [] => []
  | (prov, stop_id) :: rest =>
      if String.eqb prov provider
      then stop_id :: stops_of provider rest
      else stops_of provider rest
  end.

End SpecRecord.

(** ** Sample feeds *)

Module Examples.

Definition series (l : list (string * cell)) : Series := list_to_map l.

Definition no_table : DataFrame := mkDataFrame [] [].

(** 2025-02-18, a Tuesday. *)
Definition feb18 : Z := 739300.

Definition holiday_off : CalendarDateRow := mkCalendarDateRow "HOL" feb18 2.
Definition weekday_on : CalendarDateRow := mkCalendarDateRow "WD" feb18 1.

(** A feed whose only calendar information is the removal of a service that
    never ran. *)
Definition feed_removal_only : Feed :=
  mkFeed None (Some [holiday_off]) no_table no_table no_table.

(** A feed that adds one service on a date and removes another, which never
    ran, on the same date. *)
Definition feed_add_and_removal : Feed :=
  mkFeed None (Some [weekday_on; holiday_off]) no_table no_table no_table.

Definition processor_of (f : Feed) : GTFSProcessor :=
  mkGTFSProcessor ["A"] {[ "A" := mkArchive f None ]} [("1", [("A", None)])] 3.

(** Service "WD": Monday to Friday, from 2025-01-01 to 2025-01-07. *)
Definition weekdays : CalendarRow :=
  mkCalendarRow "WD" 739252 739258 true true true true true false false.

(** A small bus feed.  Departure times are second counts, as the feed loader
    hands them out ("25:10:00" is 90600). *)
Definition st_columns : list string :=
  ["trip_id"; "stop_id"; "departure_time"; "pickup_type"].

Definition stop_time (trip stop : string) (time pickup : cell) : Series :=
  series [("trip_id", Str trip); ("stop_id", Str stop);
          ("departure_time", time); ("pickup_type", pickup)].

Definition bus_stop_times : DataFrame :=
  mkDataFrame st_columns
    [ stop_time "T1" "S1" (Int 90600) (Int 0);
      stop_time "T1" "S1" (Int 90600) (Int 1);
      stop_time "T2" "S1" NaN (Int 0);
      stop_time "T2" "S2" (Int 600) (Int 0) ].

Definition bus_trips : DataFrame :=
  mkDataFrame ["trip_id"; "route_id"; "service_id"; "trip_headsign"]
    [ series [("trip_id", Str "T1"); ("route_id", Str "R1");
              ("service_id", Str "WD"); ("trip_headsign", Str "City Hall")];
      series [("trip_id", Str "T2"); ("route_id", Str "R1");
              ("service_id", Str "WD"); ("trip_headsign", NaN)] ].

Definition bus_routes : DataFrame :=
  mkDataFrame ["route_id"; "route_short_name"; "route_long_name"]
    [ series [("route_id", Str "R1"); ("route_short_name", NaN);
              ("route_long_name", Str "Loop Line")] ].

Definition bus_feed : Feed :=
  mkFeed None None bus_stop_times bus_trips bus_routes.

Definition translation (table field record value text : cell) : Series :=
  series [("table_name", table); ("field_name", field); ("language", Str "en");
          ("record_id", record); ("field_value", value); ("translation", text)].

Definition bus_translations : DataFrame :=
  mkDataFrame ["table_name"; "field_name"; "language"; "record_id";
               "field_value"; "translation"]
    [ translation (Str "routes") (Str "route_long_name")
                  (Str "R1") NaN (Str "Loop Line EN");
      translation (Str "stop_times") (Str "stop_headsign")
                  NaN (Str "City Hall") (Str "City Hall EN") ].

Definition bus_processor : GTFSProcessor :=
  mkGTFSProcessor ["A"] {[ "A" := mkArchive bus_feed (Some bus_translations) ]}
    [("1", [("A", Some "S1"); ("B", None)]); ("2", [("A", Some "S2")])] 3.

(** The record of trip T1 at stop S1. *)
Definition city_hall_record : DepartureRecord :=
  {| departure_time := Int 90600;
     route_name := Str "Loop Line";
     route_name_en := Str "Loop Line EN";
     route_color := Str "";
     route_text_color := Str "";
     headsign := Str "City Hall";
     headsign_en := Str "City Hall EN";
     gtfs_id := Str "A";
     service_id := Str "WD" |}.

(** The record of trip T2 at stop S2. *)
Definition early_record : DepartureRecord :=
  {| departure_time := Int 600;
     route_name := Str "Loop Line";
     route_name_en := Str "Loop Line EN";
     route_color := Str "";
     route_text_color := Str "";
     headsign := Str "";
     headsign_en := Str "";
     gtfs_id := Str "A";
     service_id := Str "WD" |}.

Definition bus_output : SignageData :=
  {| out_departure_info := {[ "1" := [city_hall_record]; "2" := [early_record] ]};
     out_calendar := ∅;
     out_gtfs_id := ["A"];
     out_date_change_hour := 3 |}.

(** The one-row selections of trip T1 and of its route. *)
Definition trip_T1 : DataFrame :=
  mkDataFrame (columns bus_trips) (take 1 (rows bus_trips)).

(** A calendar row whose end date is before its start date. *)
Definition backwards : CalendarRow :=
  mkCalendarRow "WD" 739258 739252 true true true true true true true.

(** The example of the specification: a row at "25:10:00" without a
    pickup_type, and the same row with pickup_type 1. *)
Definition late_row : Series :=
  stop_time "T1" "S1" (Str "25:10:00") NaN.

Definition feed_null_pickup : Feed :=
  mkFeed None None
    (mkDataFrame st_columns
       [late_row; stop_time "T1" "S1" (Str "25:10:00") (Int 1)])
    bus_trips bus_routes.

End Examples.

(** ** Predicates of the further properties *)

Module Inv.

(** Every pair of a calendar accumulator carries provider [p]. *)
Definition tagged (p : string) (c : gmap string (gset (string * string)))
    : Prop :=
  ∀ k x, x ∈ Calendar.at_key c k → x.1 = p.

(** A translation table the lookup can read: none, an empty one, or one with
    the columns of the lookup in which every row holds a translation cell. *)
Definition readable (tr : option DataFrame) : Prop :=
  match tr with
  | None => True
  | Some t =>
      DF.empty t = true ∨
      (Forall (λ c, c ∈ columns t)
         ["table_name"; "field_name"; "language"; "record_id"; "field_value"] ∧
       Forall (λ r : Series, is_Some (r !! "translation")) (rows t))
  end.

(** The columns of a table with its first row only. *)
Definition first_row (df : DataFrame) : DataFrame :=
  mkDataFrame (columns df) (take 1 (rows df)).

(** "pass through, empty string if absent/null": the text of a column of a
    one-row selection, the empty string when the column is not there or the
    value is missing. *)
Definition pass_through (df : DataFrame) (c : string) : string :=
  match SpecRecord.column_value df c with
  | Some (Str s) => s
  | _ => ""
  end.

(** The extraction for one stop with the joins made against the whole trips
    and routes tables, that is without the two [isin] selections. *)
Definition departures_direct (feed : Feed) (gtfs_prefix : string)
    (translations : option DataFrame) (stop_id : string)
    : result (list DepartureRecord) :=
  stop_times ← select_stop_times feed stop_id;
  if DF.empty stop_times then Ok [] else
  _ ← DF.col (trips feed) "trip_id";
  _ ← DF.col stop_times "trip_id";
  _ ← DF.col (routes feed) "route_id";
  _ ← DF.col (trips feed) "route_id";
  departures ← forM (departure_of_row (trips feed) (routes feed)
                                      gtfs_prefix translations)
                    (rows stop_times);
  Ok (omap (M:=list) id departures).

(** Every pickup_type of stop_times is a value [astype(int)] accepts. *)
Definition pickups_convert (feed : Feed) : Prop :=
  Forall (λ r, ∃ z, astype_int (DF.cell_of r "pickup_type") = Ok z)
         (rows (stop_times feed)).

End Inv.

(** ** Further sample feeds *)

Module Samples.
Import Examples.

(** A feed whose calendar has the one row of service "WD" and that has no
    calendar_dates table. *)
Definition feed_weekdays : Feed :=
  mkFeed (Some [weekdays]) None no_table no_table no_table.

(** A translation table that lacks the record_id column. *)
Definition translations_without_record_id : DataFrame :=
  mkDataFrame ["table_name"; "field_name"; "language"; "field_value";
               "translation"]
    [ series [("table_name", Str "routes");
              ("field_name", Str "route_long_name"); ("language", Str "en");
              ("field_value", Str "Loop Line");
              ("translation", Str "Loop Line EN")] ].

(** The bus feed with a stop_times table that has no pickup_type column. *)
Definition feed_without_pickup_type : Feed :=
  mkFeed None None
    (mkDataFrame ["trip_id"; "stop_id"; "departure_time"]
       [ series [("trip_id", Str "T1"); ("stop_id", Str "S1");
                 ("departure_time", Int 90600)] ])
    bus_trips bus_routes.

(** A feed whose calendar has the row of service "WD" and a row whose range
    is backwards, and no calendar_dates table. *)
Definition feed_two_rows : Feed :=
  mkFeed (Some [weekdays; backwards]) None no_table no_table no_table.

(** The calendar of service "WD" of provider "A": the five working days from
    Wednesday 2025-01-01 to Tuesday 2025-01-07. *)
Definition weekdays_calendar : gmap string (list ServiceRef) :=
  {[ "2025-01-01" := [mkServiceRef "A" "WD"];
     "2025-01-02" := [mkServiceRef "A" "WD"];
     "2025-01-03" := [mkServiceRef "A" "WD"];
     "2025-01-06" := [mkServiceRef "A" "WD"];
     "2025-01-07" := [mkServiceRef "A" "WD"] ]}.

(** Service "WD" does not run on Monday 2025-01-06. *)
Definition monday_off : CalendarDateRow := mkCalendarDateRow "WD" 739257 2.

(** The two calendar rows, and that day taken off in calendar_dates. *)
Definition feed_monday_off : Feed :=
  mkFeed (Some [weekdays; backwards]) (Some [monday_off])
         no_table no_table no_table.

(** A row whose range is backwards and lies in the year 2300, beyond the
    days a timestamp can hold. *)
Definition far_backwards : CalendarRow :=
  mkCalendarRow "WD" 839694 839693 true true true true true true true.

Definition feed_far_backwards : Feed :=
  mkFeed (Some [far_backwards]) None no_table no_table no_table.

(** A stop_times row with a head sign of its own. *)
Definition express_row : Series :=
  series [("trip_id", Str "T1"); ("stop_id", Str "S1");
          ("departure_time", Int 90600); ("pickup_type", Int 0);
          ("stop_headsign", Str "Express")].

(** A route with a short name, a colour and no text colour. *)
Definition numbered_routes : DataFrame :=
  mkDataFrame ["route_id"; "route_short_name"; "route_long_name";
               "route_color"; "route_text_color"]
    [ series [("route_id", Str "R1"); ("route_short_name", Str "12");
              ("route_long_name", Str "Loop Line");
              ("route_color", Str "FF0000"); ("route_text_color", NaN)] ].

Definition express_record : DepartureRecord :=
  {| departure_time := Int 90600;
     route_name := Str "12";
     route_name_en := Str "Loop Line EN";
     route_color := Str "FF0000";
     route_text_color := Str "";
     headsign := Str "Express";
     headsign_en := Str "";
     gtfs_id := Str "A";
     service_id := Str "WD" |}.

(** The one-row selection of trip T2, which has no head sign. *)
Definition trip_T2 : DataFrame :=
  mkDataFrame (columns bus_trips) (drop 1 (rows bus_trips)).

(** A second provider: one tram leaving stop "S3" at 00:05:00. *)
Definition tram_feed : Feed :=
  mkFeed None None
    (mkDataFrame st_columns [stop_time "X1" "S3" (Int 300) (Int 0)])
    (mkDataFrame ["trip_id"; "route_id"; "service_id"; "trip_headsign"]
       [ series [("trip_id", Str "X1"); ("route_id", Str "R9");
                 ("service_id", Str "SAT"); ("trip_headsign", Str "Depot")] ])
    (mkDataFrame ["route_id"; "route_short_name"; "route_long_name"]
       [ series [("route_id", Str "R9"); ("route_short_name", Str "9");
                 ("route_long_name", NaN)] ]).

Definition tram_record : DepartureRecord :=
  {| departure_time := Int 300;
     route_name := Str "9";
     route_name_en := Str "";
     route_color := Str "";
     route_text_color := Str "";
     headsign := Str "Depot";
     headsign_en := Str "";
     gtfs_id := Str "B";
     service_id := Str "SAT" |}.

(** The configuration {"1": [["A","S1"], ["B","S3"], ["A","S2"]]} with the
    providers in the order B, A. *)
Definition two_provider_processor : GTFSProcessor :=
  mkGTFSProcessor ["B"; "A"]
    {[ "A" := mkArchive bus_feed (Some bus_translations);
       "B" := mkArchive tram_feed None ]}
    [("1", [("A", Some "S1"); ("B", Some "S3"); ("A", Some "S2")])] 3.

Definition two_provider_output : SignageData :=
  {| out_departure_info :=
       {[ "1" := [tram_record; city_hall_record; early_record] ]};
     out_calendar := ∅;
     out_gtfs_id := ["B"; "A"];
     out_date_change_hour := 3 |}.

(** A translation table whose row for route R1 has no translation. *)
Definition translations_missing_cell : DataFrame :=
  mkDataFrame (columns bus_translations)
    [ translation (Str "routes") (Str "route_long_name") (Str "R1") NaN NaN ].

(** What the pipeline returns for the feed that adds "WD" and removes "HOL"
    on 2025-02-18. *)
Definition add_and_removal_output : SignageData :=
  {| out_departure_info := {[ "1" := [] ]};
     out_calendar := {[ "2025-02-18" := [mkServiceRef "A" "WD"] ]};
     out_gtfs_id := ["A"];
     out_date_change_hour := 3 |}.

End Samples.

(** * Properties *)

(** ** The result monad and its loops *)

Lemma bind_Ok {A B} (m : result A) (f : A → result B) (b : B) :
  m ≫= f = Ok b ↔ ∃ a, m = Ok a ∧ f a = Ok b.
Proof.
  destruct m as [a|e]; simpl; split.
  - intros H. exists a. done.
  - intros (a' & [= <-] & H). done.
  - discriminate.
  - intros (a' & [=] & _).
Qed.


(** Inversion of a successful sequence of binds in a hypothesis. *)
Ltac inv_ok H :=
  repeat match type of H with
  | _ ≫= _ = Ok _ =>
      let a := fresh "v" in
      let Ha := fresh "Hv" in
      apply bind_Ok in H as (a & Ha & H)
  end.

Lemma forM_app {A B} (f : A → result B) (l1 l2 : list A) :
  forM f (l1 ++ l2) = (a ← forM f l1; b ← forM f l2; Ok (a ++ b)).
Proof.
  induction l1 as [|x l1 IH]; simpl.
  - by destruct (forM f l2).
  - destruct (f x) as [y|e]; simpl; [|done].
    rewrite IH. destruct (forM f l1) as [a|e]; simpl; [|done].
    by destruct (forM f l2).
Qed.

Lemma forM_Ok_Forall2 {A B} (f : A → result B) (l : list A) (r : list B) :
  forM f l = Ok r ↔ Forall2 (λ a b, f a = Ok b) l r.
Proof.
  revert r. induction l as [|x l IH]; intros r; simpl.
  - split; [intros [= <-]; constructor | by inversion 1].
  - split.
    + intros H. inv_ok H. injection H as <-.
      constructor; [done | by apply IH].
    + inversion 1 as [|? b ? bs Hx Hl]; subst.
      rewrite Hx. simpl. apply IH in Hl. by rewrite Hl.
Qed.

Lemma forM_Ok_length {A B} (f : A → result B) (l : list A) (r : list B) :
  forM f l = Ok r → length r = length l.
Proof. rewrite forM_Ok_Forall2. intros H. symmetry. by eapply Forall2_length. Qed.

Lemma forM_Raise {A B} (f : A → result B) (l : list A) (x : A) :
  x ∈ l → (∃ e, f x = Raise e) → ∃ e, forM f l = Raise e.
Proof.
  intros Hx [e He]. induction l as [|y l IH]; [by apply elem_of_nil in Hx|].
  simpl. destruct (f y) as [b|e'] eqn:Hy; simpl; [|by eexists].
  apply elem_of_cons in Hx as [->|Hx]; [congruence|].
  destruct (IH Hx) as [e' ->]. by eexists.
Qed.

Lemma foldlM_app {A B} (f : B → A → result B) (b : B) (l1 l2 : list A) :
  foldlM f b (l1 ++ l2) = (b' ← foldlM f b l1; foldlM f b' l2).
Proof.
  revert b. induction l1 as [|x l1 IH]; intros b; simpl; [done|].
  destruct (f b x) as [b'|e]; simpl; [apply IH | done].
Qed.

(** ** Dates and their strings *)

Section date_props.

(** [ymd] yields a month and a day in range and is undone by [ordinal]. *)
Lemma ymd_spec d :
  ∃ y m day, ymd d = (y, m, day) ∧ ordinal y m day = d ∧
             1 ≤ m ≤ 12 ∧ 1 ≤ day ≤ 31 ∧ (1 ≤ d → 1 ≤ y).
Proof.
  unfold ymd, ordinal. eexists _, _, _. split; [reflexivity|].
  cbv zeta.
  repeat match goal with |- context [?a <? ?b] => destruct (Z.ltb_spec a b) end;
  repeat match goal with |- context [?a <=? ?b] => destruct (Z.leb_spec a b) end;
  Z.to_euclidean_division_equations; lia.
Qed.

Lemma digit_pretty_N_char (x : N) :
  (x < 10)%N → digit (pretty_N_char x) = Some (Z.of_N x).
Proof.
  intros H. destruct x as [|q]; [done|].
  do 4 (destruct q as [q|q|]; try reflexivity; try lia).
Qed.

Lemma digits_pretty_N_go (x : N) :
  ∃ k, ∀ acc s, digits acc (pretty_N_go x s) = digits (acc * k + Z.of_N x) s.
Proof.
  induction (N.lt_wf_0 x) as [x _ IH].
  destruct (decide (x = 0)%N) as [->|Hx].
  - exists 1. intros acc s. rewrite pretty_N_go_0. f_equal. lia.
  - destruct (IH (x `div` 10)%N) as [k Hk].
    { apply N.div_lt; lia. }
    exists (10 * k). intros acc s.
    rewrite pretty_N_go_step by lia. rewrite Hk. simpl.
    rewrite digit_pretty_N_char by (apply N.mod_lt; lia). simpl.
    f_equal. pose proof (N.div_mod x 10). lia.
Qed.

Lemma digits_pretty (n : Z) : 0 ≤ n → digits 0 (pretty n) = Some n.
Proof.
  intros Hn. destruct n as [|p|p]; [done| |lia].
  unfold pretty, pretty_Z, pretty, pretty_positive, pretty, pretty_N.
  rewrite decide_False by done.
  destruct (digits_pretty_N_go (N.pos p)) as [k Hk]. rewrite Hk. done.
Qed.

Lemma digits_zeros k acc s :
  acc = 0 →
  digits acc (String.concat "" (replicate k "0") +:+ s) = digits 0 s.
Proof.
  intros ->. induction k as [|k IH]; [done|].
  destruct k; simpl in *; [done|]. exact IH.
Qed.

Lemma digits_zfill w n : 0 ≤ n → digits 0 (zfill w n) = Some n.
Proof.
  intros Hn. unfold zfill. rewrite digits_zeros by done. by apply digits_pretty.
Qed.

Lemma digits_cons acc a s n :
  digits acc (String a s) = Some n →
  ∃ d, digit a = Some d ∧ digits (10 * acc + d) s = Some n.
Proof. simpl. destruct (digit a) as [d|]; [eauto | done]. Qed.

Lemma split_at_dash a a' b b' acc acc' :
  is_Some (digits acc a) → is_Some (digits acc' a') →
  a +:+ "-" +:+ b = a' +:+ "-" +:+ b' → a = a' ∧ b = b'.
Proof.
  revert a' acc acc'. induction a as [|c a IH];
    intros [|c' a'] acc acc' [n Hn] [n' Hn']; cbn [String.append]; intros Heq.
  - injection Heq as Heq. done.
  - injection Heq as <- _. apply digits_cons in Hn' as (d & Hd & _). done.
  - injection Heq as -> _. apply digits_cons in Hn as (d & Hd & _). done.
  - injection Heq as -> Heq.
    apply digits_cons in Hn as (d & Hd & Hn).
    apply digits_cons in Hn' as (d' & Hd' & Hn').
    destruct (IH a' _ _ (ex_intro _ n Hn) (ex_intro _ n' Hn') Heq) as [-> ->]. done.
Qed.

Lemma date_to_str_samples :
  _date_to_str 1 = "0001-01-01" ∧ _date_to_str 730179 = "2000-02-29" ∧
  _date_to_str 693655 = "1900-03-01" ∧ _date_to_str 739257 = "2025-01-06" ∧
  weekday 739257 = 0 ∧ weekday 739256 = 6.
Proof. by split_and!. Qed.

(** Two dates (of year 1 or later) that are written alike are the same. *)
Lemma date_to_str_inj d1 d2 :
  1 ≤ d1 → 1 ≤ d2 → _date_to_str d1 = _date_to_str d2 → d1 = d2.
Proof.
  intros H1 H2. unfold _date_to_str.
  destruct (ymd_spec d1) as (y1 & m1 & day1 & -> & <- & Hm1 & Hd1 & Hy1).
  destruct (ymd_spec d2) as (y2 & m2 & day2 & -> & <- & Hm2 & Hd2 & Hy2).
  intros Heq.
  pose proof (digits_zfill 4 y1) as Ey1. pose proof (digits_zfill 4 y2) as Ey2.
  pose proof (digits_zfill 2 m1) as Em1. pose proof (digits_zfill 2 m2) as Em2.
  pose proof (digits_zfill 2 day1) as Ed1. pose proof (digits_zfill 2 day2) as Ed2.
  apply (split_at_dash _ _ _ _ 0 0) in Heq as [Hy Heq];
    [| rewrite Ey1; eauto; lia | rewrite Ey2; eauto; lia].
  apply (split_at_dash _ _ _ _ 0 0) in Heq as [Hm Hd];
    [| rewrite Em1; eauto; lia | rewrite Em2; eauto; lia].
  rewrite Hy, Ey2 in Ey1 by lia. rewrite Hm, Em2 in Em1 by lia.
  rewrite Hd, Ed2 in Ed1 by lia.
  assert (y2 = y1) as -> by (specialize (Ey1 ltac:(lia)); congruence).
  assert (m2 = m1) as -> by (specialize (Em1 ltac:(lia)); congruence).
  assert (day2 = day1) as -> by (specialize (Ed1 ltac:(lia)); congruence).
  done.
Qed.

End date_props.

(** ** Calendar resolver *)

Section calendar_props.
Import Calendar SpecCalendar.
Implicit Types (c : Acc) (k : string) (x : string * string).

Lemma weekday_bound d : 0 ≤ weekday d < 7.
Proof. unfold weekday. apply Z.mod_pos_bound. lia. Qed.

Lemma runs_on_weekday_flag row d : runs_on row d = weekday_flag row (weekday d).
Proof.
  unfold runs_on. pose proof (weekday_bound d) as Hb.
  assert (weekday d = 0 ∨ weekday d = 1 ∨ weekday d = 2 ∨ weekday d = 3 ∨
          weekday d = 4 ∨ weekday d = 5 ∨ weekday d = 6) as Hd by lia.
  destruct Hd as [-> | [-> | [-> | [-> | [-> | [-> | ->]]]]]]; reflexivity.
Qed.

Lemma lookup_add k x c k' :
  add k x c !! k' = if decide (k = k') then Some (at_key c k ∪ {[x]}) else c !! k'.
Proof. unfold add. apply lookup_insert. Qed.

Lemma lookup_discard k x c k' :
  discard k x c !! k' = if decide (k = k') then Some (at_key c k ∖ {[x]}) else c !! k'.
Proof. unfold discard. apply lookup_insert. Qed.

Lemma at_key_add k x c k' :
  at_key (add k x c) k' = if decide (k = k') then at_key c k ∪ {[x]} else at_key c k'.
Proof. unfold at_key at 1. rewrite lookup_add. by case_decide. Qed.

Lemma at_key_discard k x c k' :
  at_key (discard k x c) k' = if decide (k = k') then at_key c k ∖ {[x]} else at_key c k'.
Proof. unfold at_key at 1. rewrite lookup_discard. by case_decide. Qed.

Lemma day_step_lookup p row c d k :
  day_step p row c d !! k =
    if decide (serves row k d)
    then Some (at_key c k ∪ {[(p, cal_service_id row)]})
    else c !! k.
Proof.
  unfold day_step. rewrite runs_on_weekday_flag.
  destruct (decide (serves row k d)) as [[Hf <-]|Hn].
  - rewrite Hf, lookup_add. by rewrite decide_True.
  - destruct (weekday_flag row (weekday d)) eqn:Hf; [|done].
    rewrite lookup_add. rewrite decide_False; [done|].
    intros ?. by apply Hn.
Qed.

Lemma foldl_day_step_lookup p row ds c k :
  foldl (day_step p row) c ds !! k =
    if decide (Exists (serves row k) ds)
    then Some (at_key c k ∪ {[(p, cal_service_id row)]})
    else c !! k.
Proof.
  revert c. induction ds as [|d ds IH]; intros c; simpl.
  - done.
  - rewrite IH. unfold at_key at 1. rewrite day_step_lookup.
    destruct (decide (serves row k d)) as [Hd|Hd]; simpl.
    + rewrite (decide_True (P := Exists _ (d :: ds))) by (by left).
      destruct (decide (Exists (serves row k) ds)); [|done].
      f_equal. unfold at_key. apply set_eq. intros y.
      rewrite !elem_of_union. tauto.
    + destruct (decide (Exists (serves row k) ds)) as [He|He].
      * rewrite decide_True by (by right). done.
      * rewrite decide_False; [done|]. by intros [?|?]%Exists_cons.
Qed.

Lemma date_range_Ok s e ds :
  date_range s e = Ok ds →
  is_timestamp s = true ∧ is_timestamp e = true ∧ ds = seqZ s (e - s + 1).
Proof.
  unfold date_range. destruct (is_timestamp s), (is_timestamp e); try done.
  by intros [= <-].
Qed.

Lemma date_range_timestamps s e :
  is_timestamp s = true → is_timestamp e = true →
  date_range s e = Ok (seqZ s (e - s + 1)).
Proof. unfold date_range. by intros -> ->. Qed.

Lemma Exists_seqZ (P : Z → Prop) s e :
  Exists P (seqZ s (e - s + 1)) ↔ ∃ d, s ≤ d ≤ e ∧ P d.
Proof.
  rewrite Exists_exists.
  split; intros (d & Hd & HP); exists d; split; try done;
    apply elem_of_seqZ || apply elem_of_seqZ in Hd; lia.
Qed.

(** A day of the timestamp range is of year 1000 or later, where the text of
    its key is settled. *)
Lemma is_timestamp_bounds d :
  is_timestamp d = true → timestamp_min_day ≤ d ≤ timestamp_max_day.
Proof. unfold is_timestamp. lia. Qed.

(** One calendar row, on the entry of a key. *)
Lemma calendar_step_lookup p c row c' k :
  calendar_step p c row = Ok c' →
  c' !! k =
    if decide (Exists (serves row k)
                 (seqZ (start_date row) (end_date row - start_date row + 1)))
    then Some (at_key c k ∪ {[(p, cal_service_id row)]})
    else c !! k.
Proof.
  unfold calendar_step. intros H. inv_ok H. injection H as <-.
  apply date_range_Ok in Hv as (_ & _ & ->). apply foldl_day_step_lookup.
Qed.

Lemma calendar_step_timestamps p c row :
  is_timestamp (start_date row) = true → is_timestamp (end_date row) = true →
  calendar_step p c row
  = Ok (foldl (day_step p row) c
          (seqZ (start_date row) (end_date row - start_date row + 1))).
Proof.
  intros Hs He. unfold calendar_step. by rewrite date_range_timestamps.
Qed.

(** A row whose range is backwards, between days a timestamp can hold,
    changes nothing and raises nothing. *)
Lemma calendar_step_backwards p c row :
  is_timestamp (start_date row) = true → is_timestamp (end_date row) = true →
  end_date row < start_date row →
  calendar_step p c row = Ok c.
Proof.
  intros Hs He Hlt. rewrite calendar_step_timestamps by done.
  by rewrite seqZ_nil by lia.
Qed.

(** After the loop over the calendar table, a pair is in the set of a key
    exactly when it was there before or a row serves a day written as that
    key. *)
Lemma calendar_rows_lookup p rs c c' k x :
  foldlM (calendar_step p) c rs = Ok c' →
  x ∈ at_key c' k ↔
    x ∈ at_key c k ∨
    ∃ row d, row ∈ rs ∧ x = (p, cal_service_id row) ∧
             start_date row ≤ d ≤ end_date row ∧
             weekday_flag row (weekday d) = true ∧ _date_to_str d = k.
Proof.
  revert c. induction rs as [|row rs IH]; intros c H; cbn [foldlM] in H.
  - injection H as <-. split; [by left|].
    intros [?|(? & ? & ?%elem_of_nil & _)]; done.
  - inv_ok H. rewrite (IH _ H). unfold at_key at 1.
    rewrite (calendar_step_lookup _ _ _ _ k Hv).
    destruct (decide _) as [(d & Hr & Hf & Hs)%Exists_seqZ|Hn];
      [|rewrite Exists_seqZ in Hn]; simpl.
    + rewrite elem_of_union, elem_of_singleton. split.
      * intros [[?| ->]|(row' & d' & ? & ?)]; [by left | |].
        -- right. exists row, d. split_and!; [by left | done | apply Hr.. | done | done].
        -- right. exists row', d'. split; [by right | done].
      * intros [?|(row' & d' & [->|?]%elem_of_cons & Hx & ?)].
        -- left. by left.
        -- left. by right.
        -- right. by exists row', d'.
    + fold (at_key c k). split.
      * intros [?|(row' & d' & ? & ?)]; [by left|].
        right. exists row', d'. split; [by right | done].
      * intros [?|(row' & d' & [->|?]%elem_of_cons & Hx & ? & ? & ?)].
        -- by left.
        -- exfalso. apply Hn. by exists d'.
        -- right. exists row', d'. tauto.
Qed.

(** The keys after the loop over the calendar table. *)
Lemma calendar_rows_keys p rs c c' k :
  foldlM (calendar_step p) c rs = Ok c' →
  is_Some (c' !! k) ↔
    is_Some (c !! k) ∨
    ∃ row d, row ∈ rs ∧ start_date row ≤ d ≤ end_date row ∧
             weekday_flag row (weekday d) = true ∧ _date_to_str d = k.
Proof.
  revert c. induction rs as [|row rs IH]; intros c H; cbn [foldlM] in H.
  - injection H as <-. split; [by left|].
    intros [?|(? & ? & ?%elem_of_nil & _)]; done.
  - inv_ok H. rewrite (IH _ H).
    rewrite (calendar_step_lookup _ _ _ _ k Hv).
    destruct (decide _) as [(d & Hr & Hf & Hs)%Exists_seqZ|Hn];
      [|rewrite Exists_seqZ in Hn].
    + split; [|by left; eauto]. intros _. right. exists row, d.
      split_and!; [by left | apply Hr.. | done | done].
    + split.
      * intros [?|(row' & d' & ? & ?)]; [by left|].
        right. exists row', d'. split; [by right | done].
      * intros [?|(row' & d' & [->|?]%elem_of_cons & ? & ? & ?)].
        -- by left.
        -- exfalso. apply Hn. by exists d'.
        -- right. exists row', d'. tauto.
Qed.

(** The loop over the calendar table returns when every range lies between
    days a timestamp can hold. *)
Lemma calendar_rows_total p rs c :
  Forall (λ row, is_timestamp (start_date row) = true ∧
                 is_timestamp (end_date row) = true) rs →
  ∃ c', foldlM (calendar_step p) c rs = Ok c'.
Proof.
  intros H. revert c. induction H as [|row rs [Hs He] _ IH]; intros c.
  - by eexists.
  - cbn [foldlM]. rewrite calendar_step_timestamps by done.
    cbn [mbind result_bind]. apply IH.
Qed.

(** Rows whose range is backwards can be left out of the loop. *)
Lemma calendar_rows_backwards p rs c :
  Forall (λ row, is_timestamp (start_date row) = true ∧
                 is_timestamp (end_date row) = true) rs →
  foldlM (calendar_step p) c
         (filter (λ row, start_date row ≤ end_date row) rs)
  = foldlM (calendar_step p) c rs.
Proof.
  intros H. revert c. induction H as [|row rs [Hs He] _ IH]; intros c; [done|].
  rewrite filter_cons. destruct (decide (start_date row ≤ end_date row)).
  - cbn [foldlM]. destruct (calendar_step p c row); cbn [mbind result_bind];
      [apply IH | done].
  - cbn [foldlM]. rewrite calendar_step_backwards by (done || lia).
    cbn [mbind result_bind]. apply IH.
Qed.

(** A calendar_dates row that neither adds nor removes pair [(p, s)] under
    key [k] leaves its membership as it was. *)
Lemma calendar_dates_step_other p c row k s :
  ¬ (cd_service_id row = s ∧ _date_to_str (cd_date row) = k ∧
     (exception_type row = 1 ∨ exception_type row = 2)) →
  (p, s) ∈ at_key (calendar_dates_step p c row) k ↔ (p, s) ∈ at_key c k.
Proof.
  intros Hn. unfold calendar_dates_step.
  destruct (Z.eqb_spec (exception_type row) 1) as [H1|H1].
  { rewrite at_key_add. case_decide as Hk; [|done]. subst k.
    rewrite elem_of_union, elem_of_singleton. split; [|by left].
    intros [?|[= ->]]; [done|]. exfalso. apply Hn. auto. }
  destruct (Z.eqb_spec (exception_type row) 2) as [H2|H2]; [|done].
  rewrite at_key_discard. case_decide as Hk; [|done]. subst k.
  rewrite elem_of_difference, elem_of_singleton. split; [by intros [? _]|].
  intros Hin. split; [done|]. intros [= ->]. apply Hn. auto.
Qed.

Lemma calendar_dates_fold_other p rs c k s :
  Forall (λ row, ¬ (cd_service_id row = s ∧ _date_to_str (cd_date row) = k ∧
                     (exception_type row = 1 ∨ exception_type row = 2))) rs →
  (p, s) ∈ at_key (foldl (calendar_dates_step p) c rs) k ↔ (p, s) ∈ at_key c k.
Proof.
  intros H. revert c. induction H as [|row rs Hrow _ IH]; intros c; [done|].
  simpl. rewrite IH. by apply calendar_dates_step_other.
Qed.

Lemma last_filter_split {A} (P : A → Prop) `{!∀ a, Decision (P a)}
    (l : list A) r :
  last (filter P l) = Some r →
  ∃ pre post, l = pre ++ r :: post ∧ P r ∧ Forall (λ a, ¬ P a) post.
Proof.
  induction l as [|a l IH] using rev_ind; [done|].
  rewrite filter_app, filter_cons, filter_nil.
  destruct (decide (P a)) as [Ha|Ha].
  - rewrite last_snoc. intros [= ->]. exists l, []. by split_and!.
  - rewrite app_nil_r. intros (pre & post & -> & Hr & Hpost)%IH.
    exists pre, (post ++ [a]). split_and!; [by rewrite <-app_assoc | done |].
    apply Forall_app. split; [done | by constructor].
Qed.

Lemma last_filter_none {A} (P : A → Prop) `{!∀ a, Decision (P a)}
    (l : list A) :
  last (filter P l) = None → Forall (λ a, ¬ P a) l.
Proof.
  intros Hlast. apply last_None in Hlast. apply Forall_forall. intros a Ha HP.
  assert (a ∈ filter P l) as Hin by (by apply list_elem_of_filter).
  rewrite Hlast in Hin. by apply elem_of_nil in Hin.
Qed.

(** The loop over calendar_dates, on one pair and one key: the last row
    that speaks of them decides, and without such a row nothing changes. *)
Lemma calendar_dates_fold_last p cds c k s :
  (p, s) ∈ at_key (foldl (calendar_dates_step p) c cds) k ↔
    match last_exception cds s k with
    | Some r => exception_type r = 1
    | None => (p, s) ∈ at_key c k
    end.
Proof.
  unfold last_exception.
  destruct (last (filter (speaks_of s k) cds)) as [r|] eqn:Hlast.
  - apply last_filter_split in Hlast
      as (pre & post & -> & (<- & <- & Htype) & Hpost).
    rewrite foldl_app. cbn [foldl].
    rewrite calendar_dates_fold_other by done.
    unfold calendar_dates_step. destruct Htype as [H1|H2].
    + rewrite H1. simpl. rewrite at_key_add, decide_True by done.
      split; [done|]. intros _. apply elem_of_union. right.
      by apply elem_of_singleton.
    + rewrite H2. simpl. rewrite at_key_discard, decide_True by done.
      split; [|done]. intros [_ Hx]%elem_of_difference.
      exfalso. apply Hx. by apply elem_of_singleton.
  - apply last_filter_none in Hlast. by apply calendar_dates_fold_other.
Qed.

(** The two loops, one after the other; a table that does not exist has no
    rows. *)
Lemma resolve_unfold feed p :
  resolve feed p =
    (c ← foldlM (calendar_step p) ∅ (table_rows (calendar feed));
     Ok (foldl (calendar_dates_step p) c (table_rows (calendar_dates feed)))).
Proof.
  unfold resolve.
  destruct (calendar feed) as [[|r rs]|], (calendar_dates feed) as [[|r' rs']|];
    cbn [table_exists table_rows default foldlM foldl mbind result_bind];
    try done.
Qed.

(** The early return gives what the two loops give on no row at all. *)
Lemma process_calendar_data_unfold feed p :
  _process_calendar_data feed p =
    (c ← resolve feed p; Ok (fmap (M:=gmap string) to_entries c)).
Proof.
  unfold _process_calendar_data.
  destruct (negb (table_exists (calendar feed)) &&
            negb (table_exists (calendar_dates feed))) eqn:Hno; [|done].
  apply andb_prop in Hno as [H1 H2]. apply negb_true_iff in H1, H2.
  unfold resolve. rewrite H1, H2. cbn [mbind result_bind].
  by rewrite fmap_empty.
Qed.

Lemma to_entries_nil s : to_entries s = [] ↔ s = ∅.
Proof.
  unfold to_entries. split.
  - intros H%fmap_nil_inv. by apply leibniz_equiv, elements_empty_iff.
  - intros ->. by rewrite elements_empty.
Qed.

Lemma elem_of_to_entries e s :
  e ∈ to_entries s ↔ (sr_gtfs_id e, sr_service_id e) ∈ s.
Proof.
  unfold to_entries. rewrite list_elem_of_fmap. split.
  - intros ([a b] & -> & H%elem_of_elements). done.
  - intros H. exists (sr_gtfs_id e, sr_service_id e). split.
    + by destruct e.
    + by apply elem_of_elements.
Qed.

(** A returned calendar holds, under every date, the entries of the set the
    two loops have left there. *)
Lemma process_calendar_data_Ok feed p cal :
  _process_calendar_data feed p = Ok cal →
  ∃ acc, resolve feed p = Ok acc ∧
    ∀ k, cal !! k = to_entries <$> acc !! k ∧
         default [] (cal !! k) = to_entries (at_key acc k).
Proof.
  rewrite process_calendar_data_unfold. intros H. inv_ok H. injection H as <-.
  exists v. split; [done|]. intros k. rewrite lookup_fmap. split; [done|].
  unfold at_key. by destruct (v !! k).
Qed.

Lemma process_calendar_data_resolve feed p acc :
  resolve feed p = Ok acc →
  _process_calendar_data feed p = Ok (to_entries <$> acc).
Proof. intros H. by rewrite process_calendar_data_unfold, H. Qed.

(** C1, as the code has it.  The calendar resolver on the calendar table.
    When the ranges of the calendar rows lie between days a timestamp can
    hold, the resolver returns, and (provider, service_id) is listed under a
    key as follows: when rows of calendar_dates add or remove the service
    under that key, the last of them decides (it is listed exactly when that
    row has exception_type 1); otherwise it is listed exactly when a
    calendar row of the service covers, start and end included, a day
    written as that key whose weekday flag is true.  Said of the days
    themselves: without such a calendar_dates row, the pair is listed under
    a day exactly when a row of the service covers it with a true flag.
    Rows whose end_date is before their start_date add nothing and raise
    nothing: without them the result is the same. *)
Theorem calendar_row_adds_exactly_flagged_days feed p rs :
  calendar feed = Some rs →
  Forall (λ row, is_timestamp (start_date row) = true ∧
                 is_timestamp (end_date row) = true) rs →
  ∃ cal,
    _process_calendar_data feed p = Ok cal ∧
    (∀ s k,
       mkServiceRef p s ∈ default [] (cal !! k) ↔
         match last_exception (table_rows (calendar_dates feed)) s k with
         | Some r => exception_type r = 1
         | None =>
             ∃ row d, row ∈ rs ∧ cal_service_id row = s ∧
                      start_date row ≤ d ≤ end_date row ∧
                      weekday_flag row (weekday d) = true ∧ _date_to_str d = k
         end) ∧
    (∀ s d,
       364878 ≤ d →
       last_exception (table_rows (calendar_dates feed)) s (_date_to_str d)
         = None →
       mkServiceRef p s ∈ default [] (cal !! _date_to_str d) ↔
         ∃ row, row ∈ rs ∧ cal_service_id row = s ∧
                start_date row ≤ d ≤ end_date row ∧
                weekday_flag row (weekday d) = true) ∧
    _process_calendar_data
      (mkFeed (Some (filter (λ row, start_date row ≤ end_date row) rs))
              (calendar_dates feed) (stop_times feed) (trips feed)
              (routes feed)) p = Ok cal.
Proof.
  intros Hcal Hrs.
  destruct (calendar_rows_total p rs ∅ Hrs) as [c Hc].
  set (acc := foldl (calendar_dates_step p) c (table_rows (calendar_dates feed))).
  assert (resolve feed p = Ok acc) as Hres.
  { rewrite resolve_unfold, Hcal. change (table_rows (Some rs)) with rs.
    by rewrite Hc. }
  exists (to_entries <$> acc).
  assert (∀ s k,
    mkServiceRef p s ∈ default [] ((to_entries <$> acc) !! k) ↔
      match last_exception (table_rows (calendar_dates feed)) s k with
      | Some r => exception_type r = 1
      | None =>
          ∃ row d, row ∈ rs ∧ cal_service_id row = s ∧
                   start_date row ≤ d ≤ end_date row ∧
                   weekday_flag row (weekday d) = true ∧ _date_to_str d = k
      end) as Hkey.
  { intros s k.
    assert (default [] ((to_entries <$> acc) !! k) = to_entries (at_key acc k))
      as ->.
    { rewrite lookup_fmap. unfold at_key. by destruct (acc !! k). }
    rewrite elem_of_to_entries. cbn [sr_gtfs_id sr_service_id].
    unfold acc. rewrite calendar_dates_fold_last.
    destruct (last_exception _ s k); [done|].
    rewrite (calendar_rows_lookup _ _ _ _ k (p, s) Hc).
    unfold at_key at 1. rewrite lookup_empty. cbn [default]. split.
    - intros [?%not_elem_of_empty|(row & d & ? & [= ->] & ?)]; [done|].
      by exists row, d.
    - intros (row & d & ? & <- & ?). right. by exists row, d. }
  split_and!.
  - by apply process_calendar_data_resolve.
  - exact Hkey.
  - intros s d Hd Hno. rewrite (Hkey s (_date_to_str d)), Hno. split.
    + intros (row & d' & Hrow & Hs & Hr & Hf & Hstr).
      assert (d' = d) as ->.
      { apply date_to_str_inj; [|lia|done].
        rewrite Forall_forall in Hrs.
        destruct (Hrs row Hrow) as [?%is_timestamp_bounds _].
        unfold timestamp_min_day in *. lia. }
      by exists row.
    + intros (row & ? & ? & ? & ?). by exists row, d.
  - apply process_calendar_data_resolve. rewrite resolve_unfold.
    cbn [calendar calendar_dates].
    change (table_rows (Some ?l)) with l.
    rewrite calendar_rows_backwards by done. by rewrite Hc.
Qed.

(** C2.  The calendar resolver on one more calendar_dates row.  Whenever
    the resolver returns on a feed, it returns on the feed with a further
    row at the end of calendar_dates, and the two calendars compare so:
    with exception_type 1, (provider, service_id) is listed under the date
    of the row and nothing else has changed; with exception_type 2, it is no
    longer listed under that date and nothing else has changed, and when it
    was not listed there every list is as before; with any other type the
    calendar is the same. *)
Theorem calendar_dates_row_adds_or_removes cal cds row st tr ro p before :
  let x := mkServiceRef p (cd_service_id row) in
  let k := _date_to_str (cd_date row) in
  _process_calendar_data (mkFeed cal (Some cds) st tr ro) p = Ok before →
  ∃ after,
    _process_calendar_data (mkFeed cal (Some (cds ++ [row])) st tr ro) p
      = Ok after ∧
    (exception_type row = 1 →
       ∀ k' e, e ∈ default [] (after !! k') ↔
                 e ∈ default [] (before !! k') ∨ (k' = k ∧ e = x)) ∧
    (exception_type row = 2 →
       (∀ k' e, e ∈ default [] (after !! k') ↔
                  e ∈ default [] (before !! k') ∧ ¬ (k' = k ∧ e = x)) ∧
       (x ∉ default [] (before !! k) →
          ∀ k', default [] (after !! k') = default [] (before !! k'))) ∧
    (exception_type row ≠ 1 → exception_type row ≠ 2 → after = before).
Proof.
  intros x k Hbefore.
  apply process_calendar_data_Ok in Hbefore as (acc & Hacc & Hb).
  rewrite resolve_unfold in Hacc. cbn [calendar calendar_dates] in Hacc.
  change (table_rows (Some cds)) with cds in Hacc.
  inv_ok Hacc. injection Hacc as Hacc.
  set (acc' := calendar_dates_step p acc row).
  assert (resolve (mkFeed cal (Some (cds ++ [row])) st tr ro) p = Ok acc')
    as Hres.
  { rewrite resolve_unfold. cbn [calendar calendar_dates].
    change (table_rows (Some (cds ++ [row]))) with (cds ++ [row]).
    rewrite Hv. cbn [mbind result_bind]. rewrite foldl_app. cbn [foldl].
    by rewrite Hacc. }
  exists (to_entries <$> acc').
  assert (∀ k', default [] ((to_entries <$> acc') !! k')
                = to_entries (at_key acc' k')) as Ha.
  { intros k'. rewrite lookup_fmap. unfold at_key. by destruct (acc' !! k'). }
  assert (∀ k', default [] (before !! k') = to_entries (at_key acc k')) as Hb'.
  { intros k'. apply Hb. }
  split_and!.
  - by apply process_calendar_data_resolve.
  - intros Htype k' e. rewrite Ha, Hb', !elem_of_to_entries.
    unfold acc', calendar_dates_step. rewrite Htype. cbn [Z.eqb Pos.eqb].
    rewrite at_key_add. fold k. case_decide as Hk.
    + subst k'. rewrite elem_of_union, elem_of_singleton. split.
      * intros [?|He]; [by left|]. right. split; [done|].
        destruct e. simpl in He. by injection He as -> ->.
      * intros [?|[_ ->]]; [by left | by right].
    + split; [by left|]. intros [?|[? _]]; done.
  - intros Htype.
    assert (∀ k', at_key acc' k' =
              if decide (k = k') then at_key acc k ∖ {[(p, cd_service_id row)]}
              else at_key acc k') as Hdis.
    { intros k'. unfold acc', calendar_dates_step. rewrite Htype.
      cbn [Z.eqb Pos.eqb]. by rewrite at_key_discard. }
    split.
    + intros k' e. rewrite Ha, Hb', !elem_of_to_entries, Hdis.
      case_decide as Hk.
      * subst k'. rewrite elem_of_difference, elem_of_singleton. split.
        -- intros [? Hne]. split; [done|]. intros [_ ->]. by apply Hne.
        -- intros [? Hne]. split; [done|]. intros He. apply Hne. split; [done|].
           destruct e. simpl in He. by injection He as -> ->.
      * split; [|by intros [? _]]. intros ?. split; [done|]. by intros [? _].
    + intros Hx k'. rewrite Ha, Hb', Hdis. case_decide as Hk; [|done].
      subst k'. f_equal. apply difference_disjoint_L, disjoint_singleton_r.
      intros Hin. apply Hx. rewrite Hb'. by apply elem_of_to_entries.
  - intros H1 H2. f_equal. unfold acc', calendar_dates_step.
    destruct (Z.eqb_spec (exception_type row) 1); [done|].
    destruct (Z.eqb_spec (exception_type row) 2); [done|].
    apply map_eq. intros k'. rewrite lookup_fmap. by destruct (Hb k') as [-> _].
Qed.

End calendar_props.

(** ** Merging the calendars of the providers *)

Section merge_props.
Import Calendar.

Lemma extend_calendar_lookup (cal g : gmap string (list ServiceRef)) k :
  extend_calendar cal g !! k =
    match g !! k with
    | Some l => Some (default [] (cal !! k) ++ l)
    | None => cal !! k
    end.
Proof.
  unfold extend_calendar. revert k.
  apply (map_fold_weak_ind (λ r (m : gmap string (list ServiceRef)), ∀ k,
    r !! k = match m !! k with
             | Some l => Some (default [] (cal !! k) ++ l)
             | None => cal !! k
             end)).
  - intros k. by rewrite lookup_empty.
  - intros i x m r Hi IH k. destruct (decide (i = k)) as [->|Hne].
    + rewrite !lookup_insert_eq. by rewrite IH, Hi.
    + rewrite !lookup_insert_ne by done. apply IH.
Qed.

(** The calendar after the providers [ps], started from [cal]. *)
Lemma provider_fold_calendar self ps info cal info' cal' :
  foldlM (provider_step self) (info, cal) ps = Ok (info', cal') →
  ∃ gs,
    Forall2 (λ p g, ∃ a, gtfs_files self !! p = Some a ∧
                         _process_calendar_data (feed a) p = Ok g) ps gs ∧
    cal' = foldl extend_calendar cal gs.
Proof.
  revert info cal. induction ps as [|p ps IH]; intros info cal H; simpl in H.
  - injection H as <- <-. exists []. split; [constructor | done].
  - inv_ok H. destruct v as [info1 cal1]. simpl in Hv.
    destruct (gtfs_files self !! p) as [a|] eqn:Ha; [|done].
    inv_ok Hv. injection Hv as <- <-.
    destruct (IH _ _ H) as (gs & HF & ->).
    exists (v0 :: gs). split; [constructor; eauto | done].
Qed.

Lemma elem_of_provider_calendars self ps gs g :
  Forall2 (λ p g, ∃ a, gtfs_files self !! p = Some a ∧
                       _process_calendar_data (feed a) p = Ok g) ps gs →
  g ∈ gs ↔
    ∃ p a, p ∈ ps ∧ gtfs_files self !! p = Some a ∧
           _process_calendar_data (feed a) p = Ok g.
Proof.
  induction 1 as [|p g0 ps gs (a & Ha & Hg) HF IH].
  - split; [by intros ?%elem_of_nil | by intros (? & ? & ?%elem_of_nil & _)].
  - rewrite elem_of_cons, IH. split.
    + intros [-> | (p' & a' & ? & ? & ?)].
      * exists p, a. split_and!; [by left | done | done].
      * exists p', a'. split_and!; [by right | done | done].
    + intros (p' & a' & [->|?]%elem_of_cons & Ha' & Hg').
      * left. congruence.
      * right. eauto.
Qed.

Lemma foldl_extend_calendar_lookup gs (cal : gmap string (list ServiceRef)) k :
  foldl extend_calendar cal gs !! k =
    if decide (is_Some (cal !! k) ∨ Exists (λ g, is_Some (g !! k)) gs)
    then Some (default [] (cal !! k) ++ mjoin ((λ g, default [] (g !! k)) <$> gs))
    else None.
Proof.
  revert cal. induction gs as [|g gs IH]; intros cal.
  - cbn [foldl fmap list_fmap mjoin list_join]. rewrite app_nil_r.
    destruct (cal !! k) eqn:Hc.
    + rewrite decide_True; [done | left; eauto].
    + rewrite decide_False; [done|].
      intros [[? [=]] | H%Exists_nil]; done.
  - cbn [foldl fmap list_fmap mjoin list_join]. rewrite IH, extend_calendar_lookup.
    destruct (g !! k) as [l|] eqn:Hg.
    + rewrite !decide_True; [by rewrite app_assoc | |].
      * right. left. eauto.
      * left. eauto.
    + cbn [default]. rewrite app_nil_l.
      destruct (decide (is_Some (cal !! k) ∨ Exists (λ g, is_Some (g !! k)) gs))
        as [H|H].
      * rewrite decide_True; [done|].
        destruct H as [?|?]; [by left | right; by right].
      * rewrite decide_False; [done|].
        intros [?|[[? ?]|?]%Exists_cons]; [| congruence |]; apply H; auto.
Qed.

End merge_props.

(** ** Removals in calendar_dates and the keys of the calendar *)

Section removal_props.
Import Calendar.

Lemma calendar_dates_step_keeps p c row k :
  is_Some (c !! k) → is_Some (calendar_dates_step p c row !! k).
Proof.
  intros Hk. unfold calendar_dates_step.
  destruct (exception_type row =? 1).
  { rewrite lookup_add. case_decide; eauto. }
  destruct (exception_type row =? 2); [|done].
  rewrite lookup_discard. case_decide; eauto.
Qed.

Lemma calendar_dates_step_creates p c row :
  exception_type row = 2 →
  is_Some (calendar_dates_step p c row !! _date_to_str (cd_date row)).
Proof.
  intros H. unfold calendar_dates_step. rewrite H. simpl.
  rewrite lookup_discard, decide_True by done. eauto.
Qed.

Lemma foldl_calendar_dates_step_keeps p rows c k :
  is_Some (c !! k) → is_Some (foldl (calendar_dates_step p) c rows !! k).
Proof.
  revert c. induction rows as [|r rows IH]; intros c Hk; simpl; [done|].
  by apply IH, calendar_dates_step_keeps.
Qed.

Lemma foldl_calendar_dates_step_creates p rows c row :
  row ∈ rows → exception_type row = 2 →
  is_Some (foldl (calendar_dates_step p) c rows !! _date_to_str (cd_date row)).
Proof.
  revert c. induction rows as [|r rows IH]; intros c Hin He.
  - by apply elem_of_nil in Hin.
  - simpl. apply elem_of_cons in Hin as [<-|Hin].
    + by apply foldl_calendar_dates_step_keeps, calendar_dates_step_creates.
    + by apply IH.
Qed.

Lemma resolve_removal_key feed p row cal :
  _process_calendar_data feed p = Ok cal →
  row ∈ table_rows (calendar_dates feed) → exception_type row = 2 →
  is_Some (cal !! _date_to_str (cd_date row)).
Proof.
  intros Hcal Hin He.
  apply process_calendar_data_Ok in Hcal as (acc & Hacc & Hk).
  destruct (Hk (_date_to_str (cd_date row))) as [-> _].
  apply fmap_is_Some. rewrite resolve_unfold in Hacc. inv_ok Hacc.
  injection Hacc as <-. by apply foldl_calendar_dates_step_creates.
Qed.

(** C10, as the code has it.  A calendar_dates row of exception_type 2 makes
    its date a key of the final calendar; the list under that key holds the
    pairs that are active on that date in the calendars of the providers, so
    it is empty exactly when no pair of any provider is active on it. *)
Theorem removal_materialises_date self out provider a row :
  process_gtfs_data self = Ok out →
  provider ∈ gtfs_providers self →
  gtfs_files self !! provider = Some a →
  row ∈ table_rows (calendar_dates (feed a)) →
  exception_type row = 2 →
  ∃ l, out_calendar out !! _date_to_str (cd_date row) = Some l ∧
    (∀ e, e ∈ l ↔
       ∃ p' a' acc, p' ∈ gtfs_providers self ∧
         gtfs_files self !! p' = Some a' ∧
         resolve (feed a') p' = Ok acc ∧
         (sr_gtfs_id e, sr_service_id e)
           ∈ at_key acc (_date_to_str (cd_date row))) ∧
    (l = [] ↔
       ∀ p' a' acc, p' ∈ gtfs_providers self →
         gtfs_files self !! p' = Some a' →
         resolve (feed a') p' = Ok acc →
         at_key acc (_date_to_str (cd_date row)) = ∅).
Proof.
  intros Hrun Hp Ha Hrow Hexc. set (k := _date_to_str (cd_date row)).
  unfold process_gtfs_data in Hrun. inv_ok Hrun. injection Hrun as <-.
  destruct v as [info cal]. simpl.
  apply provider_fold_calendar in Hv as (gs & HF & ->).
  pose proof (λ g, elem_of_provider_calendars _ _ _ g HF) as Hgs.
  assert (∃ g, g ∈ gs ∧ _process_calendar_data (feed a) provider = Ok g)
    as (g0 & Hg0 & Hcal0).
  { clear Hgs. induction HF as [|p g ps gs (a' & Ha' & Hg) HF IH].
    - by apply elem_of_nil in Hp.
    - apply elem_of_cons in Hp as [->|Hp].
      + exists g. split; [by left|]. congruence.
      + destruct (IH Hp) as (g' & ? & ?). exists g'. split; [by right | done]. }
  rewrite foldl_extend_calendar_lookup, lookup_empty. cbn [default app].
  rewrite decide_True; last first.
  { right. apply Exists_exists. exists g0. split; [done|].
    by apply (resolve_removal_key (feed a) provider). }
  eexists. split; [done|].
  assert (∀ e, e ∈ mjoin ((λ g, default [] (g !! k)) <$> gs) ↔
      ∃ p' a' acc, p' ∈ gtfs_providers self ∧
        gtfs_files self !! p' = Some a' ∧ resolve (feed a') p' = Ok acc ∧
        (sr_gtfs_id e, sr_service_id e) ∈ at_key acc k) as Hmem.
  { intros e. rewrite list_elem_of_join. split.
    - intros (l & He & (g & -> & Hg)%list_elem_of_fmap).
      apply Hgs in Hg as (p' & a' & ? & ? & Hcal).
      apply process_calendar_data_Ok in Hcal as (acc & Hacc & Hk).
      destruct (Hk k) as [_ Hl]. rewrite Hl in He.
      apply elem_of_to_entries in He. eauto 8.
    - intros (p' & a' & acc & ? & ? & Hacc & He).
      exists (to_entries (at_key acc k)). split.
      + by apply elem_of_to_entries.
      + apply list_elem_of_fmap. exists (to_entries <$> acc). split.
        * rewrite lookup_fmap. unfold at_key. by destruct (acc !! k).
        * apply Hgs. exists p', a'. split_and!; [done..|].
          by apply process_calendar_data_resolve. }
  split; [done|]. split.
  - intros Hnil p' a' acc Hp' Ha' Hacc. apply set_eq. intros [g s].
    split; [|by intros ?%not_elem_of_empty].
    intros Hin. exfalso.
    assert (mkServiceRef g s ∈ mjoin ((λ g, default [] (g !! k)) <$> gs)) as Hc.
    { apply Hmem. eauto 8. }
    rewrite Hnil in Hc. by apply elem_of_nil in Hc.
  - intros Hall. apply elem_of_nil_inv. intros e He.
    apply Hmem in He as (p' & a' & acc & Hp' & Ha' & Hacc & Hin).
    rewrite (Hall p' a' acc Hp' Ha' Hacc) in Hin.
    by apply not_elem_of_empty in Hin.
Qed.

End removal_props.

Section removal_examples.
Import Calendar Examples.

(** C10 as stated fails: the removed service "HOL" is not active on
    2025-02-18, yet that date is not mapped to the empty list, because another
    service of the same feed is active on it. *)
Lemma removal_of_idle_service_counterexample :
  ∃ out acc,
    process_gtfs_data (processor_of feed_add_and_removal) = Ok out ∧
    holiday_off ∈ table_rows (calendar_dates feed_add_and_removal) ∧
    exception_type holiday_off = 2 ∧
    resolve feed_add_and_removal "A" = Ok acc ∧
    (("A", cd_service_id holiday_off)
       ∉ at_key acc (_date_to_str (cd_date holiday_off))) ∧
    out_calendar out !! _date_to_str (cd_date holiday_off)
      = Some [mkServiceRef "A" "WD"] ∧
    out_calendar out !! _date_to_str (cd_date holiday_off) ≠ Some [].
Proof.
  eexists _, _. split; [reflexivity|]. split_and!.
  - apply list_elem_of_further, list_elem_of_here.
  - reflexivity.
  - reflexivity.
  - vm_compute. discriminate.
  - reflexivity.
  - vm_compute. discriminate.
Qed.

End removal_examples.

(** ** Selections of rows *)

Section table_props.

Lemma col_Ok df c :
  c ∈ columns df → DF.col df c = Ok ((λ r, DF.cell_of r c) <$> rows df).
Proof. intros H. unfold DF.col, DF.has_column. by rewrite bool_decide_eq_true_2. Qed.

Lemma col_inv df c l :
  DF.col df c = Ok l → c ∈ columns df ∧ l = (λ r, DF.cell_of r c) <$> rows df.
Proof.
  unfold DF.col, DF.has_column. case_bool_decide; [|done].
  by intros [= <-].
Qed.

Lemma col_Raise_inv df c e :
  DF.col df c = Raise e → e = KeyError c ∧ c ∉ columns df.
Proof.
  unfold DF.col, DF.has_column. case_bool_decide; [done|]. by intros [= <-].
Qed.

Lemma select_fmap df (q : Series → bool) :
  DF.select df (q <$> rows df)
    = mkDataFrame (columns df) (filter (λ r, q r = true) (rows df)).
Proof.
  unfold DF.select. f_equal.
  induction (rows df) as [|r rs IH]; [done|].
  cbn [fmap list_fmap zip zip_with]. rewrite !filter_cons. cbn [snd].
  destruct (decide (q r = true)); cbn [fmap list_fmap fst]; by rewrite <-IH.
Qed.

Lemma and_mask_fmap {A} (f g : A → bool) (l : list A) :
  DF.and_mask (f <$> l) (g <$> l) = (λ a, f a && g a) <$> l.
Proof. unfold DF.and_mask. induction l; simpl; [done | by f_equal]. Qed.

Lemma or_mask_fmap {A} (f g : A → bool) (l : list A) :
  DF.or_mask (f <$> l) (g <$> l) = (λ a, f a || g a) <$> l.
Proof. unfold DF.or_mask. induction l; simpl; [done | by f_equal]. Qed.

Lemma eq_mask_fmap {A} (f : A → cell) (l : list A) v :
  DF.eq_mask (f <$> l) v = (λ a, eqb (f a) v) <$> l.
Proof. unfold DF.eq_mask. by rewrite <-list_fmap_compose. Qed.

Lemma empty_filter df (P : Series → Prop) `{!∀ r, Decision (P r)} :
  DF.empty df = false →
  DF.empty (mkDataFrame (columns df) (filter P (rows df)))
    = bool_decide (filter P (rows df) = []).
Proof.
  unfold DF.empty. simpl. destruct (rows df); [done|].
  destruct (columns df); [done|]. intros _.
  by destruct (filter P _).
Qed.

Lemma filter_find {A} (q : A → bool) (l : list A) :
  head (filter (λ a, q a = true) l) = List.find q l.
Proof.
  induction l as [|a l IH]; [done|]. rewrite filter_cons. simpl.
  destruct (q a); simpl; auto.
Qed.

End table_props.

(** ** Translation resolver *)

Section translation_props.

Lemma translation_mask_Ok tr t f l kc key :
  "table_name" ∈ columns tr → "field_name" ∈ columns tr →
  "language" ∈ columns tr → kc ∈ columns tr →
  translation_mask tr t f l kc key = Ok (Spec.matches t f l kc key <$> rows tr).
Proof.
  intros Ht Hf Hl Hk. unfold translation_mask.
  rewrite !col_Ok by done. simpl.
  by rewrite !eq_mask_fmap, !and_mask_fmap.
Qed.

(** What [_get_translation] answers from a selection of rows. *)
Lemma answer_of_selection tr (q : Series → bool) :
  DF.empty tr = false →
  let matched := DF.select tr (q <$> rows tr) in
  DF.empty matched = bool_decide (List.find q (rows tr) = None) ∧
  (if negb (DF.empty matched) then DF.iloc0 matched "translation"
   else Ok (Str ""))
    = match List.find q (rows tr) with
      | Some r => DF.at_ r "translation"
      | None => Ok (Str "")
      end.
Proof.
  intros Hne. simpl. rewrite select_fmap, empty_filter by done.
  rewrite <-filter_find. unfold DF.iloc0. simpl.
  by destruct (filter _ (rows tr)).
Qed.

(** C6.  Without a translation table, or with an empty one, the lookup
    answers the empty string and raises nothing.  With a loaded table (that
    has the columns the lookup reads) it answers as the specification says:
    the first row matched by record_id; only when there is none, the first
    row matched by field_value against the string form of the identifier;
    the empty string when neither match succeeds. *)
Theorem get_translation_by_record_id_then_field_value :
  (∀ t f l i, _get_translation None t f l i = Ok (Str "")) ∧
  (∀ tr t f l i,
     DF.empty tr = true → _get_translation (Some tr) t f l i = Ok (Str "")) ∧
  (∀ tr t f l i,
     DF.empty tr = false →
     "table_name" ∈ columns tr → "field_name" ∈ columns tr →
     "language" ∈ columns tr → "record_id" ∈ columns tr →
     is_Some (List.find (Spec.matches t f l "record_id" i) (rows tr))
       ∨ "field_value" ∈ columns tr →
     _get_translation (Some tr) t f l i = Spec.lookup tr t f l i).
Proof.
  split_and!.
  - done.
  - intros tr t f l i Hempty. unfold _get_translation. by rewrite Hempty.
  - intros tr t f l i Hne Ht Hf Hl Hr Hv.
    unfold _get_translation, Spec.lookup. rewrite Hne.
    rewrite (translation_mask_Ok tr t f l "record_id") by done.
    cbn [mbind result_bind].
    destruct (answer_of_selection tr (Spec.matches t f l "record_id" i) Hne)
      as [Hemp Hans].
    cbn zeta in Hemp, Hans. rewrite Hemp.
    destruct (List.find (Spec.matches t f l "record_id" i) (rows tr))
      as [r|] eqn:Hfind.
    + rewrite bool_decide_eq_false_2 by done. cbn [mbind result_bind].
      exact Hans.
    + rewrite bool_decide_eq_true_2 by done.
      destruct Hv as [[? [=]]|Hv].
      rewrite translation_mask_Ok by done. cbn [mbind result_bind].
      apply answer_of_selection. done.
Qed.

Lemma translation_mask_inv tr t f l kc key m :
  translation_mask tr t f l kc key = Ok m →
  m = Spec.matches t f l kc key <$> rows tr.
Proof.
  unfold translation_mask. intros H. inv_ok H. injection H as <-.
  apply col_inv in Hv as [_ ->]. apply col_inv in Hv0 as [_ ->].
  apply col_inv in Hv1 as [_ ->]. apply col_inv in Hv2 as [_ ->].
  by rewrite !eq_mask_fmap, !and_mask_fmap.
Qed.

Lemma find_none_Forall {A} (q : A → bool) (l : list A) :
  Forall (λ a, q a = false) l → List.find q l = None.
Proof. induction 1 as [|a l Ha _ IH]; [done|]. simpl. by rewrite Ha. Qed.

(** When no row matches the identifier, by record_id or by field_value, a
    lookup that returns returns the empty string. *)
Lemma get_translation_no_match tr t f l i v :
  DF.empty tr = false →
  Forall (λ r, Spec.matches t f l "record_id" i r = false ∧
               Spec.matches t f l "field_value" (Str (str i)) r = false)
         (rows tr) →
  _get_translation (Some tr) t f l i = Ok v → v = Str "".
Proof.
  intros Hne Hno. unfold _get_translation. rewrite Hne. intros H.
  assert (List.find (Spec.matches t f l "record_id" i) (rows tr) = None) as H1.
  { apply find_none_Forall. eapply Forall_impl; [exact Hno|]. by intros r [? _]. }
  assert (List.find (Spec.matches t f l "field_value" (Str (str i))) (rows tr)
          = None) as H2.
  { apply find_none_Forall. eapply Forall_impl; [exact Hno|]. by intros r [_ ?]. }
  apply bind_Ok in H as (m1 & Hm1 & H).
  apply translation_mask_inv in Hm1 as ->.
  destruct (answer_of_selection tr (Spec.matches t f l "record_id" i) Hne)
    as [Hemp _].
  cbn zeta in Hemp. rewrite Hemp, H1, bool_decide_eq_true_2 in H by done.
  apply bind_Ok in H as (matched & Hmatched & H).
  apply bind_Ok in Hmatched as (m2 & Hm2 & Hmatched).
  apply translation_mask_inv in Hm2 as ->. injection Hmatched as <-.
  destruct (answer_of_selection tr
              (Spec.matches t f l "field_value" (Str (str i))) Hne)
    as [_ Hans].
  cbn zeta in Hans. rewrite Hans, H2 in H. by injection H as <-.
Qed.

End translation_props.

(** ** Departure records *)

Section record_props.
Import SpecRecord.

Lemma first_value_inv df c v :
  DF.first_value df c = Ok v → column_value df c = Some v.
Proof.
  unfold DF.first_value, column_value, DF.col.
  destruct (DF.has_column df c); [|done]. simpl.
  destruct (rows df); simpl; [done | by intros [= <-]].
Qed.

Lemma value_or_blank_inv df c v :
  DF.has_column df c = true →
  value_or_blank df c = Ok v → column_value df c = Some v.
Proof.
  unfold value_or_blank. intros ->. apply first_value_inv.
Qed.

Lemma value_or_blank_absent df c :
  DF.has_column df c = false →
  value_or_blank df c = Ok (Str "") ∧ column_value df c = None.
Proof. unfold value_or_blank, column_value. by intros ->. Qed.

(** What [value_or_blank] answers, said of the column. *)
Lemma value_or_blank_column df c v :
  value_or_blank df c = Ok v →
  match column_value df c with
  | Some w => v = w
  | None => v = Str ""
  end.
Proof.
  intros Hv. destruct (DF.has_column df c) eqn:Hc.
  - by rewrite (value_or_blank_inv _ _ _ Hc Hv).
  - destruct (value_or_blank_absent _ _ Hc) as [Hv' ->].
    rewrite Hv' in Hv. by injection Hv as <-.
Qed.

(** The fall-back value, once a missing value has been blanked. *)
Lemma fallback_text df c w :
  value_or_blank df c = Ok w →
  loaded_text (column_value df c) →
  str (na_to_blank w)
    = match nonempty_text (column_value df c) with
      | Some t => t
      | None => ""
      end.
Proof.
  intros Hw%value_or_blank_column Htext.
  destruct (column_value df c) as [[|t|z]|]; subst w; try done.
  by destruct t.
Qed.

Lemma resolve_headsign_precedence row trip_row h :
  resolve_headsign row trip_row = Ok h →
  loaded_text (row !! "stop_headsign") →
  loaded_text (column_value trip_row "trip_headsign") →
  str h = precedence (row !! "stop_headsign")
                     (column_value trip_row "trip_headsign").
Proof.
  unfold resolve_headsign, precedence, DF.get. intros H Hown Htrip.
  destruct (row !! "stop_headsign") as [[|[|a s]|z]|]; cbn in H; try done;
    try (by injection H as <-);
    inv_ok H; injection H as <-; by apply fallback_text.
Qed.

Lemma resolve_route_name_precedence route_row n :
  resolve_route_name route_row = Ok n →
  loaded_text (column_value route_row "route_short_name") →
  loaded_text (column_value route_row "route_long_name") →
  str n = precedence (column_value route_row "route_short_name")
                     (column_value route_row "route_long_name").
Proof.
  unfold resolve_route_name, precedence. intros H Hshort Hlong. inv_ok H.
  apply value_or_blank_column in Hv.
  destruct (column_value route_row "route_short_name") as [[|[|a s]|z]|];
    subst v; cbn in H; try done;
    try (by injection H as <-);
    inv_ok H; injection H as <-; by apply fallback_text.
Qed.

(** What a successful [_create_departure_record] has computed. *)
Lemma create_departure_record_inv row trip_row route_row p tr rec :
  _create_departure_record row trip_row route_row p tr = Ok rec →
  ∃ h n color text_color service route_id name_en h_en dt,
    resolve_headsign row trip_row = Ok h ∧
    resolve_route_name route_row = Ok n ∧
    value_or_blank route_row "route_color" = Ok color ∧
    value_or_blank route_row "route_text_color" = Ok text_color ∧
    value_or_blank trip_row "service_id" = Ok service ∧
    DF.first_value trip_row "route_id" = Ok route_id ∧
    _get_translation tr "routes" "route_long_name" "en" route_id = Ok name_en ∧
    _get_translation tr "stop_times" "stop_headsign" "en" h = Ok h_en ∧
    row !! "departure_time" = Some dt ∧
    rec = {| departure_time := dt;
             route_name := Str (str n);
             route_name_en := Str (str name_en);
             route_color := Str (str (na_to_blank color));
             route_text_color := Str (str (na_to_blank text_color));
             headsign := Str (str h);
             headsign_en := Str (str h_en);
             gtfs_id := Str p;
             service_id := Str (str (na_to_blank service)) |}.
Proof.
  unfold _create_departure_record. intros H. inv_ok H. injection H as <-.
  match goal with Hdt : DF.at_ row _ = Ok _ |- _ => unfold DF.at_ in Hdt;
    destruct (row !! "departure_time") as [dt|]; [injection Hdt as <-|done] end.
  eauto 20.
Qed.

(** C4.  The head sign of a record is the stop_times row's own head sign if
    that is non-empty, else the trip's head sign if that column exists (and
    the value is there), else the empty string; its route name is the
    route's short name if non-empty, else the long name, else the empty
    string.  (The values are those of text columns: text or missing.) *)
Theorem record_headsign_and_route_name_precedence
    row trip_row route_row p tr rec :
  _create_departure_record row trip_row route_row p tr = Ok rec →
  (loaded_text (row !! "stop_headsign") →
   loaded_text (column_value trip_row "trip_headsign") →
   headsign rec
     = Str (precedence (row !! "stop_headsign")
                       (column_value trip_row "trip_headsign"))) ∧
  (loaded_text (column_value route_row "route_short_name") →
   loaded_text (column_value route_row "route_long_name") →
   route_name rec
     = Str (precedence (column_value route_row "route_short_name")
                       (column_value route_row "route_long_name"))).
Proof.
  intros H. apply create_departure_record_inv in H
    as (h & n & ? & ? & ? & ? & ? & ? & ? & Hh & Hn & _ & _ & _ & _ & _ & _ & _ & ->).
  simpl. split.
  - intros Hown Htrip. f_equal. by apply resolve_headsign_precedence.
  - intros Hshort Hlong. f_equal. by apply resolve_route_name_precedence.
Qed.

(** C5.  In a record, route_name_en is the translation looked up for
    (routes, route_long_name, en, route_id of the joined trip) and headsign_en
    the translation looked up for (stop_times, stop_headsign, en, h), where h
    is the head sign already resolved for the record: the lookup is keyed by
    that text, not by an identifier of the row. *)
Theorem record_translations_keyed_by_route_id_and_headsign
    row trip_row route_row p tr rec :
  _create_departure_record row trip_row route_row p tr = Ok rec →
  ∃ route_id h name_en h_en,
    DF.first_value trip_row "route_id" = Ok route_id ∧
    _get_translation tr "routes" "route_long_name" "en" route_id = Ok name_en ∧
    route_name_en rec = Str (str name_en) ∧
    resolve_headsign row trip_row = Ok h ∧
    headsign rec = Str (str h) ∧
    _get_translation tr "stop_times" "stop_headsign" "en" h = Ok h_en ∧
    headsign_en rec = Str (str h_en).
Proof.
  intros H. apply create_departure_record_inv in H
    as (h & n & ? & ? & ? & route_id & name_en & h_en & ? &
        Hh & _ & _ & _ & _ & Hr & Hn & He & _ & ->).
  exists route_id, h, name_en, h_en. by split_and!.
Qed.

End record_props.

(** ** Departure extractor *)

Section extractor_props.
Import SpecRecord Inv.

Lemma forM_Ok_fmap {A B C} (g : A → result B) (h : B → C) (d : C) l r :
  forM g l = Ok r →
  h <$> r = (λ a, match g a with Ok b => h b | Raise _ => d end) <$> l.
Proof.
  revert r. induction l as [|a l IH]; intros r H; simpl in H.
  - by injection H as <-.
  - inv_ok H. injection H as <-. simpl. rewrite Hv. f_equal. by apply IH.
Qed.

(** A successful selection keeps exactly the rows of the stop whose
    pickup_type passes, in table order. *)
Lemma select_stop_times_Ok feed stop_id df :
  select_stop_times feed stop_id = Ok df →
  df = mkDataFrame (columns (stop_times feed))
         (filter (λ r, boards_at stop_id r = true) (rows (stop_times feed))).
Proof.
  unfold select_stop_times. intros H. inv_ok H. injection H as <-.
  apply col_inv in Hv as [_ ->]. apply col_inv in Hv0 as [_ ->].
  apply col_inv in Hv1 as [_ ->].
  rewrite (forM_Ok_fmap _ (λ z, z =? 0) false _ _ Hv2).
  rewrite <-!list_fmap_compose, eq_mask_fmap, or_mask_fmap, and_mask_fmap.
  by rewrite select_fmap.
Qed.

(** A missing pickup_type, in any row of stop_times, makes the selection
    raise, whatever the stop. *)
Lemma select_stop_times_null_pickup feed stop_id row :
  row ∈ rows (stop_times feed) →
  DF.cell_of row "pickup_type" = NaN →
  ∃ e, select_stop_times feed stop_id = Raise e.
Proof.
  intros Hrow Hna. unfold select_stop_times.
  destruct (DF.col (stop_times feed) "stop_id") as [ids|e]; [|by eexists].
  destruct (DF.col (stop_times feed) "pickup_type") as [pk|e] eqn:Hpk;
    [|by eexists].
  simpl. apply col_inv in Hpk as [_ ->].
  destruct (forM_Raise astype_int
              ((λ r, DF.cell_of r "pickup_type") <$> rows (stop_times feed)) NaN)
    as [e ->]; [| by eexists | by eexists].
  apply list_elem_of_fmap. eauto.
Qed.

Lemma departure_of_row_inv trips routes p tr row rec :
  departure_of_row trips routes p tr row = Ok (Some rec) →
  ∃ dt trip_row route_row,
    row !! "departure_time" = Some dt ∧ isna dt = false ∧
    DF.empty trip_row = false ∧ DF.empty route_row = false ∧
    _create_departure_record row trip_row route_row p tr = Ok rec.
Proof.
  unfold departure_of_row. intros H. inv_ok H.
  unfold DF.at_ in Hv. destruct (row !! "departure_time") as [dt|]; [|done].
  injection Hv as <-. destruct (isna dt) eqn:Hna; [done|].
  inv_ok H.
  destruct (DF.empty (DF.select trips _)) eqn:Ht; [done|].
  inv_ok H.
  destruct (DF.empty (DF.select routes _)) eqn:Hr; [done|].
  inv_ok H. injection H as <-. eauto 10.
Qed.

Lemma departure_of_row_no_time trips routes p tr row :
  row !! "departure_time" = Some NaN →
  departure_of_row trips routes p tr row = Ok None.
Proof. intros H. unfold departure_of_row, DF.at_. by rewrite H. Qed.

Lemma forM_omap_sublist {A B} (f : A → result (option B)) l os :
  forM f l = Ok os →
  ∃ kept, kept `sublist_of` l ∧
          Forall2 (λ a b, f a = Ok (Some b)) kept (omap id os).
Proof.
  revert os. induction l as [|a l IH]; intros os H; simpl in H.
  - injection H as <-. exists []. split; [done | constructor].
  - inv_ok H. injection H as <-.
    destruct (IH _ Hv0) as (kept & Hsub & HF).
    destruct v as [b|]; simpl.
    + exists (a :: kept). split; [by constructor | by constructor].
    + exists kept. split; [by constructor | done].
Qed.

(** The records of a stop come, in table order, from rows of stop_times
    that name the stop, whose pickup_type passes and that have a departure
    time. *)
Lemma departures_of_stop_provenance feed p tr stop_id recs :
  departures_of_stop feed p tr (Some stop_id) = Ok recs →
  ∃ kept,
    kept `sublist_of`
      filter (λ r, boards_at stop_id r = true) (rows (stop_times feed)) ∧
    Forall2 (λ row rec, ∃ dt trip_row route_row,
               row !! "departure_time" = Some dt ∧ isna dt = false ∧
               _create_departure_record row trip_row route_row p tr = Ok rec)
            kept recs.
Proof.
  unfold departures_of_stop. intros H. inv_ok H.
  apply select_stop_times_Ok in Hv as ->.
  destruct (DF.empty _) eqn:Hemp.
  { injection H as <-. exists []. split; [apply sublist_nil_l | constructor]. }
  inv_ok H. injection H as <-. simpl in *.
  match goal with Hf : forM _ _ = Ok _ |- _ =>
    apply forM_omap_sublist in Hf as (kept & Hsub & HF) end.
  exists kept. split; [done|].
  eapply Forall2_impl; [exact HF|]. simpl. intros row rec Hrow.
  apply departure_of_row_inv in Hrow
    as (dt & trip_row & route_row & ? & ? & _ & _ & ?). eauto 10.
Qed.

Lemma forM_ext_in {A B} (f g : A → result B) (l : list A) :
  (∀ a, a ∈ l → f a = g a) → forM f l = forM g l.
Proof.
  induction l as [|a l IH]; intros H; simpl; [done|].
  rewrite (H a) by (by left). rewrite IH; [done|].
  intros a' Ha'. apply H. by right.
Qed.

Lemma forM_total {A B} (f : A → result B) (l : list A) :
  Forall (λ a, ∃ b, f a = Ok b) l → ∃ bs, forM f l = Ok bs.
Proof.
  induction 1 as [|a l [b Hb] _ [bs Hbs]]; simpl; [by eexists|].
  rewrite Hb, Hbs. by eexists.
Qed.

Lemma isin_fmap {A} (f : A → cell) (l : list A) vs :
  DF.isin_mask (f <$> l) vs = (λ a, isin (f a) vs) <$> l.
Proof. unfold DF.isin_mask. by rewrite <-list_fmap_compose. Qed.

Lemma filter_filter_impl {A} (P Q : A → Prop)
    `{!∀ x, Decision (P x)} `{!∀ x, Decision (Q x)} (l : list A) :
  (∀ x, x ∈ l → P x → Q x) → filter P (filter Q l) = filter P l.
Proof.
  induction l as [|a l IH]; intros Himp; [done|].
  rewrite !(filter_cons _ a).
  assert (filter P (filter Q l) = filter P l) as IH'.
  { apply IH. intros x Hx. apply Himp. by right. }
  destruct (decide (Q a)) as [Hq|Hq].
  - rewrite filter_cons. by rewrite IH'.
  - rewrite IH'. destruct (decide (P a)) as [Hp|Hp]; [|done].
    exfalso. apply Hq, Himp; [by left | done].
Qed.

Lemma isin_of_eqb a v vs : eqb a v = true → v ∈ vs → isin a vs = true.
Proof.
  intros Ha Hv. unfold isin. apply existsb_exists. exists v.
  split; [by apply list_elem_of_In|]. by rewrite Ha.
Qed.

(** Selecting by equality inside an [isin] selection that holds the value
    selects the same rows as in the whole table. *)
Lemma select_eq_in_isin df c v vs :
  c ∈ columns df → v ∈ vs →
  let inner := DF.select df
                 (DF.isin_mask ((λ r, DF.cell_of r c) <$> rows df) vs) in
  DF.select inner (DF.eq_mask ((λ r, DF.cell_of r c) <$> rows inner) v)
  = DF.select df (DF.eq_mask ((λ r, DF.cell_of r c) <$> rows df) v).
Proof.
  intros Hc Hv inner. unfold inner.
  rewrite isin_fmap, select_fmap. cbn [rows].
  rewrite !eq_mask_fmap, !select_fmap. cbn [rows columns]. f_equal.
  apply filter_filter_impl. intros r _ Hr. by apply (isin_of_eqb _ v).
Qed.

Lemma departure_of_row_prefiltered f p tr st_ids row :
  "trip_id" ∈ columns (trips f) → "route_id" ∈ columns (trips f) →
  "route_id" ∈ columns (routes f) →
  DF.cell_of row "trip_id" ∈ st_ids →
  let trips' :=
    DF.select (trips f)
      (DF.isin_mask ((λ r, DF.cell_of r "trip_id") <$> rows (trips f)) st_ids) in
  let routes' :=
    DF.select (routes f)
      (DF.isin_mask ((λ r, DF.cell_of r "route_id") <$> rows (routes f))
                    ((λ r, DF.cell_of r "route_id") <$> rows trips')) in
  departure_of_row trips' routes' p tr row
  = departure_of_row (trips f) (routes f) p tr row.
Proof.
  intros Htid Hrid Hroute Hin trips' routes'. unfold departure_of_row.
  destruct (DF.at_ row "departure_time") as [dt|e]; [|done].
  cbn [mbind result_bind]. destruct (isna dt); [done|].
  rewrite (col_Ok trips' "trip_id") by exact Htid.
  rewrite (col_Ok (trips f) "trip_id") by done. cbn [mbind result_bind].
  destruct (DF.at_ row "trip_id") as [tid|e] eqn:Hat; [|done].
  cbn [mbind result_bind].
  assert (DF.cell_of row "trip_id" = tid) as Htid'.
  { unfold DF.at_ in Hat. unfold DF.cell_of.
    destruct (row !! "trip_id"); [by injection Hat as -> | done]. }
  rewrite Htid' in Hin.
  pose proof (select_eq_in_isin (trips f) "trip_id" tid st_ids Htid Hin) as Hsel.
  cbn zeta in Hsel. fold trips' in Hsel. rewrite Hsel. clear Hsel.
  set (trip_row := DF.select (trips f) _).
  destruct (DF.empty trip_row) eqn:Hemp; [done|].
  destruct (DF.first_value trip_row "route_id") as [rid|e] eqn:Hfirst; [|done].
  cbn [mbind result_bind].
  rewrite (col_Ok routes' "route_id") by exact Hroute.
  rewrite (col_Ok (routes f) "route_id") by done. cbn [mbind result_bind].
  assert (rid ∈ (λ r, DF.cell_of r "route_id") <$> rows trips') as Hrin.
  { unfold trip_row in Hfirst. rewrite eq_mask_fmap, select_fmap in Hfirst.
    unfold DF.first_value in Hfirst. rewrite col_Ok in Hfirst by done.
    cbn [mbind result_bind rows] in Hfirst.
    destruct (filter _ (rows (trips f))) as [|t0 ts] eqn:Hfilter; [done|].
    injection Hfirst as <-.
    assert (t0 ∈ filter (λ r, eqb (DF.cell_of r "trip_id") tid = true)
                   (rows (trips f))) as Ht0 by (rewrite Hfilter; by left).
    apply list_elem_of_filter in Ht0 as [Heq Ht0].
    apply list_elem_of_fmap. exists t0. split; [done|].
    unfold trips'. rewrite isin_fmap, select_fmap. cbn [rows].
    apply list_elem_of_filter. split; [|done].
    by apply (isin_of_eqb _ tid). }
  pose proof (select_eq_in_isin (routes f) "route_id" rid _ Hroute Hrin) as Hsel.
  cbn zeta in Hsel. fold routes' in Hsel. rewrite Hsel. done.
Qed.

(** The two [isin] selections can be left out. *)
Lemma isin_selections_direct f p tr stop_id :
  departures_of_stop f p tr (Some stop_id) = departures_direct f p tr stop_id.
Proof.
  unfold departures_of_stop, departures_direct.
  destruct (select_stop_times f stop_id) as [st|e] eqn:Hsel; [|done].
  cbn [mbind result_bind]. destruct (DF.empty st); [done|].
  destruct (DF.col (trips f) "trip_id") as [tids|e] eqn:Htid; [|done].
  cbn [mbind result_bind]. apply col_inv in Htid as [Htid ->].
  destruct (DF.col st "trip_id") as [sids|e] eqn:Hsid; [|done].
  cbn [mbind result_bind]. apply col_inv in Hsid as [Hsid ->].
  destruct (DF.col (routes f) "route_id") as [rids|e] eqn:Hrid; [|done].
  cbn [mbind result_bind]. apply col_inv in Hrid as [Hrid ->].
  destruct (DF.col (trips f) "route_id") as [x|e] eqn:Hcol.
  2: { apply col_Raise_inv in Hcol as [-> Hcol].
       unfold DF.col, DF.has_column. cbn [columns DF.select].
       by rewrite bool_decide_eq_false_2. }
  apply col_inv in Hcol as [Hcol ->].
  rewrite (col_Ok (DF.select (trips f) _) "route_id") by exact Hcol.
  cbn [mbind result_bind].
  rewrite (forM_ext_in _ (departure_of_row (trips f) (routes f) p tr)); [done|].
  intros row Hrow.
  apply (departure_of_row_prefiltered f p tr); try done.
  apply list_elem_of_fmap. by exists row.
Qed.

Lemma forM_omap_filter {A B} (g : A → result (option B)) (keep : A → bool)
    (l : list A) os :
  forM g l = Ok os →
  (∀ a o, a ∈ l → g a = Ok o → is_Some o ↔ keep a = true) →
  Forall2 (λ a b, g a = Ok (Some b))
          (filter (λ a, keep a = true) l) (omap id os).
Proof.
  revert os. induction l as [|a l IH]; intros os H Hkeep; simpl in H.
  - injection H as <-. constructor.
  - inv_ok H. injection H as <-.
    assert (Forall2 (λ a b, g a = Ok (Some b))
              (filter (λ a, keep a = true) l) (omap id v0)) as IH'.
    { apply IH; [done|]. intros a' o Ha'. apply Hkeep. by right. }
    pose proof (Hkeep a v (list_elem_of_here _ _) Hv) as Ha.
    rewrite filter_cons. destruct v as [b|]; simpl.
    + rewrite decide_True by (apply Ha; eauto). by constructor.
    + rewrite decide_False; [done|].
      intros Hk. apply Ha in Hk as [? ?]. done.
Qed.

(** The loop body on the whole tables, in terms of the joined rows. *)
Lemma departure_of_row_joined f p tr row o :
  departure_of_row (trips f) (routes f) p tr row = Ok o →
  (is_Some o ↔ joinable f row = true) ∧
  (∀ rec, o = Some rec →
     _create_departure_record row (trip_rows f row) (route_rows f row) p tr
       = Ok rec).
Proof.
  unfold departure_of_row, joinable. intros H. inv_ok H.
  assert (DF.cell_of row "departure_time" = v) as ->.
  { unfold DF.at_ in Hv. unfold DF.cell_of.
    destruct (row !! "departure_time"); [by injection Hv as -> | done]. }
  destruct (isna v) eqn:Hna.
  { injection H as <-. split; [|done]. split; [by intros [? ?]|done]. }
  inv_ok H. apply col_inv in Hv0 as [Htid ->].
  assert (DF.cell_of row "trip_id" = v1) as Hcell.
  { unfold DF.at_ in Hv1. unfold DF.cell_of.
    destruct (row !! "trip_id"); [by injection Hv1 as -> | done]. }
  rewrite eq_mask_fmap, select_fmap in H.
  assert (mkDataFrame (columns (trips f))
            (filter (λ r, eqb (DF.cell_of r "trip_id") v1 = true)
                    (rows (trips f))) = trip_rows f row) as Htrip.
  { unfold trip_rows. by rewrite Hcell. }
  rewrite Htrip in H.
  destruct (DF.empty (trip_rows f row)) eqn:Hemp.
  { injection H as <-. split; [|done]. split; [by intros [? ?]|done]. }
  inv_ok H. apply col_inv in Hv2 as [Hrid ->].
  rewrite eq_mask_fmap, select_fmap in H.
  assert (mkDataFrame (columns (routes f))
            (filter (λ r, eqb (DF.cell_of r "route_id") v0 = true)
                    (rows (routes f))) = route_rows f row) as Hroute.
  { unfold route_rows. unfold DF.first_value in Hv0.
    inv_ok Hv0. apply col_inv in Hv2 as [_ ->].
    destruct (rows (trip_rows f row)) as [|t ts]; [done|].
    simpl in Hv0. by injection Hv0 as <-. }
  rewrite Hroute in H.
  destruct (DF.empty (route_rows f row)) eqn:Hemp'.
  { injection H as <-. split; [|done]. split; [by intros [? ?]|done]. }
  inv_ok H. injection H as <-. split; [by split; eauto|].
  by intros rec [= <-].
Qed.

(** The records of a stop are, in table order, those of the rows that are
    kept for the stop and can be joined, each built from the row, the trips
    rows of its trip and the routes rows of that trip's route. *)
Lemma departures_of_stop_joined f p tr stop_id recs :
  departures_of_stop f p tr (Some stop_id) = Ok recs →
  Forall2 (λ row rec,
             _create_departure_record row (trip_rows f row) (route_rows f row)
               p tr = Ok rec)
    (filter (λ r, joinable f r = true)
       (filter (λ r, boards_at stop_id r = true) (rows (stop_times f))))
    recs.
Proof.
  intros H.
  assert ("stop_id" ∈ columns (stop_times f)) as Hstop.
  { unfold departures_of_stop, select_stop_times in H. inv_ok H.
    inv_ok Hv. by apply col_inv in Hv0 as [? _]. }
  rewrite isin_selections_direct in H.
  unfold departures_direct in H. inv_ok H.
  apply select_stop_times_Ok in Hv as ->.
  destruct (DF.empty _) eqn:Hemp.
  { injection H as <-. unfold DF.empty in Hemp. cbn [rows columns] in Hemp.
    destruct (filter _ (rows (stop_times f))) as [|r rs]; [constructor|].
    destruct (columns (stop_times f)); [|done]. by apply elem_of_nil in Hstop. }
  inv_ok H. injection H as <-. cbn [rows] in *.
  match goal with Hf : forM _ _ = Ok _ |- _ =>
    apply (forM_omap_filter _ (joinable f)) in Hf as HF end.
  - eapply Forall2_impl; [exact HF|]. intros row rec Hrow.
    by apply (departure_of_row_joined f p tr row (Some rec)).
  - intros row o _ Hrow. by apply (departure_of_row_joined f p tr row o).
Qed.

End extractor_props.

(** ** Aggregator: the departure lists of the platforms *)

Section aggregator_props.
Import SpecRecord.
Implicit Types (info : gmap string (list DepartureRecord)).

Lemma extend_fold_lookup k dss info info' :
  foldlM (extend_platform k) info dss = Ok info' →
  (∀ k', k' ≠ k → info' !! k' = info !! k') ∧
  (∀ l, info !! k = Some l → info' !! k = Some (l ++ mjoin dss)) ∧
  (info !! k = None → info' !! k = None).
Proof.
  revert info. induction dss as [|ds dss IH]; intros info H; simpl in H.
  - injection H as <-. split_and!; [done | | done].
    intros l ->. by rewrite app_nil_r.
  - inv_ok H. destruct (IH _ H) as (Hother & Hsame & Hnone).
    destruct ds as [|d ds]; simpl in Hv.
    + injection Hv as <-. done.
    + destruct (info !! k) as [l0|] eqn:Hk; [|done]. injection Hv as <-.
      split_and!.
      * intros k' Hne. rewrite Hother by done. by rewrite lookup_insert_ne.
      * intros l [= <-]. rewrite (Hsame (l0 ++ d :: ds)).
        -- by rewrite <-app_assoc.
        -- by rewrite lookup_insert_eq.
      * done.
Qed.

Lemma extend_fold_total k dss info :
  is_Some (info !! k) → ∃ info', foldlM (extend_platform k) info dss = Ok info'.
Proof.
  revert info. induction dss as [|ds dss IH]; intros info [l Hl]; simpl.
  - eauto.
  - destruct ds as [|d ds]; simpl.
    + apply IH. eauto.
    + rewrite Hl. simpl. apply IH. rewrite lookup_insert_eq. eauto.
Qed.

(** The body of the platform loop, without the test on [provider_stops]. *)
Lemma platform_step_unfold provider a info k cfgs :
  platform_step provider a info (k, cfgs) =
    (dss ← forM (departures_of_stop (feed a) provider (translations a))
               (provider_stops provider cfgs);
     foldlM (extend_platform k) info dss).
Proof.
  unfold platform_step, _process_stop_departures.
  by destruct (provider_stops provider cfgs).
Qed.

Lemma platform_step_lookup provider a info k cfgs info' :
  platform_step provider a info (k, cfgs) = Ok info' →
  ∃ dss,
    forM (departures_of_stop (feed a) provider (translations a))
         (provider_stops provider cfgs) = Ok dss ∧
    (∀ k', k' ≠ k → info' !! k' = info !! k') ∧
    (∀ l, info !! k = Some l → info' !! k = Some (l ++ mjoin dss)) ∧
    (info !! k = None → info' !! k = None).
Proof.
  rewrite platform_step_unfold. intros H. inv_ok H.
  exists v. split; [done|]. by apply extend_fold_lookup.
Qed.

Lemma platforms_fold_lookup provider a cfg info info' :
  foldlM (platform_step provider a) info cfg = Ok info' →
  NoDup cfg.*1 →
  (∀ k, k ∉ cfg.*1 → info' !! k = info !! k) ∧
  (∀ k cfgs, (k, cfgs) ∈ cfg →
     ∃ dss,
       forM (departures_of_stop (feed a) provider (translations a))
            (provider_stops provider cfgs) = Ok dss ∧
       (∀ l, info !! k = Some l → info' !! k = Some (l ++ mjoin dss)) ∧
       (info !! k = None → info' !! k = None)).
Proof.
  revert info. induction cfg as [|[k0 c0] cfg IH]; intros info H Hnd; simpl in H.
  - injection H as <-. split; [done|]. by intros k cfgs ?%elem_of_nil.
  - inv_ok H. apply NoDup_cons in Hnd as [Hk0 Hnd].
    destruct (IH _ H Hnd) as [Hout Hin].
    apply platform_step_lookup in Hv as (dss0 & Hdss0 & Hother & Hsame & Hnone).
    split.
    + intros k Hk. apply not_elem_of_cons in Hk as [Hne Hk].
      rewrite Hout by done. by apply Hother.
    + intros k cfgs [[= -> ->]|Hkc]%elem_of_cons.
      * exists dss0. rewrite Hout by done. done.
      * destruct (Hin _ _ Hkc) as (dss & Hdss & Hs & Hn).
        assert (k ≠ k0) as Hne.
        { intros ->. apply Hk0. apply list_elem_of_fmap. by exists (k0, cfgs). }
        exists dss. rewrite <-(Hother k Hne). done.
Qed.

(** The departure lists after the providers [ps]: to what a platform had,
    each provider, in order, has appended the records of its stops, in
    order. *)
Lemma providers_fold_lookup self ps info cal info' cal' :
  foldlM (provider_step self) (info, cal) ps = Ok (info', cal') →
  NoDup (platform_config self).*1 →
  ∀ k cfgs, (k, cfgs) ∈ platform_config self →
    ∃ per : list (list (list DepartureRecord)),
      Forall2 (λ p dss, ∃ a, gtfs_files self !! p = Some a ∧
                 forM (departures_of_stop (feed a) p (translations a))
                      (provider_stops p cfgs) = Ok dss) ps per ∧
      (∀ l, info !! k = Some l → info' !! k = Some (l ++ mjoin (mjoin <$> per))).
Proof.
  intros H Hnd k cfgs Hk. revert info cal H.
  induction ps as [|p ps IH]; intros info cal H; simpl in H.
  - injection H as <- <-. exists []. split; [constructor|].
    intros l ->. by rewrite app_nil_r.
  - inv_ok H. destruct v as [info1 cal1]. simpl in Hv.
    destruct (gtfs_files self !! p) as [a|] eqn:Ha; [|done].
    inv_ok Hv. injection Hv as <- <-.
    destruct (IH _ _ H) as (per & HF & Hper).
    destruct (platforms_fold_lookup _ _ _ _ _ Hv0 Hnd) as [_ Hin].
    destruct (Hin _ _ Hk) as (dss & Hdss & Hsame & _).
    exists (dss :: per). split.
    + constructor; [eauto | done].
    + intros l Hl. rewrite (Hper _ (Hsame _ Hl)).
      simpl. by rewrite app_assoc.
Qed.

Lemma initial_departure_info_lookup
    (cfg : list (string * list (string * option string))) k cfgs :
  (k, cfgs) ∈ cfg →
  (list_to_map ((λ e, (e.1, [])) <$> cfg) : gmap string (list DepartureRecord))
    !! k = Some [].
Proof.
  induction cfg as [|[k0 c0] cfg IH]; [by intros ?%elem_of_nil|].
  intros Hin. simpl. destruct (decide (k0 = k)) as [->|Hne].
  - by rewrite lookup_insert_eq.
  - rewrite lookup_insert_ne by done. apply IH.
    apply elem_of_cons in Hin as [[= -> ->]|Hin]; done.
Qed.

(** The comprehension over the pairs of a platform keeps the stops of the
    provider, in configured order. *)
Lemma provider_stops_spec p cfgs : provider_stops p cfgs = stops_of p cfgs.
Proof.
  unfold provider_stops. induction cfgs as [|[q stop] cfgs IH]; [done|].
  rewrite filter_cons. cbn [fst stops_of].
  destruct (String.eqb_spec q p) as [->|Hne].
  - rewrite decide_True by done. cbn [fmap list_fmap snd]. by rewrite <-IH.
  - by rewrite decide_False.
Qed.

(** C7.  The final list of a platform is the concatenation, over the
    providers in configured order, of what the extractor returns on the
    feed of the provider for the stops of the platform's (provider, stop)
    pairs that name this provider, taken in configured order: one list per
    stop, appended in order.  The order is that of the configuration, the
    departure times play no part. *)
Theorem platform_departures_in_configuration_order self out k cfgs :
  NoDup (platform_config self).*1 →
  process_gtfs_data self = Ok out →
  (k, cfgs) ∈ platform_config self →
  ∃ per : list (list (list DepartureRecord)),
    Forall2 (λ p dss, ∃ a, gtfs_files self !! p = Some a ∧
               _process_stop_departures (stops_of p cfgs)
                 (feed a) p (translations a) = Ok dss)
            (gtfs_providers self) per ∧
    out_departure_info out !! k = Some (mjoin (mjoin <$> per)).
Proof.
  intros Hnd Hrun Hk. unfold process_gtfs_data in Hrun.
  inv_ok Hrun. injection Hrun as <-. destruct v as [info cal]. simpl.
  destruct (providers_fold_lookup _ _ _ _ _ _ Hv Hnd _ _ Hk) as (per & HF & Hl).
  exists per. split.
  - eapply Forall2_impl; [exact HF|]. intros p dss (a & Ha & Hdss).
    exists a. split; [done|]. by rewrite <-provider_stops_spec.
  - by rewrite (Hl [] (initial_departure_info_lookup _ _ _ Hk)).
Qed.

End aggregator_props.

(** ** The fields of the records of the output *)

Section field_props.
Import SpecRecord.
Implicit Types (info : gmap string (list DepartureRecord)).

Lemma created_record_text row trip_row route_row p tr rec :
  _create_departure_record row trip_row route_row p tr = Ok rec →
  Forall is_text (textual_fields rec) ∧
  row !! "departure_time" = Some (departure_time rec).
Proof.
  intros H. apply create_departure_record_inv in H
    as (? & ? & ? & ? & ? & ? & ? & ? & dt &
        _ & _ & _ & _ & _ & _ & _ & _ & Hdt & ->).
  split; [|done]. unfold textual_fields, is_text. simpl.
  repeat constructor; eauto.
Qed.

Lemma unset_loaded_text o : unset o → loaded_text o ∧ nonempty_text o = None.
Proof. by destruct o as [[|[|a s]|z]|]. Qed.

Lemma missing_blank df c v :
  value_or_blank df c = Ok v → missing (column_value df c) →
  str (na_to_blank v) = "".
Proof.
  intros Hv%value_or_blank_column Hm.
  destruct (column_value df c) as [[|s|z]|]; by subst v.
Qed.

Lemma get_translation_untranslated tr t f i v :
  _get_translation tr t f "en" i = Ok v → untranslated tr t f i → v = Str "".
Proof.
  destruct tr as [tb|]; [|by intros [= <-]].
  intros H [Hemp|Hno].
  - unfold _get_translation in H. rewrite Hemp in H. by injection H as <-.
  - destruct (DF.empty tb) eqn:Hemp.
    + unfold _get_translation in H. rewrite Hemp in H. by injection H as <-.
    + by eapply get_translation_no_match.
Qed.

(** A head sign resolved from text columns is text. *)
Lemma resolve_headsign_text row trip_row h :
  resolve_headsign row trip_row = Ok h →
  loaded_text (row !! "stop_headsign") →
  loaded_text (column_value trip_row "trip_headsign") →
  h = Str (str h).
Proof.
  unfold resolve_headsign, DF.get. intros H Hown Htrip.
  assert (∀ w, value_or_blank trip_row "trip_headsign" = Ok w →
               na_to_blank w = Str (str (na_to_blank w))) as Hfall.
  { intros w Hw%value_or_blank_column.
    destruct (column_value trip_row "trip_headsign") as [[|s|z]|];
      by subst w. }
  destruct (row !! "stop_headsign") as [[|[|a s]|z]|]; cbn in H; try done;
    try (by injection H as <-);
    inv_ok H; injection H as <-; by apply Hfall.
Qed.

(** In the record of a row, the empty string stands for what is absent. *)
Lemma created_record_absent_is_empty row trip_row route_row p tr rec :
  _create_departure_record row trip_row route_row p tr = Ok rec →
  absent_is_empty row trip_row route_row tr rec.
Proof.
  intros H. apply create_departure_record_inv in H
    as (h & n & color & text_color & service & route_id & name_en & h_en & dt &
        Hh & Hn & Hcolor & Htext & Hservice & Hroute & Hname & Hhen & _ & ->).
  unfold absent_is_empty. cbn [headsign route_name route_color route_text_color
    service_id route_name_en headsign_en]. split_and!.
  - intros [Ho Ho']%unset_loaded_text [Ht Ht']%unset_loaded_text.
    rewrite (resolve_headsign_precedence _ _ _ Hh Ho Ht).
    unfold precedence. by rewrite Ho', Ht'.
  - intros [Ho Ho']%unset_loaded_text [Ht Ht']%unset_loaded_text.
    rewrite (resolve_route_name_precedence _ _ Hn Ho Ht).
    unfold precedence. by rewrite Ho', Ht'.
  - intros Hm. by rewrite (missing_blank _ _ _ Hcolor Hm).
  - intros Hm. by rewrite (missing_blank _ _ _ Htext Hm).
  - intros Hm. by rewrite (missing_blank _ _ _ Hservice Hm).
  - intros rid Hrid Hun. apply first_value_inv in Hroute.
    rewrite Hroute in Hrid. injection Hrid as <-.
    by rewrite (get_translation_untranslated _ _ _ _ _ Hname Hun).
  - intros Ho Ht Hun.
    rewrite <-(resolve_headsign_text _ _ _ Hh Ho Ht) in Hun.
    by rewrite (get_translation_untranslated _ _ _ _ _ Hhen Hun).
Qed.

Lemma departures_of_stop_ok f p tr s recs :
  departures_of_stop f p tr s = Ok recs → Forall (record_ok f tr) recs.
Proof.
  destruct s as [stop_id|]; [|by intros [= <-]].
  intros H. apply departures_of_stop_joined in H.
  eapply Forall2_Forall_r; [exact H|].
  apply Forall_forall. intros row Hrow rec Hrec.
  apply list_elem_of_filter in Hrow as [Hjoin Hrow].
  apply list_elem_of_filter in Hrow as [_ Hrow].
  pose proof (created_record_absent_is_empty _ _ _ _ _ _ Hrec) as Habs.
  apply created_record_text in Hrec as [Htext Hdt].
  split_and!; [done | |].
  - intros Hna. unfold joinable, DF.cell_of in Hjoin. rewrite Hdt, Hna in Hjoin.
    done.
  - by exists row.
Qed.

Lemma extend_fold_Forall (P : DepartureRecord → Prop) k dss info info' :
  foldlM (extend_platform k) info dss = Ok info' →
  Forall (Forall P) dss →
  map_Forall (λ _ l, Forall P l) info →
  map_Forall (λ _ l, Forall P l) info'.
Proof.
  intros H Hdss Hinfo k' l' Hl'.
  apply extend_fold_lookup in H as (Hother & Hsame & Hnone).
  destruct (decide (k' = k)) as [->|Hne].
  - destruct (info !! k) as [l|] eqn:Hk.
    + rewrite (Hsame l eq_refl) in Hl'. injection Hl' as <-.
      apply Forall_app. split; [by eapply Hinfo | by apply Forall_join].
    + rewrite (Hnone eq_refl) in Hl'. done.
  - rewrite (Hother k' Hne) in Hl'. by eapply Hinfo.
Qed.

Lemma platforms_fold_Forall (P : DepartureRecord → Prop) p a cfg info info' :
  (∀ s recs, departures_of_stop (feed a) p (translations a) s = Ok recs →
             Forall P recs) →
  foldlM (platform_step p a) info cfg = Ok info' →
  map_Forall (λ _ l, Forall P l) info →
  map_Forall (λ _ l, Forall P l) info'.
Proof.
  intros HP. revert info. induction cfg as [|[k c] cfg IH]; intros info H Hinfo.
  - simpl in H. by injection H as <-.
  - cbn [foldlM] in H. inv_ok H. eapply IH; [exact H|].
    rewrite platform_step_unfold in Hv. inv_ok Hv.
    eapply extend_fold_Forall; [exact Hv | | exact Hinfo].
    apply forM_Ok_Forall2 in Hv0.
    eapply Forall2_Forall_r; [exact Hv0|].
    apply Forall_forall. intros s _ recs. apply HP.
Qed.

Lemma providers_fold_Forall (P : DepartureRecord → Prop) self ps
    info cal info' cal' :
  (∀ p a s recs, p ∈ ps → gtfs_files self !! p = Some a →
     departures_of_stop (feed a) p (translations a) s = Ok recs →
     Forall P recs) →
  foldlM (provider_step self) (info, cal) ps = Ok (info', cal') →
  map_Forall (λ _ l, Forall P l) info →
  map_Forall (λ _ l, Forall P l) info'.
Proof.
  revert info cal. induction ps as [|p ps IH]; intros info cal HP H Hinfo.
  - simpl in H. by injection H as <- <-.
  - simpl in H. inv_ok H. destruct v as [info1 cal1]. simpl in Hv.
    destruct (gtfs_files self !! p) as [a|] eqn:Ha; [|done].
    inv_ok Hv. injection Hv as <- <-.
    eapply IH; [| exact H |].
    + intros p' a' s recs Hp'. apply HP. by right.
    + eapply platforms_fold_Forall; [| exact Hv0 | exact Hinfo].
      intros s recs. apply (HP p a); [by left | done].
Qed.

Lemma initial_departure_info_Forall (P : DepartureRecord → Prop)
    (cfg : list (string * list (string * option string))) :
  map_Forall (λ _ l, Forall P l)
    (list_to_map ((λ e, (e.1, [])) <$> cfg)
       : gmap string (list DepartureRecord)).
Proof.
  intros k l Hl. apply elem_of_list_to_map_2 in Hl.
  apply list_elem_of_fmap in Hl as (e & [= _ ->] & _). constructor.
Qed.

(** C8, as the code has it.  In every record of the final output, the eight
    fields route_name, route_name_en, route_color, route_text_color,
    headsign, headsign_en, gtfs_id and service_id are strings, never a null
    value, and the empty string stands for what is unknown or absent: the
    head sign and the route name are empty when neither of their sources has
    a value, the colours and the service are empty when the joined route or
    trip has none, a translated field is empty when no translation is to be
    found for its key.  departure_time is never a null value, and it is the
    cell of a stop_times row of a provider's feed, handed on as loaded (so
    it is a string only when the loaded cell is text). *)
Theorem output_text_fields_are_strings self out platform l rec :
  process_gtfs_data self = Ok out →
  out_departure_info out !! platform = Some l →
  rec ∈ l →
  Forall is_text (textual_fields rec) ∧
  departure_time rec ≠ NaN ∧
  ∃ p a row,
    p ∈ gtfs_providers self ∧ gtfs_files self !! p = Some a ∧
    row ∈ rows (stop_times (feed a)) ∧
    row !! "departure_time" = Some (departure_time rec) ∧
    absent_is_empty row (trip_rows (feed a) row) (route_rows (feed a) row)
                    (translations a) rec.
Proof.
  intros Hrun Hl Hrec. unfold process_gtfs_data in Hrun.
  inv_ok Hrun. injection Hrun as <-. destruct v as [info cal]. simpl in Hl.
  pose (P := λ rec, ∃ p a, p ∈ gtfs_providers self ∧
                    gtfs_files self !! p = Some a ∧
                    record_ok (feed a) (translations a) rec).
  assert (map_Forall (λ _ l, Forall P l) info) as Hall.
  { eapply providers_fold_Forall; [| exact Hv | apply initial_departure_info_Forall].
    intros p a s recs Hp Ha Hs. apply departures_of_stop_ok in Hs.
    eapply Forall_impl; [exact Hs|]. intros r Hr. exists p, a. done. }
  specialize (Hall _ _ Hl). rewrite Forall_forall in Hall.
  destruct (Hall _ Hrec)
    as (p & a & Hp & Ha & Htext & Hna & row & Hrow & Hdt & Habs).
  split_and!; [done | done |]. exists p, a, row. done.
Qed.

End field_props.

(** ** Rows without a pickup_type *)

Section pickup_props.
Import SpecRecord.

(** C3, where the code departs from it.  The selection reads
    [pickup_type.isna() | (pickup_type.astype(int) == 0)], and [astype(int)]
    refuses a column that holds a missing value: as soon as one row of
    stop_times has no pickup_type, the extraction raises for every list of
    stops that names a stop, instead of including that row. *)
Theorem null_pickup_type_aborts_extraction feed p tr stops stop_id row :
  row ∈ rows (stop_times feed) →
  DF.cell_of row "pickup_type" = NaN →
  Some stop_id ∈ stops →
  ∃ e, _process_stop_departures stops feed p tr = Raise e.
Proof.
  intros Hrow Hna Hstop. unfold _process_stop_departures.
  apply (forM_Raise _ _ (Some stop_id)); [done|].
  destruct (select_stop_times_null_pickup feed stop_id row Hrow Hna) as [e He].
  exists e. unfold departures_of_stop. by rewrite He.
Qed.

End pickup_props.

(** ** Stops that are the null placeholder *)

Section null_stop_props.
Implicit Types (info : gmap string (list DepartureRecord)).

Lemma foldlM_ext {A B} (f g : B → A → result B) (b : B) (l : list A) :
  (∀ b a, f b a = g b a) → foldlM f b l = foldlM g b l.
Proof.
  intros Hfg. revert b. induction l as [|a l IH]; intros b; simpl; [done|].
  rewrite Hfg. destruct (g b a); simpl; [apply IH | done].
Qed.

Lemma provider_stops_app p c1 c2 :
  provider_stops p (c1 ++ c2) = provider_stops p c1 ++ provider_stops p c2.
Proof. unfold provider_stops. by rewrite filter_app, fmap_app. Qed.

Lemma process_stop_departures_null l1 l2 f p tr :
  _process_stop_departures (l1 ++ None :: l2) f p tr =
    (a ← _process_stop_departures l1 f p tr;
     b ← _process_stop_departures l2 f p tr;
     Ok (a ++ [] :: b)).
Proof.
  unfold _process_stop_departures. rewrite forM_app. simpl.
  destruct (forM _ l1) as [a|e]; simpl; [|done].
  by destruct (forM _ l2).
Qed.

Lemma extend_fold_skip k info (a b : list (list DepartureRecord)) :
  foldlM (extend_platform k) info (a ++ [] :: b)
    = foldlM (extend_platform k) info (a ++ b).
Proof.
  rewrite !foldlM_app. by destruct (foldlM (extend_platform k) info a).
Qed.

Lemma provider_stops_cons p prov s c :
  provider_stops p ((prov, s) :: c) =
    if decide (prov = p) then s :: provider_stops p c else provider_stops p c.
Proof.
  unfold provider_stops. rewrite filter_cons. simpl. by case_decide.
Qed.

Lemma platform_step_null provider a info k c1 c2 prov :
  platform_step provider a info (k, c1 ++ (prov, None) :: c2)
    = platform_step provider a info (k, c1 ++ c2).
Proof.
  rewrite !platform_step_unfold, !provider_stops_app, provider_stops_cons.
  destruct (decide (prov = provider)) as [->|Hne]; [|done].
  pose proof (process_stop_departures_null
    (provider_stops provider c1) (provider_stops provider c2)
    (feed a) provider (translations a)) as Hnull.
  unfold _process_stop_departures in Hnull. rewrite Hnull, forM_app.
  destruct (forM _ (provider_stops provider c1)) as [x|e]; simpl; [|done].
  destruct (forM _ (provider_stops provider c2)) as [y|e]; simpl; [|done].
  apply extend_fold_skip.
Qed.

Lemma process_stop_departures_null_Ok l1 l2 f p tr r :
  _process_stop_departures (l1 ++ None :: l2) f p tr = Ok r →
  r !! length l1 = Some [] ∧
  _process_stop_departures (l1 ++ l2) f p tr = Ok (delete (length l1) r).
Proof.
  rewrite process_stop_departures_null. intros H. inv_ok H. injection H as <-.
  unfold _process_stop_departures in *.
  pose proof (forM_Ok_length _ _ _ Hv) as Hlen. rewrite <-Hlen. split.
  - by rewrite list_lookup_middle.
  - rewrite forM_app, Hv, Hv0. simpl. f_equal.
    rewrite delete_middle. done.
Qed.

(** C9.  In the list of stops handed to the extractor, a null placeholder
    yields an empty list at its position and raises nothing: the result is
    that of the stops before it, an empty list, and that of the stops after
    it; taking the placeholder out of the list takes this empty list out of
    the result and changes nothing else.  In the configuration of a platform,
    a null entry changes nothing in what the pipeline returns. *)
Theorem null_stop_contributes_nothing :
  (∀ l1 l2 f p tr,
     _process_stop_departures (l1 ++ None :: l2) f p tr =
       (a ← _process_stop_departures l1 f p tr;
        b ← _process_stop_departures l2 f p tr;
        Ok (a ++ [] :: b))) ∧
  (∀ l1 l2 f p tr r,
     _process_stop_departures (l1 ++ None :: l2) f p tr = Ok r →
     r !! length l1 = Some [] ∧
     _process_stop_departures (l1 ++ l2) f p tr = Ok (delete (length l1) r)) ∧
  (∀ providers files pre post k c1 c2 prov hour,
     process_gtfs_data
       (mkGTFSProcessor providers files
          (pre ++ (k, c1 ++ (prov, None) :: c2) :: post) hour)
     = process_gtfs_data
         (mkGTFSProcessor providers files
            (pre ++ (k, c1 ++ c2) :: post) hour)).
Proof.
  split_and!;
    [apply process_stop_departures_null | apply process_stop_departures_null_Ok |].
  intros providers files pre post k c1 c2 prov hour.
  unfold process_gtfs_data. simpl.
  rewrite !fmap_app. simpl.
  set (init := list_to_map _).
  rewrite (foldlM_ext (provider_step (mkGTFSProcessor providers files
              (pre ++ (k, c1 ++ (prov, None) :: c2) :: post) hour))
            (provider_step (mkGTFSProcessor providers files
              (pre ++ (k, c1 ++ c2) :: post) hour))); [done|].
  intros [info cal] p. unfold provider_step. simpl.
  destruct (files !! p) as [a|]; [|done].
  rewrite !foldlM_app. cbn [foldlM].
  destruct (foldlM (platform_step p a) info pre) as [info1|e];
    cbn [mbind result_bind]; [|done].
  by rewrite (platform_step_null p a info1 k c1 c2 prov).
Qed.

End null_stop_props.

(** ** The pipeline returns *)

Section returns_props.
Implicit Types (info : gmap string (list DepartureRecord)).

Lemma extend_fold_keys k dss info info' k' :
  foldlM (extend_platform k) info dss = Ok info' →
  is_Some (info !! k') → is_Some (info' !! k').
Proof.
  intros H [l Hl]. apply extend_fold_lookup in H as (Hother & Hsame & _).
  destruct (decide (k' = k)) as [->|Hne].
  - rewrite (Hsame _ Hl). eauto.
  - rewrite (Hother _ Hne), Hl. eauto.
Qed.

Lemma platforms_fold_total p a cfg info :
  (∀ k c, (k, c) ∈ cfg →
     is_Some (info !! k) ∧
     ∃ dss, _process_stop_departures (provider_stops p c)
              (feed a) p (translations a) = Ok dss) →
  ∃ info', foldlM (platform_step p a) info cfg = Ok info' ∧
           ∀ k, is_Some (info !! k) → is_Some (info' !! k).
Proof.
  revert info. induction cfg as [|[k c] cfg IH]; intros info Hcfg.
  - exists info. done.
  - cbn [foldlM]. rewrite platform_step_unfold.
    destruct (Hcfg k c) as [Hk [dss Hdss]]; [by left|].
    unfold _process_stop_departures in Hdss. rewrite Hdss.
    cbn [mbind result_bind].
    destruct (extend_fold_total k dss info Hk) as [info1 Hinfo1].
    rewrite Hinfo1. cbn [mbind result_bind].
    destruct (IH info1) as (info' & Hinfo' & Hkeys).
    { intros k' c' Hin. destruct (Hcfg k' c') as [Hk' Hd]; [by right|].
      split; [|done]. by eapply extend_fold_keys. }
    exists info'. split; [done|].
    intros k' Hk'. apply Hkeys. by eapply extend_fold_keys.
Qed.

(** The pipeline returns a result as soon as every provider has an archive,
    the extractor succeeds on the stops of every platform and the calendar
    resolver succeeds. *)
Lemma process_gtfs_data_returns self :
  (∀ p, p ∈ gtfs_providers self →
     ∃ a, gtfs_files self !! p = Some a ∧
       (∀ k c, (k, c) ∈ platform_config self →
          ∃ dss, _process_stop_departures (provider_stops p c)
                   (feed a) p (translations a) = Ok dss) ∧
       ∃ cal, Calendar._process_calendar_data (feed a) p = Ok cal) →
  ∃ out, process_gtfs_data self = Ok out.
Proof.
  intros Hall. unfold process_gtfs_data.
  set (init := list_to_map _ : gmap string (list DepartureRecord)).
  assert (∀ k c, (k, c) ∈ platform_config self → is_Some (init !! k)) as Hinit.
  { intros k c Hk. unfold init.
    rewrite (initial_departure_info_lookup _ _ _ Hk). eauto. }
  clearbody init.
  assert (∃ acc, foldlM (provider_step self) (init, ∅) (gtfs_providers self)
                 = Ok acc) as [acc ->]; [|by eexists].
  generalize (∅ : gmap string (list ServiceRef)). revert init Hinit Hall.
  induction (gtfs_providers self) as [|p ps IH]; intros info Hinfo Hall cal.
  - by eexists.
  - cbn [foldlM]. destruct (Hall p) as (a & Ha & Hp & g & Hg); [by left|].
    destruct (platforms_fold_total p a (platform_config self) info)
      as (info1 & Hinfo1 & Hkeys).
    { intros k c Hk. split; [by apply (Hinfo k c) | by apply (Hp k c)]. }
    assert (provider_step self (info, cal) p
            = Ok (info1, extend_calendar cal g)) as ->.
    { unfold provider_step. rewrite Ha, Hinfo1. cbn [mbind result_bind].
      by rewrite Hg. }
    cbn [mbind result_bind]. apply IH.
    + intros k c Hk. apply Hkeys. by apply (Hinfo k c).
    + intros p' Hp'. apply Hall. by right.
Qed.

End returns_props.

(** ** The examples of the specification, run through the theorems *)

Section worked_examples.
Import Calendar SpecCalendar SpecRecord Examples Samples.

(** Service "WD" (Monday to Friday, 2025-01-01 to 2025-01-07) next to a row
    whose range is backwards, and Monday 2025-01-06 taken off in
    calendar_dates: the resolver returns, the last word on each day is that
    of calendar_dates where it speaks and that of the flagged days of the
    first row elsewhere, and the second row adds nothing. *)
Lemma calendar_row_adds_exactly_flagged_days_witness :
  ∃ cal,
    _process_calendar_data feed_monday_off "A" = Ok cal ∧
    (∀ s k,
       mkServiceRef "A" s ∈ default [] (cal !! k) ↔
         match last_exception (table_rows (calendar_dates feed_monday_off)) s k
         with
         | Some r => exception_type r = 1
         | None =>
             ∃ row d, row ∈ [weekdays; backwards] ∧ cal_service_id row = s ∧
                      start_date row ≤ d ≤ end_date row ∧
                      weekday_flag row (weekday d) = true ∧ _date_to_str d = k
         end) ∧
    (∀ s d,
       364878 ≤ d →
       last_exception (table_rows (calendar_dates feed_monday_off)) s
                      (_date_to_str d) = None →
       mkServiceRef "A" s ∈ default [] (cal !! _date_to_str d) ↔
         ∃ row, row ∈ [weekdays; backwards] ∧ cal_service_id row = s ∧
                start_date row ≤ d ≤ end_date row ∧
                weekday_flag row (weekday d) = true) ∧
    _process_calendar_data
      (mkFeed (Some (filter (λ row, start_date row ≤ end_date row)
                            [weekdays; backwards]))
              (calendar_dates feed_monday_off) (stop_times feed_monday_off)
              (trips feed_monday_off) (routes feed_monday_off)) "A" = Ok cal.
Proof.
  apply (calendar_row_adds_exactly_flagged_days feed_monday_off "A"
           [weekdays; backwards]).
  - reflexivity.
  - repeat constructor.
Defined.

(** C1 as stated fails.  Monday 2025-01-06 is covered by the calendar row
    of "WD" with a true flag, yet "WD" is not in the resolved set of that
    day: a calendar_dates row has taken it off.  And a range that is
    backwards is an error when its days lie beyond those a timestamp can
    hold. *)
Lemma covered_day_taken_off_counterexample :
  (∃ cal row d,
     _process_calendar_data feed_monday_off "A" = Ok cal ∧
     row ∈ table_rows (calendar feed_monday_off) ∧
     start_date row ≤ d ≤ end_date row ∧
     weekday_flag row (weekday d) = true ∧
     mkServiceRef "A" (cal_service_id row)
       ∉ default [] (cal !! _date_to_str d)) ∧
  (calendar feed_far_backwards = Some [far_backwards] ∧
   end_date far_backwards < start_date far_backwards ∧
   _process_calendar_data feed_far_backwards "A" = Raise OutOfBoundsDatetime).
Proof.
  split.
  - eexists _, weekdays, 739257. split_and!.
    + reflexivity.
    + apply list_elem_of_here.
    + simpl. lia.
    + simpl. lia.
    + reflexivity.
    + vm_compute. intros H. inversion H.
  - split_and!; [reflexivity | simpl; lia | reflexivity].
Qed.

(** What the resolver returns on these two rows. *)
Lemma feed_two_rows_calendar :
  _process_calendar_data feed_two_rows "A" = Ok weekdays_calendar.
Proof. vm_compute. reflexivity. Qed.

(** Service "WD" is listed on Monday 2025-01-06; one more calendar_dates row
    of exception_type 2 for that day takes it off the list. *)
Lemma calendar_dates_row_adds_or_removes_witness :
  ∃ after,
    _process_calendar_data
      (mkFeed (Some [weekdays]) (Some ([] ++ [monday_off]))
              no_table no_table no_table) "A" = Ok after ∧
    (exception_type monday_off = 1 →
       ∀ k' e, e ∈ default [] (after !! k') ↔
                 e ∈ default [] (weekdays_calendar !! k') ∨
                 (k' = _date_to_str (cd_date monday_off) ∧
                  e = mkServiceRef "A" (cd_service_id monday_off))) ∧
    (exception_type monday_off = 2 →
       (∀ k' e, e ∈ default [] (after !! k') ↔
                  e ∈ default [] (weekdays_calendar !! k') ∧
                  ¬ (k' = _date_to_str (cd_date monday_off) ∧
                     e = mkServiceRef "A" (cd_service_id monday_off))) ∧
       (mkServiceRef "A" (cd_service_id monday_off)
          ∉ default [] (weekdays_calendar !! _date_to_str (cd_date monday_off)) →
          ∀ k', default [] (after !! k') = default [] (weekdays_calendar !! k'))) ∧
    (exception_type monday_off ≠ 1 → exception_type monday_off ≠ 2 →
     after = weekdays_calendar).
Proof.
  apply (calendar_dates_row_adds_or_removes (Some [weekdays]) [] monday_off
           no_table no_table no_table "A" weekdays_calendar).
  vm_compute. reflexivity.
Defined.

(** On that feed, "WD" is listed on 2025-01-06 before the row and not
    after it. *)
Lemma monday_off_removes :
  mkServiceRef "A" "WD" ∈ default [] (weekdays_calendar !! "2025-01-06") ∧
  ∃ after,
    _process_calendar_data
      (mkFeed (Some [weekdays]) (Some [monday_off])
              no_table no_table no_table) "A" = Ok after ∧
    after !! "2025-01-06" = Some [].
Proof.
  split; [apply list_elem_of_here|]. eexists. split; reflexivity.
Qed.

(** The failing input of C3: the row at "25:10:00" without a pickup_type. *)
Lemma null_pickup_type_aborts_extraction_witness :
  ∃ e, _process_stop_departures [Some "S1"] feed_null_pickup "A" None = Raise e.
Proof.
  apply (null_pickup_type_aborts_extraction
           feed_null_pickup "A" None [Some "S1"] "S1" late_row).
  - apply list_elem_of_here.
  - reflexivity.
  - apply list_elem_of_here.
Defined.

Lemma null_pickup_type_raises :
  _process_stop_departures [Some "S1"] feed_null_pickup "A" None
    = Raise IntCastingNaNError ∧
  process_gtfs_data
    (mkGTFSProcessor ["A"] {[ "A" := mkArchive feed_null_pickup None ]}
       [("1", [("A", Some "S1")])] 3)
    = Raise IntCastingNaNError.
Proof. split; reflexivity. Qed.

(** A head sign of the row's own wins over that of the trip, and a short
    name over the long name ("Express", "12"); with no head sign in
    stop_times the record says "City Hall", that of the trip, and with no
    short name it carries the long name; with neither head sign, the empty
    string. *)
Lemma record_headsign_and_route_name_precedence_witness :
  (headsign express_record = Str "Express" ∧
   route_name express_record = Str "12") ∧
  (headsign city_hall_record = Str "City Hall" ∧
   route_name city_hall_record = Str "Loop Line") ∧
  headsign early_record = Str "".
Proof.
  destruct (record_headsign_and_route_name_precedence
              express_row trip_T1 numbered_routes "A" (Some bus_translations)
              express_record eq_refl) as [Hh1 Hn1].
  destruct (record_headsign_and_route_name_precedence
              (stop_time "T1" "S1" (Int 90600) (Int 0)) trip_T1 bus_routes
              "A" (Some bus_translations) city_hall_record eq_refl)
    as [Hh2 Hn2].
  destruct (record_headsign_and_route_name_precedence
              (stop_time "T2" "S2" (Int 600) (Int 0)) trip_T2 bus_routes
              "A" (Some bus_translations) early_record eq_refl) as [Hh3 _].
  split_and!; [apply Hh1 | apply Hn1 | apply Hh2 | apply Hn2 | apply Hh3];
    exact I.
Defined.

Lemma record_translations_keyed_by_route_id_and_headsign_witness :
  ∃ route_id h name_en h_en,
    DF.first_value trip_T1 "route_id" = Ok route_id ∧
    _get_translation (Some bus_translations)
      "routes" "route_long_name" "en" route_id = Ok name_en ∧
    route_name_en city_hall_record = Str (str name_en) ∧
    resolve_headsign (stop_time "T1" "S1" (Int 90600) (Int 0)) trip_T1 = Ok h ∧
    headsign city_hall_record = Str (str h) ∧
    _get_translation (Some bus_translations)
      "stop_times" "stop_headsign" "en" h = Ok h_en ∧
    headsign_en city_hall_record = Str (str h_en).
Proof.
  apply (record_translations_keyed_by_route_id_and_headsign
           (stop_time "T1" "S1" (Int 90600) (Int 0)) trip_T1 bus_routes "A").
  reflexivity.
Defined.

(** A route is found by its record_id; a head sign, which no record_id
    matches, by its field_value; an empty table answers the empty string. *)
Lemma get_translation_by_record_id_then_field_value_witness :
  _get_translation (Some no_table) "routes" "route_long_name" "en" (Str "R1")
    = Ok (Str "") ∧
  _get_translation (Some bus_translations)
      "routes" "route_long_name" "en" (Str "R1")
    = Spec.lookup bus_translations "routes" "route_long_name" "en" (Str "R1") ∧
  _get_translation (Some bus_translations)
      "stop_times" "stop_headsign" "en" (Str "City Hall")
    = Spec.lookup bus_translations
        "stop_times" "stop_headsign" "en" (Str "City Hall").
Proof.
  destruct get_translation_by_record_id_then_field_value as (_ & Hempty & Hfull).
  split_and!.
  - apply Hempty. reflexivity.
  - apply Hfull; [reflexivity | | | | | ]; try (left; by eexists);
      simpl; set_solver.
  - apply Hfull; [reflexivity | | | | | right]; simpl; set_solver.
Defined.

(** The configuration {"1": [["A","S1"], ["B", null]], "2": [["A","S2"]]}:
    platform "1" receives the departures of (A, S1) and nothing else. *)
Lemma bus_processor_output : process_gtfs_data bus_processor = Ok bus_output.
Proof. vm_compute. reflexivity. Qed.

(** Two providers, B before A, and a platform whose pairs name A, B, A: the
    list of the platform starts with the departure of B and goes on with
    those of the two stops of A, in configured order, the earlier departure
    last. *)
Lemma two_provider_processor_output :
  process_gtfs_data two_provider_processor = Ok two_provider_output.
Proof. vm_compute. reflexivity. Qed.

Lemma platform_departures_in_configuration_order_witness :
  ∃ per : list (list (list DepartureRecord)),
    Forall2 (λ p dss, ∃ a, gtfs_files two_provider_processor !! p = Some a ∧
               _process_stop_departures
                 (stops_of p [("A", Some "S1"); ("B", Some "S3"); ("A", Some "S2")])
                 (feed a) p (translations a) = Ok dss)
            ["B"; "A"] per ∧
    out_departure_info two_provider_output !! "1"
      = Some (mjoin (mjoin <$> per)).
Proof.
  apply (platform_departures_in_configuration_order
           two_provider_processor two_provider_output).
  - apply (bool_decide_unpack _). vm_compute. reflexivity.
  - vm_compute. reflexivity.
  - apply list_elem_of_here.
Defined.

(** The record of trip T2 at stop S2: no head sign of its own, none on the
    trip, no colours. *)
Lemma output_text_fields_are_strings_witness :
  Forall is_text (textual_fields early_record) ∧
  departure_time early_record ≠ NaN ∧
  ∃ p a row,
    p ∈ gtfs_providers bus_processor ∧
    gtfs_files bus_processor !! p = Some a ∧
    row ∈ rows (stop_times (feed a)) ∧
    row !! "departure_time" = Some (departure_time early_record) ∧
    absent_is_empty row (trip_rows (feed a) row) (route_rows (feed a) row)
                    (translations a) early_record.
Proof.
  apply (output_text_fields_are_strings
           bus_processor bus_output "2" [early_record]).
  - vm_compute. reflexivity.
  - vm_compute. reflexivity.
  - apply list_elem_of_here.
Defined.

(** What the theorem leaves open: a row of the translation table that is
    matched and has no translation.  The lookup hands the missing value on
    (it has no test like those of the other fields), and the record carries
    the text "nan". *)
Lemma missing_translation_cell_gives_nan :
  _get_translation (Some translations_missing_cell)
    "routes" "route_long_name" "en" (Str "R1") = Ok NaN ∧
  ∃ rec,
    _create_departure_record (stop_time "T1" "S1" (Int 90600) (Int 0))
      trip_T1 bus_routes "A" (Some translations_missing_cell) = Ok rec ∧
    route_name_en rec = Str "nan".
Proof. split; [reflexivity|]. eexists. split; reflexivity. Qed.

(** C8 as stated fails: the departure time of a record of the output is the
    second count of the loaded stop_times cell, not a string. *)
Lemma departure_time_not_a_string_counterexample :
  ∃ out l rec,
    process_gtfs_data bus_processor = Ok out ∧
    out_departure_info out !! "1" = Some l ∧
    rec ∈ l ∧
    departure_time rec = Int 90600 ∧
    ¬ is_text (departure_time rec).
Proof.
  exists bus_output, [city_hall_record], city_hall_record. split_and!.
  - vm_compute. reflexivity.
  - vm_compute. reflexivity.
  - apply list_elem_of_here.
  - reflexivity.
  - intros [s Hs]. discriminate Hs.
Qed.

(** The removal of a service that never ran leaves 2025-02-18 in the
    calendar, with an empty list. *)
Lemma removal_materialises_date_witness :
  ∃ l,
    out_calendar
      {| out_departure_info := {[ "1" := [] ]};
         out_calendar := {[ "2025-02-18" := [] ]};
         out_gtfs_id := ["A"];
         out_date_change_hour := 3 |}
      !! _date_to_str (cd_date holiday_off) = Some l ∧
    (∀ e, e ∈ l ↔
       ∃ p' a' acc, p' ∈ gtfs_providers (processor_of feed_removal_only) ∧
         gtfs_files (processor_of feed_removal_only) !! p' = Some a' ∧
         resolve (feed a') p' = Ok acc ∧
         (sr_gtfs_id e, sr_service_id e)
           ∈ at_key acc (_date_to_str (cd_date holiday_off))) ∧
    (l = [] ↔
       ∀ p' a' acc, p' ∈ gtfs_providers (processor_of feed_removal_only) →
         gtfs_files (processor_of feed_removal_only) !! p' = Some a' →
         resolve (feed a') p' = Ok acc →
         at_key acc (_date_to_str (cd_date holiday_off)) = ∅).
Proof.
  apply (removal_materialises_date (processor_of feed_removal_only) _
           "A" (mkArchive feed_removal_only None) holiday_off).
  - vm_compute. reflexivity.
  - apply list_elem_of_here.
  - vm_compute. reflexivity.
  - apply list_elem_of_here.
  - reflexivity.
Defined.

(** The configuration of platform "1" with its null entry, and without. *)
Lemma null_stop_contributes_nothing_witness :
  [[city_hall_record]; []] !! length [Some "S1"] = Some [] ∧
  _process_stop_departures ([Some "S1"] ++ []) bus_feed "A" (Some bus_translations)
    = Ok (delete (length [Some "S1"]) [[city_hall_record]; []]).
Proof.
  destruct null_stop_contributes_nothing as (_ & Hnull & _).
  apply (Hnull [Some "S1"] [] bus_feed "A" (Some bus_translations)).
  vm_compute. reflexivity.
Defined.

End worked_examples.

(** * Further properties of the code *)

(** ** [_date_to_str]: the keys of the calendar *)

Section date_key_props.

Lemma length_append_string (a b : string) :
  String.length (a +:+ b) = (String.length a + String.length b)%nat.
Proof. induction a as [|c a IH]; simpl; [done | by rewrite IH]. Qed.

Lemma length_zeros k :
  String.length (String.concat "" (replicate k "0")) = k.
Proof.
  induction k as [|k IH]; [done|].
  destruct k; [done|]. change (replicate (S (S k)) "0")
    with ("0" :: replicate (S k) "0").
  cbn [String.concat]. cbn [replicate] in IH. cbn [replicate].
  rewrite !length_append_string, IH. done.
Qed.

Lemma length_pretty_N_go (k : nat) (x : N) s :
  (x < 10 ^ N.of_nat k)%N →
  (String.length (pretty_N_go x s) ≤ String.length s + k)%nat.
Proof.
  revert x s. induction k as [|k IH]; intros x s Hx.
  - assert (x = 0%N) as -> by (simpl in Hx; lia). rewrite pretty_N_go_0. lia.
  - destruct (decide (x = 0)%N) as [->|Hne]; [rewrite pretty_N_go_0; lia|].
    rewrite pretty_N_go_step by lia.
    etrans; [apply IH|simpl; lia].
    rewrite Nat2N.inj_succ, N.pow_succ_r' in Hx.
    apply N.Div0.div_lt_upper_bound. lia.
Qed.

Lemma length_pretty (k : nat) (n : Z) :
  0 ≤ n < 10 ^ Z.of_nat k → (0 < k)%nat →
  (String.length (pretty n) ≤ k)%nat.
Proof.
  intros [Hn Hlt] Hk. destruct n as [|q|q]; [simpl; lia| |lia].
  unfold pretty, pretty_Z, pretty, pretty_positive, pretty, pretty_N.
  rewrite decide_False by done.
  etrans; [apply (length_pretty_N_go k)|simpl; lia].
  apply N2Z.inj_lt. rewrite N2Z.inj_pow, nat_N_Z. simpl. lia.
Qed.

Lemma length_zfill (w : nat) (n : Z) :
  0 ≤ n < 10 ^ Z.of_nat w → (0 < w)%nat → String.length (zfill w n) = w.
Proof.
  intros Hn Hw. unfold zfill. rewrite length_append_string, length_zeros.
  pose proof (length_pretty w n Hn Hw). lia.
Qed.

(** X1.  Two different dates (from 1000-01-01 on, where [%Y] has its four
    digits on every platform) are never written alike: no two days share a
    key of the calendar. *)
Theorem date_strings_distinct d1 d2 :
  364878 ≤ d1 → 364878 ≤ d2 → d1 ≠ d2 → _date_to_str d1 ≠ _date_to_str d2.
Proof.
  intros H1 H2 Hne Heq. apply Hne. apply date_to_str_inj; [lia | lia | done].
Qed.

(** X2.  From 1000-01-01 to 9999-12-31 the string of a date has the ten
    characters of YYYY-MM-DD. *)
Theorem date_string_has_ten_characters d :
  364878 ≤ d ≤ 3652059 → String.length (_date_to_str d) = 10%nat.
Proof.
  intros Hd. unfold _date_to_str.
  destruct (ymd_spec d) as (y & m & day & Hymd & Hord & Hm & Hday & Hy).
  rewrite Hymd.
  assert (y ≤ 9999) as Hy'.
  { revert Hord. unfold ordinal. cbv zeta.
    repeat match goal with |- context [?a <? ?b] => destruct (Z.ltb_spec a b) end;
    repeat match goal with |- context [?a <=? ?b] => destruct (Z.leb_spec a b) end;
    Z.to_euclidean_division_equations; lia. }
  rewrite !length_append_string.
  rewrite (length_zfill 4), !(length_zfill 2); simpl; lia.
Qed.

End date_key_props.

(** ** [_process_calendar_data]: the calendar of one provider *)

Section resolver_props.
Import Calendar Inv.
Implicit Types (c : Acc) (k s p : string).

Lemma tagged_empty p : tagged p ∅.
Proof. intros k x. unfold at_key. rewrite lookup_empty. set_solver. Qed.

Lemma tagged_add p c k s : tagged p c → tagged p (add k (p, s) c).
Proof.
  unfold tagged. intros Hc k' x. rewrite at_key_add. case_decide; [|apply Hc].
  intros [?| ->%elem_of_singleton]%elem_of_union; [by apply (Hc k) | done].
Qed.

Lemma tagged_discard p c k s : tagged p c → tagged p (discard k (p, s) c).
Proof.
  unfold tagged. intros Hc k' x. rewrite at_key_discard.
  case_decide; [|apply Hc].
  intros [? _]%elem_of_difference. by apply (Hc k).
Qed.

Lemma tagged_resolve feed p acc : resolve feed p = Ok acc → tagged p acc.
Proof.
  rewrite resolve_unfold. intros H. inv_ok H. injection H as <-.
  assert (∀ row ds c, tagged p c → tagged p (foldl (day_step p row) c ds))
    as H0.
  { intros row. induction ds as [|d ds IHd]; intros c Hc; simpl; [done|].
    apply IHd. unfold day_step. destruct (runs_on row d); [|done].
    by apply tagged_add. }
  assert (∀ rs c c', tagged p c → foldlM (calendar_step p) c rs = Ok c' →
                     tagged p c') as H1.
  { induction rs as [|row rs IH]; intros c c' Hc Hf; cbn [foldlM] in Hf.
    - by injection Hf as <-.
    - apply bind_Ok in Hf as (c1 & Hstep & Hf). eapply IH; [|exact Hf].
      unfold calendar_step in Hstep.
      apply bind_Ok in Hstep as (ds & _ & Hstep). injection Hstep as <-.
      by apply H0. }
  assert (∀ rs c, tagged p c →
            tagged p (foldl (calendar_dates_step p) c rs)) as H2.
  { induction rs as [|row rs IH]; intros c Hc; simpl; [done|].
    apply IH. unfold calendar_dates_step.
    destruct (exception_type row =? 1); [by apply tagged_add|].
    destruct (exception_type row =? 2); [by apply tagged_discard | done]. }
  apply H2. eapply H1; [apply tagged_empty | exact Hv].
Qed.

(** X3.  In the calendar of a provider, the list of a date holds no entry
    twice, however many rows contributed it, and every entry carries the
    provider as its gtfs_id. *)
Theorem calendar_lists_are_sets feed p cal k l :
  _process_calendar_data feed p = Ok cal →
  cal !! k = Some l →
  NoDup l ∧ ∀ e, e ∈ l → sr_gtfs_id e = p.
Proof.
  intros Hcal%process_calendar_data_Ok Hl.
  destruct Hcal as (acc & Hacc & Hk). destruct (Hk k) as [Hlk _].
  rewrite Hl in Hlk.
  destruct (acc !! k) as [set|] eqn:Hset; [|done].
  injection Hlk as ->. split.
  - unfold to_entries. apply NoDup_fmap_2_strong; [|apply NoDup_elements].
    intros [a b] [a' b'] _ _ [= -> ->]. done.
  - intros e He. apply elem_of_to_entries in He.
    apply (tagged_resolve feed p acc Hacc k (sr_gtfs_id e, sr_service_id e)).
    unfold at_key. by rewrite Hset.
Qed.

(** X4.  Without a calendar_dates table, and with calendar ranges between
    days a timestamp can hold, the resolver returns; a service is listed
    under a date string exactly when one of its calendar rows covers a day
    written so whose weekday flag is true, and the keys of the calendar are
    the strings of the covered days with a true flag: no date carries an
    empty list. *)
Theorem calendar_only_entries feed p :
  table_exists (calendar_dates feed) = false →
  Forall (λ row, is_timestamp (start_date row) = true ∧
                 is_timestamp (end_date row) = true)
         (table_rows (calendar feed)) →
  ∃ cal,
    _process_calendar_data feed p = Ok cal ∧
    ∀ k,
      (∀ s, mkServiceRef p s ∈ default [] (cal !! k) ↔
         ∃ row d, row ∈ table_rows (calendar feed) ∧ cal_service_id row = s ∧
                  start_date row ≤ d ≤ end_date row ∧
                  weekday_flag row (weekday d) = true ∧ _date_to_str d = k) ∧
      (is_Some (cal !! k) ↔
         ∃ row d, row ∈ table_rows (calendar feed) ∧
                  start_date row ≤ d ≤ end_date row ∧
                  weekday_flag row (weekday d) = true ∧ _date_to_str d = k) ∧
      cal !! k ≠ Some [].
Proof.
  intros Hcd Hrs.
  destruct (calendar_rows_total p _ ∅ Hrs) as [c Hc].
  assert (resolve feed p = Ok c) as Hres.
  { rewrite resolve_unfold, Hc. cbn [mbind result_bind].
    by destruct (calendar_dates feed) as [[|]|]. }
  exists (to_entries <$> c). split; [by apply process_calendar_data_resolve|].
  intros k.
  assert (∀ s, mkServiceRef p s ∈ default [] ((to_entries <$> c) !! k) ↔
            ∃ row d, row ∈ table_rows (calendar feed) ∧ cal_service_id row = s ∧
                     start_date row ≤ d ≤ end_date row ∧
                     weekday_flag row (weekday d) = true ∧ _date_to_str d = k)
    as Hmem.
  { intros s.
    assert (default [] ((to_entries <$> c) !! k) = to_entries (at_key c k)) as ->.
    { rewrite lookup_fmap. unfold at_key. by destruct (c !! k). }
    rewrite elem_of_to_entries. cbn [sr_gtfs_id sr_service_id].
    rewrite (calendar_rows_lookup _ _ _ _ k (p, s) Hc).
    unfold at_key at 1. rewrite lookup_empty. cbn [default]. split.
    - intros [?%not_elem_of_empty|(row & d & ? & [= ->] & ?)]; [done|].
      by exists row, d.
    - intros (row & d & ? & <- & ?). right. by exists row, d. }
  assert (is_Some ((to_entries <$> c) !! k) ↔
            ∃ row d, row ∈ table_rows (calendar feed) ∧
                     start_date row ≤ d ≤ end_date row ∧
                     weekday_flag row (weekday d) = true ∧ _date_to_str d = k)
    as Hkey.
  { rewrite lookup_fmap, fmap_is_Some.
    rewrite (calendar_rows_keys _ _ _ _ k Hc), lookup_empty. split.
    - intros [[? [=]]|?]; done.
    - by right. }
  split_and!; [done | done |].
  intros Hnil.
  assert (is_Some ((to_entries <$> c) !! k)) as Hsome by (rewrite Hnil; eauto).
  apply Hkey in Hsome as (row & d & Hrow & Hr & Hf & Hs).
  assert (mkServiceRef p (cal_service_id row)
            ∈ default [] ((to_entries <$> c) !! k)) as Hin.
  { apply Hmem. by exists row, d. }
  rewrite Hnil in Hin. by apply elem_of_nil in Hin.
Qed.

(** X5.  The last calendar_dates row that adds or removes a service on a
    date decides: the service is listed on that date exactly when that row
    has exception_type 1, whatever the calendar table and the earlier rows
    say. *)
Theorem last_exception_decides feed p pre row post cal :
  calendar_dates feed = Some (pre ++ row :: post) →
  exception_type row = 1 ∨ exception_type row = 2 →
  Forall (λ r, ¬ (cd_service_id r = cd_service_id row ∧
                  _date_to_str (cd_date r) = _date_to_str (cd_date row) ∧
                  (exception_type r = 1 ∨ exception_type r = 2))) post →
  _process_calendar_data feed p = Ok cal →
  mkServiceRef p (cd_service_id row)
    ∈ default [] (cal !! _date_to_str (cd_date row)) ↔
  exception_type row = 1.
Proof.
  intros Hcd Htype Hpost Hcal.
  apply process_calendar_data_Ok in Hcal as (acc & Hacc & Hk).
  destruct (Hk (_date_to_str (cd_date row))) as [_ ->].
  rewrite elem_of_to_entries. cbn [sr_gtfs_id sr_service_id].
  rewrite resolve_unfold, Hcd in Hacc.
  change (table_rows (Some ?l)) with l in Hacc.
  inv_ok Hacc. injection Hacc as <-.
  rewrite foldl_app. cbn [foldl].
  rewrite calendar_dates_fold_other by done.
  unfold calendar_dates_step.
  destruct Htype as [H1|H2].
  - rewrite H1. simpl. rewrite at_key_add, decide_True by done.
    split; [done|]. intros _. apply elem_of_union. right.
    by apply elem_of_singleton.
  - rewrite H2. simpl. rewrite at_key_discard, decide_True by done.
    split; [|done]. intros [_ Hx]%elem_of_difference.
    exfalso. apply Hx. by apply elem_of_singleton.
Qed.

(** X6.  Rows of calendar_dates whose exception_type is neither 1 nor 2
    are ignored: the calendar is that of the feed without them. *)
Theorem other_exception_types_are_ignored cal cds st tr ro p :
  _process_calendar_data (mkFeed cal (Some cds) st tr ro) p =
  _process_calendar_data
    (mkFeed cal
       (Some (filter (λ r, exception_type r = 1 ∨ exception_type r = 2) cds))
       st tr ro) p.
Proof.
  assert (∀ rs c,
    foldl (calendar_dates_step p) c
      (filter (λ r, exception_type r = 1 ∨ exception_type r = 2) rs)
    = foldl (calendar_dates_step p) c rs) as Hfold.
  { induction rs as [|r rs IH]; intros c; [done|].
    rewrite filter_cons. destruct (decide _) as [Hr|Hr]; simpl; [apply IH|].
    rewrite IH. f_equal. unfold calendar_dates_step.
    destruct (Z.eqb_spec (exception_type r) 1); [tauto|].
    destruct (Z.eqb_spec (exception_type r) 2); [tauto|done]. }
  rewrite !process_calendar_data_unfold, !resolve_unfold.
  cbn [calendar calendar_dates]. change (table_rows (Some ?l)) with l.
  destruct (foldlM (calendar_step p) ∅ (table_rows cal)) as [c|e];
    cbn [mbind result_bind]; [|done].
  by rewrite Hfold.
Qed.

End resolver_props.

(** ** [_get_translation]: errors and irrelevant rows *)

Section lookup_props.

(** The lookup on a loaded table that has the columns it reads. *)
Lemma get_translation_lookup tr t f l i :
  DF.empty tr = false →
  "table_name" ∈ columns tr → "field_name" ∈ columns tr →
  "language" ∈ columns tr → "record_id" ∈ columns tr →
  is_Some (List.find (Spec.matches t f l "record_id" i) (rows tr))
    ∨ "field_value" ∈ columns tr →
  _get_translation (Some tr) t f l i = Spec.lookup tr t f l i.
Proof.
  intros Hne Ht Hf Hl Hr Hv. unfold _get_translation, Spec.lookup. rewrite Hne.
  rewrite (translation_mask_Ok tr t f l "record_id") by done.
  cbn [mbind result_bind].
  destruct (answer_of_selection tr (Spec.matches t f l "record_id" i) Hne)
    as [Hemp Hans].
  cbn zeta in Hemp, Hans. rewrite Hemp.
  destruct (List.find (Spec.matches t f l "record_id" i) (rows tr)) as [r|].
  - rewrite bool_decide_eq_false_2 by done. exact Hans.
  - rewrite bool_decide_eq_true_2 by done. destruct Hv as [[? [=]]|Hv].
    rewrite translation_mask_Ok by done. cbn [mbind result_bind].
    by apply answer_of_selection.
Qed.

Lemma translation_mask_KeyError tr t f l kc key c :
  c ∈ ["table_name"; "field_name"; "language"; kc] → c ∉ columns tr →
  ∃ k, translation_mask tr t f l kc key = Raise (KeyError k) ∧
       k ∉ columns tr.
Proof.
  intros Hc Hmiss. unfold translation_mask.
  destruct (DF.col tr "table_name") as [?|e] eqn:E1; cbn [mbind result_bind];
    [apply col_inv in E1 as [E1 _]
    |apply col_Raise_inv in E1 as [-> ?]; by eauto].
  destruct (DF.col tr "field_name") as [?|e] eqn:E2; cbn [mbind result_bind];
    [apply col_inv in E2 as [E2 _]
    |apply col_Raise_inv in E2 as [-> ?]; by eauto].
  destruct (DF.col tr "language") as [?|e] eqn:E3; cbn [mbind result_bind];
    [apply col_inv in E3 as [E3 _]
    |apply col_Raise_inv in E3 as [-> ?]; by eauto].
  destruct (DF.col tr kc) as [?|e] eqn:E4; cbn [mbind result_bind];
    [apply col_inv in E4 as [E4 _]
    |apply col_Raise_inv in E4 as [-> ?]; by eauto].
  exfalso. apply Hmiss.
  repeat (apply elem_of_cons in Hc as [->|Hc]; [done|]).
  by apply elem_of_nil in Hc.
Qed.

(** X7.  On a loaded, non-empty translation table the lookup raises a
    KeyError, and answers nothing, as soon as one of the columns table_name,
    field_name, language and record_id is missing; and when those are there
    but field_value is not, it raises KeyError('field_value') for every
    identifier that no record_id matches. *)
Theorem get_translation_key_errors tr t f l i :
  DF.empty tr = false →
  (∀ c, c ∈ ["table_name"; "field_name"; "language"; "record_id"] →
        c ∉ columns tr →
        ∃ k, _get_translation (Some tr) t f l i = Raise (KeyError k) ∧
             k ∉ columns tr) ∧
  ("table_name" ∈ columns tr → "field_name" ∈ columns tr →
   "language" ∈ columns tr → "record_id" ∈ columns tr →
   "field_value" ∉ columns tr →
   List.find (Spec.matches t f l "record_id" i) (rows tr) = None →
   _get_translation (Some tr) t f l i = Raise (KeyError "field_value")).
Proof.
  intros Hne. split.
  - intros c Hc Hmiss. unfold _get_translation. rewrite Hne.
    destruct (translation_mask_KeyError tr t f l "record_id" i c Hc Hmiss)
      as (k & -> & Hk). eauto.
  - intros Ht Hf Hl Hr Hv Hfind. unfold _get_translation. rewrite Hne.
    rewrite (translation_mask_Ok tr t f l "record_id") by done.
    cbn [mbind result_bind].
    destruct (answer_of_selection tr (Spec.matches t f l "record_id" i) Hne)
      as [Hemp _].
    cbn zeta in Hemp. rewrite Hemp, Hfind, bool_decide_eq_true_2 by done.
    unfold translation_mask.
    rewrite (col_Ok tr "table_name"), (col_Ok tr "field_name"),
      (col_Ok tr "language") by done.
    cbn [mbind result_bind]. unfold DF.col, DF.has_column.
    by rewrite bool_decide_eq_false_2.
Qed.

Lemma find_skip {A} (q : A → bool) (pre post : list A) (r : A) :
  q r = false → List.find q (pre ++ r :: post) = List.find q (pre ++ post).
Proof.
  intros Hr. induction pre as [|a pre IH]; simpl; [by rewrite Hr|].
  by destruct (q a).
Qed.

(** X8.  A row of the translation table for another table, field or
    language never changes an answer: the lookup is the same with the row
    taken out, wherever it stands. *)
Theorem get_translation_ignores_unrelated_rows cols pre post r t f l i :
  "table_name" ∈ cols → "field_name" ∈ cols → "language" ∈ cols →
  "record_id" ∈ cols → "field_value" ∈ cols →
  eqb (DF.cell_of r "table_name") (Str t) &&
  eqb (DF.cell_of r "field_name") (Str f) &&
  eqb (DF.cell_of r "language") (Str l) = false →
  _get_translation (Some (mkDataFrame cols (pre ++ r :: post))) t f l i
  = _get_translation (Some (mkDataFrame cols (pre ++ post))) t f l i.
Proof.
  intros Ht Hf Hl Hr Hv Hrow.
  assert (∀ kc key, Spec.matches t f l kc key r = false) as Hno.
  { intros kc key. unfold Spec.matches. by rewrite Hrow. }
  assert (DF.empty (mkDataFrame cols (pre ++ r :: post)) = false) as Hne.
  { unfold DF.empty. simpl. destruct cols; [by apply elem_of_nil in Ht|].
    by destruct pre. }
  rewrite get_translation_lookup by (simpl; auto).
  assert (_get_translation (Some (mkDataFrame cols (pre ++ post))) t f l i
          = Spec.lookup (mkDataFrame cols (pre ++ post)) t f l i) as ->.
  { destruct (DF.empty (mkDataFrame cols (pre ++ post))) eqn:Hemp.
    - unfold _get_translation. rewrite Hemp.
      assert (pre ++ post = []) as ->; [|done].
      unfold DF.empty in Hemp. simpl in Hemp.
      destruct (pre ++ post); [done|].
      destruct cols; [by apply elem_of_nil in Ht | done].
    - by rewrite get_translation_lookup by (simpl; auto). }
  unfold Spec.lookup. cbn [rows]. by rewrite !find_skip by done.
Qed.

(** X9.  On a loaded table that has its six columns, every row holding a
    translation cell, the lookup never raises: it answers the empty string
    or the translation cell of a row of the table. *)
Theorem get_translation_never_raises tr t f l i :
  "table_name" ∈ columns tr → "field_name" ∈ columns tr →
  "language" ∈ columns tr → "record_id" ∈ columns tr →
  "field_value" ∈ columns tr →
  Forall (λ r : Series, is_Some (r !! "translation")) (rows tr) →
  ∃ v, _get_translation (Some tr) t f l i = Ok v ∧
       (v = Str "" ∨ ∃ r, r ∈ rows tr ∧ r !! "translation" = Some v).
Proof.
  intros Ht Hf Hl Hr Hv Hwf.
  destruct (DF.empty tr) eqn:Hemp.
  { exists (Str ""). unfold _get_translation. rewrite Hemp. auto. }
  rewrite get_translation_lookup by auto. unfold Spec.lookup.
  assert (∀ q, match List.find q (rows tr) with
               | Some r => ∃ v, DF.at_ r "translation" = Ok v ∧
                                r ∈ rows tr ∧ r !! "translation" = Some v
               | None => True
               end) as Hfind.
  { intros q. destruct (List.find q (rows tr)) as [r|] eqn:Hq; [|done].
    apply find_some in Hq as [Hin _]. apply list_elem_of_In in Hin.
    rewrite Forall_forall in Hwf. destruct (Hwf r Hin) as [v Hv'].
    exists v. unfold DF.at_. by rewrite Hv'. }
  pose proof (Hfind (Spec.matches t f l "record_id" i)) as H1.
  destruct (List.find (Spec.matches t f l "record_id" i) (rows tr)) as [r1|].
  { destruct H1 as (v & Hat & Hin & Hcell).
    exists v. split; [done|]. right. by exists r1. }
  pose proof (Hfind (Spec.matches t f l "field_value" (Str (str i)))) as H2.
  destruct (List.find _ (rows tr)) as [r2|].
  { destruct H2 as (v & Hat & Hin & Hcell).
    exists v. split; [done|]. right. by exists r2. }
  exists (Str ""). auto.
Qed.

End lookup_props.

(** ** [_create_departure_record]: the other fields, and when it returns *)

Section record_more_props.
Import SpecRecord Inv.

Lemma value_or_blank_pass_through df c v :
  value_or_blank df c = Ok v →
  loaded_text (column_value df c) →
  str (na_to_blank v) = pass_through df c.
Proof.
  intros Hv%value_or_blank_column Htext. unfold pass_through.
  destruct (column_value df c) as [[|s|z]|]; by subst v.
Qed.

(** X10.  In a record, route_color, route_text_color and service_id are
    the texts of the joined route and trip, handed on as they are, and the
    empty string when the column is not there or the value is missing.  (The
    values are those of text columns: text or missing.) *)
Theorem record_colors_service_and_provider row trip_row route_row p tr rec :
  _create_departure_record row trip_row route_row p tr = Ok rec →
  (loaded_text (column_value route_row "route_color") →
   route_color rec = Str (pass_through route_row "route_color")) ∧
  (loaded_text (column_value route_row "route_text_color") →
   route_text_color rec = Str (pass_through route_row "route_text_color")) ∧
  (loaded_text (column_value trip_row "service_id") →
   service_id rec = Str (pass_through trip_row "service_id")).
Proof.
  intros H. apply create_departure_record_inv in H
    as (? & ? & color & text & service & ? & ? & ? & ? &
        _ & _ & Hc & Ht & Hs & _ & _ & _ & _ & ->).
  simpl. split_and!; intros Htext; f_equal;
    by apply value_or_blank_pass_through.
Qed.

Lemma first_value_first_row df c :
  DF.first_value (first_row df) c = DF.first_value df c.
Proof.
  unfold DF.first_value, DF.col, DF.has_column, first_row. simpl.
  case_bool_decide; [|done]. simpl. by destruct (rows df).
Qed.

Lemma value_or_blank_first_row df c :
  value_or_blank (first_row df) c = value_or_blank df c.
Proof.
  unfold value_or_blank. rewrite first_value_first_row. done.
Qed.

(** X11.  A record depends on the joined trip and route only through their
    columns and their first row: when several rows share the identifier, the
    first in table order is the one used. *)
Theorem record_uses_first_matching_rows row trip_row route_row p tr :
  _create_departure_record row trip_row route_row p tr
  = _create_departure_record row (first_row trip_row) (first_row route_row) p tr.
Proof.
  unfold _create_departure_record, resolve_headsign, resolve_route_name.
  by rewrite !value_or_blank_first_row, !first_value_first_row.
Qed.

Lemma value_or_blank_total df c :
  rows df ≠ [] → ∃ v, value_or_blank df c = Ok v.
Proof.
  intros Hne. unfold value_or_blank, DF.first_value, DF.col.
  destruct (DF.has_column df c); [|by eexists]. simpl.
  destruct (rows df); [done|]. by eexists.
Qed.

Lemma get_translation_readable tr t f l i :
  readable tr → ∃ v, _get_translation tr t f l i = Ok v.
Proof.
  destruct tr as [tb|]; [|by eexists]. intros [Hemp|[Hcols Hrows]].
  { unfold _get_translation. rewrite Hemp. by eexists. }
  destruct (DF.empty tb) eqn:Hemp.
  { unfold _get_translation. rewrite Hemp. by eexists. }
  rewrite !Forall_cons in Hcols. destruct Hcols as (? & ? & ? & ? & ? & _).
  rewrite get_translation_lookup by auto. unfold Spec.lookup.
  assert (∀ q, match List.find q (rows tb) with
               | Some r => ∃ v, DF.at_ r "translation" = Ok v
               | None => True
               end) as Hfind.
  { intros q. destruct (List.find q (rows tb)) as [r|] eqn:Hq; [|done].
    apply find_some in Hq as [Hin _]. apply list_elem_of_In in Hin.
    rewrite Forall_forall in Hrows. destruct (Hrows r Hin) as [v Hv'].
    exists v. unfold DF.at_. by rewrite Hv'. }
  pose proof (Hfind (Spec.matches t f l "record_id" i)) as Hprimary.
  destruct (List.find (Spec.matches t f l "record_id" i) (rows tb)); [done|].
  pose proof (Hfind (Spec.matches t f l "field_value" (Str (str i)))) as Hfallback.
  destruct (List.find _ (rows tb)); [done|]. by eexists.
Qed.

(** X12.  Building a record never raises when the joined trip and route
    have a row, the trip has a route_id column, the stop_times row has a
    departure_time cell and the translation table can be read. *)
Theorem create_departure_record_returns row trip_row route_row p tr :
  rows trip_row ≠ [] → rows route_row ≠ [] →
  "route_id" ∈ columns trip_row →
  is_Some (row !! "departure_time") →
  readable tr →
  ∃ rec, _create_departure_record row trip_row route_row p tr = Ok rec.
Proof.
  intros Htrip Hroute Hrid [dt Hdt] Htr.
  unfold _create_departure_record, resolve_headsign, resolve_route_name.
  destruct (value_or_blank_total trip_row "trip_headsign" Htrip) as [v1 E1].
  destruct (value_or_blank_total route_row "route_short_name" Hroute) as [v2 E2].
  destruct (value_or_blank_total route_row "route_long_name" Hroute) as [v3 E3].
  destruct (value_or_blank_total route_row "route_color" Hroute) as [v4 E4].
  destruct (value_or_blank_total route_row "route_text_color" Hroute) as [v5 E5].
  destruct (value_or_blank_total trip_row "service_id" Htrip) as [v6 E6].
  assert (∃ rid, DF.first_value trip_row "route_id" = Ok rid) as [rid E7].
  { unfold DF.first_value. rewrite col_Ok by done. simpl.
    destruct (rows trip_row); [done|]. by eexists. }
  rewrite E1, E2, E3, E4, E5, E6, E7. unfold DF.at_. rewrite Hdt.
  set (h := if blank _ then _ else _).
  assert (∃ hv, h = Ok hv) as [hv ->].
  { unfold h. destruct (blank _); by eexists. }
  cbn [mbind result_bind].
  set (n := if blank _ then _ else _).
  assert (∃ nv, n = Ok nv) as [nv ->].
  { unfold n. destruct (blank _); by eexists. }
  cbn [mbind result_bind].
  destruct (get_translation_readable tr "routes" "route_long_name" "en" rid Htr)
    as [t1 ->].
  destruct (get_translation_readable tr "stop_times" "stop_headsign" "en" hv Htr)
    as [t2 ->].
  cbn [mbind result_bind]. by eexists.
Qed.

End record_more_props.

(** ** [_process_stop_departures]: errors, empty results and the joins *)

Section extractor_more_props.
Import SpecRecord Inv.

(** X13.  The extractor answers with one list per requested stop, in the
    order of the request, and the list of a position is that of its stop
    alone: nothing is carried from one stop to the next. *)
Theorem one_list_per_stop stops f p tr r :
  _process_stop_departures stops f p tr = Ok r →
  length r = length stops ∧
  Forall2 (λ stop ds, _process_stop_departures [stop] f p tr = Ok [ds]) stops r.
Proof.
  unfold _process_stop_departures. intros H.
  split; [by eapply forM_Ok_length|].
  apply forM_Ok_Forall2 in H. eapply Forall2_impl; [exact H|].
  intros stop ds Hs. simpl. by rewrite Hs.
Qed.

(** X14.  pickup_type is a column the extractor cannot do without: when
    stop_times has a stop_id column and no pickup_type column, every request
    that names a stop raises KeyError('pickup_type'). *)
Theorem missing_pickup_type_column_raises f p tr stops stop_id :
  "stop_id" ∈ columns (stop_times f) →
  "pickup_type" ∉ columns (stop_times f) →
  Some stop_id ∈ stops →
  _process_stop_departures stops f p tr = Raise (KeyError "pickup_type").
Proof.
  intros Hid Hpk Hin. unfold _process_stop_departures.
  assert (∀ s, departures_of_stop f p tr (Some s)
               = Raise (KeyError "pickup_type")) as Hraise.
  { intros s. unfold departures_of_stop, select_stop_times.
    rewrite (col_Ok _ "stop_id") by done. cbn [mbind result_bind].
    assert (DF.col (stop_times f) "pickup_type"
            = Raise (KeyError "pickup_type")) as ->; [|done].
    unfold DF.col, DF.has_column. by rewrite bool_decide_eq_false_2. }
  induction stops as [|[s|] stops IH]; [by apply elem_of_nil in Hin| |].
  - cbn [forM]. by rewrite Hraise.
  - cbn [forM]. apply elem_of_cons in Hin as [[=]|Hin].
    rewrite (IH Hin). done.
Qed.

Lemma select_stop_times_converts feed stop_id df :
  select_stop_times feed stop_id = Ok df → pickups_convert feed.
Proof.
  unfold select_stop_times, pickups_convert. intros H. inv_ok H.
  apply col_inv in Hv1 as [_ ->]. apply forM_Ok_Forall2 in Hv2.
  apply Forall_fmap in Hv2 || idtac.
  clear -Hv2. revert v2 Hv2.
  induction (rows (stop_times feed)) as [|r rs IH]; intros ints H;
    [constructor|].
  inversion H as [|? z ? zs Hz Hzs]; subst. constructor; [by exists z|].
  by eapply IH.
Qed.

Lemma select_stop_times_total feed stop_id :
  "stop_id" ∈ columns (stop_times feed) →
  "pickup_type" ∈ columns (stop_times feed) →
  pickups_convert feed →
  select_stop_times feed stop_id
  = Ok (mkDataFrame (columns (stop_times feed))
          (filter (λ r, boards_at stop_id r = true) (rows (stop_times feed)))).
Proof.
  intros Hid Hpk Hconv.
  destruct (select_stop_times feed stop_id) as [df|e] eqn:Hsel.
  { by rewrite (select_stop_times_Ok _ _ _ Hsel). }
  exfalso. unfold select_stop_times in Hsel.
  rewrite (col_Ok _ "stop_id"), (col_Ok _ "pickup_type") in Hsel by done.
  cbn [mbind result_bind] in Hsel.
  destruct (forM_total astype_int
              ((λ r, DF.cell_of r "pickup_type") <$> rows (stop_times feed)))
    as [ints Hints].
  { apply Forall_fmap. exact Hconv. }
  rewrite Hints in Hsel. done.
Qed.

(** X15.  A stop that no row of stop_times names yields the empty list, and
    no error, whatever the trips and routes tables hold (stop_times has its
    stop_id and pickup_type columns, and every pickup_type is a value
    [astype(int)] accepts). *)
Theorem unknown_stop_yields_empty_list f p tr stop_id :
  "stop_id" ∈ columns (stop_times f) →
  "pickup_type" ∈ columns (stop_times f) →
  pickups_convert f →
  Forall (λ r, eqb (DF.cell_of r "stop_id") (Str stop_id) = false)
         (rows (stop_times f)) →
  _process_stop_departures [Some stop_id] f p tr = Ok [[]].
Proof.
  intros Hid Hpk Hconv Hnone. unfold _process_stop_departures. simpl.
  rewrite select_stop_times_total by done. cbn [mbind result_bind].
  assert (filter (λ r, boards_at stop_id r = true) (rows (stop_times f)) = [])
    as ->.
  { induction Hnone as [|r rs Hr _ IH]; [done|].
    rewrite filter_cons, decide_False; [done|].
    unfold boards_at. rewrite Hr. done. }
  unfold DF.empty. simpl. done.
Qed.

(** X16.  The two [isin] selections of trips and routes change nothing:
    the answer for a list of stops, records and exceptions alike, is that
    of joining every kept stop_times row against the whole trips and routes
    tables. *)
Theorem isin_selections_are_redundant stops f p tr :
  _process_stop_departures stops f p tr
  = forM (λ stop, match stop with
                  | Some stop_id => departures_direct f p tr stop_id
                  | None => Ok []
                  end) stops.
Proof.
  unfold _process_stop_departures. apply forM_ext_in.
  intros [stop_id|] _; [apply isin_selections_direct | done].
Qed.

(** X17.  Which rows give a record, and from what: the records of a stop
    are, in table order, those of the stop_times rows of the stop that pass
    the pickup_type test, have a departure time, a trip with their trip_id
    and a route with the route_id of the first such trip; each record is
    built from the row, all trips rows of its trip_id and all routes rows of
    that route_id.  Every other row is passed over in silence. *)
Theorem records_are_those_of_the_joinable_rows f p tr stop_id recs :
  _process_stop_departures [Some stop_id] f p tr = Ok [recs] →
  Forall2 (λ row rec,
             _create_departure_record row (trip_rows f row) (route_rows f row)
               p tr = Ok rec)
    (filter (λ r, joinable f r = true)
       (filter (λ r, boards_at stop_id r = true) (rows (stop_times f))))
    recs.
Proof.
  unfold _process_stop_departures. cbn [forM]. intros H. inv_ok H.
  injection Hv0 as <-. injection H as ->.
  by apply departures_of_stop_joined.
Qed.

End extractor_more_props.

(** ** The aggregator: keys, order and failure *)

Section aggregator_more_props.
Import Calendar.
Implicit Types (info : gmap string (list DepartureRecord)).

Lemma extend_fold_dom k dss info info' :
  foldlM (extend_platform k) info dss = Ok info' → dom info' = dom info.
Proof.
  revert info. induction dss as [|ds dss IH]; intros info H; cbn [foldlM] in H.
  - by injection H as <-.
  - inv_ok H. rewrite (IH _ H). unfold extend_platform in Hv.
    destruct ds; [by injection Hv as <-|].
    destruct (info !! k) as [l|] eqn:Hk; [|done]. injection Hv as <-.
    apply dom_insert_lookup_L. by rewrite Hk.
Qed.

Lemma platforms_fold_dom p a cfg info info' :
  foldlM (platform_step p a) info cfg = Ok info' → dom info' = dom info.
Proof.
  revert info. induction cfg as [|[k c] cfg IH]; intros info H;
    cbn [foldlM] in H.
  - by injection H as <-.
  - inv_ok H. rewrite (IH _ H). rewrite platform_step_unfold in Hv.
    inv_ok Hv. by eapply extend_fold_dom.
Qed.

Lemma providers_fold_dom self ps info cal info' cal' :
  foldlM (provider_step self) (info, cal) ps = Ok (info', cal') →
  dom info' = dom info.
Proof.
  revert info cal. induction ps as [|p ps IH]; intros info cal H;
    cbn [foldlM] in H.
  - by injection H as <- <-.
  - inv_ok H. destruct v as [info1 cal1]. rewrite (IH _ _ H).
    unfold provider_step in Hv. destruct (gtfs_files self !! p); [|done].
    inv_ok Hv. injection Hv as <- _. by eapply platforms_fold_dom.
Qed.

(** X18.  The result has one departure list per configured platform and no
    other, whatever the feeds hold, and hands the providers and the day
    boundary of the configuration through. *)
Theorem output_platforms_are_the_configured_ones self out :
  process_gtfs_data self = Ok out →
  dom (out_departure_info out) = list_to_set (platform_config self).*1 ∧
  out_gtfs_id out = gtfs_providers self ∧
  out_date_change_hour out = date_change_hour self.
Proof.
  unfold process_gtfs_data. intros H. inv_ok H. injection H as <-.
  destruct v as [info cal]. cbn [out_departure_info out_gtfs_id
    out_date_change_hour fst]. split; [|done].
  rewrite (providers_fold_dom _ _ _ _ _ _ Hv), dom_list_to_map_L.
  by rewrite <-list_fmap_compose.
Qed.

Lemma mjoin_absent {A} (gs : list (gmap string (list A))) k :
  ¬ Exists (λ g, is_Some (g !! k)) gs →
  mjoin ((λ g, default [] (g !! k)) <$> gs) = [].
Proof.
  induction gs as [|g gs IH]; intros Hno; [done|].
  change (default [] (g !! k) ++ mjoin ((λ g, default [] (g !! k)) <$> gs) = []).
  rewrite IH.
  - destruct (g !! k) eqn:Hg; [|done].
    exfalso. apply Hno. left. by rewrite Hg.
  - intros Hex. apply Hno. by right.
Qed.

(** X19.  The calendar of the result is the calendars of the providers
    laid end to end: a date is a key when it is one for some provider, and
    its list is the lists of the providers for that date, in the order of
    the providers; nothing is merged, sorted or dropped. *)
Theorem output_calendar_in_provider_order self out :
  process_gtfs_data self = Ok out →
  ∃ gs,
    Forall2 (λ p g, ∃ a, gtfs_files self !! p = Some a ∧
                         _process_calendar_data (feed a) p = Ok g)
            (gtfs_providers self) gs ∧
    ∀ k,
      (is_Some (out_calendar out !! k) ↔
         ∃ p a g, p ∈ gtfs_providers self ∧ gtfs_files self !! p = Some a ∧
                  _process_calendar_data (feed a) p = Ok g ∧
                  is_Some (g !! k)) ∧
      default [] (out_calendar out !! k)
        = mjoin ((λ g, default [] (g !! k)) <$> gs).
Proof.
  unfold process_gtfs_data. intros H. inv_ok H. injection H as <-.
  destruct v as [info cal]. cbn [out_calendar snd].
  apply provider_fold_calendar in Hv as (gs & HF & ->).
  exists gs. split; [done|]. intros k.
  assert (Exists (λ g, is_Some (g !! k)) gs ↔
          ∃ p a g, p ∈ gtfs_providers self ∧ gtfs_files self !! p = Some a ∧
                   _process_calendar_data (feed a) p = Ok g ∧
                   is_Some (g !! k)) as Hex.
  { rewrite Exists_exists. split.
    - intros (g & Hg & Hk).
      apply (elem_of_provider_calendars _ _ _ _ HF) in Hg as (p & a & ? & ? & ?).
      eauto 8.
    - intros (p & a & g & Hp & Ha & Hg & Hk). exists g. split; [|exact Hk].
      apply (elem_of_provider_calendars _ _ _ _ HF). eauto 6. }
  rewrite foldl_extend_calendar_lookup, lookup_empty. cbn [default app].
  case_decide as Hdec.
  - cbn [default]. split; [|done]. rewrite <-Hex. split; [|by eauto].
    intros _. destruct Hdec as [[? ?]|?]; done.
  - cbn [default]. split.
    + rewrite <-Hex. split; [by intros [? ?]|]. intros ?. destruct Hdec. by right.
    + symmetry. apply mjoin_absent. intros ?. apply Hdec. by right.
Qed.

Lemma foldlM_ext_in {A B} (f g : B → A → result B) (b : B) (l : list A) :
  (∀ b a, a ∈ l → f b a = g b a) → foldlM f b l = foldlM g b l.
Proof.
  revert b. induction l as [|a l IH]; intros b Hfg; cbn [foldlM]; [done|].
  rewrite Hfg by (by left). destruct (g b a); cbn [mbind result_bind]; [|done].
  apply IH. intros b' a' Ha'. apply Hfg. by right.
Qed.

(** X21.  A stop configured for a provider that is not among the providers
    of the archives is never looked at: the pipeline gives the same result,
    or the same exception, without the entry. *)
Theorem stops_of_unlisted_providers_are_ignored
    providers files pre post k c1 c2 prov stop hour :
  prov ∉ providers →
  process_gtfs_data
    (mkGTFSProcessor providers files
       (pre ++ (k, c1 ++ (prov, stop) :: c2) :: post) hour)
  = process_gtfs_data
      (mkGTFSProcessor providers files (pre ++ (k, c1 ++ c2) :: post) hour).
Proof.
  intros Hprov. unfold process_gtfs_data. simpl.
  rewrite !fmap_app. simpl.
  set (init := list_to_map _).
  rewrite (foldlM_ext_in
            (provider_step (mkGTFSProcessor providers files
              (pre ++ (k, c1 ++ (prov, stop) :: c2) :: post) hour))
            (provider_step (mkGTFSProcessor providers files
              (pre ++ (k, c1 ++ c2) :: post) hour))); [done|].
  intros [info cal] p Hp. unfold provider_step. simpl.
  destruct (files !! p) as [a|]; [|done].
  rewrite !foldlM_app. cbn [foldlM].
  destruct (foldlM (platform_step p a) info pre) as [info1|e];
    cbn [mbind result_bind]; [|done].
  rewrite !platform_step_unfold, !provider_stops_app, provider_stops_cons.
  rewrite decide_False; [done|]. by intros ->.
Qed.

End aggregator_more_props.

(** ** The further properties on the sample feeds *)

Section further_examples.
Import Calendar SpecRecord Examples Inv Samples.

Lemma date_strings_distinct_witness :
  _date_to_str 739252 ≠ _date_to_str 739258.
Proof. apply (date_strings_distinct 739252 739258); lia. Defined.

Lemma date_string_has_ten_characters_witness :
  String.length (_date_to_str feb18) = 10%nat.
Proof.
  apply (date_string_has_ten_characters feb18). unfold feb18. lia.
Defined.

(** Monday 2025-01-06 in the calendar of service "WD". *)
Lemma calendar_lists_are_sets_witness :
  NoDup [mkServiceRef "A" "WD"] ∧
  ∀ e, e ∈ [mkServiceRef "A" "WD"] → sr_gtfs_id e = "A".
Proof.
  apply (calendar_lists_are_sets feed_weekdays "A" weekdays_calendar
           "2025-01-06").
  - vm_compute. reflexivity.
  - reflexivity.
Defined.

Lemma calendar_only_entries_witness :
  ∃ cal,
    _process_calendar_data feed_weekdays "A" = Ok cal ∧
    ∀ k,
      (∀ s, mkServiceRef "A" s ∈ default [] (cal !! k) ↔
         ∃ row d, row ∈ table_rows (calendar feed_weekdays) ∧
                  cal_service_id row = s ∧
                  start_date row ≤ d ≤ end_date row ∧
                  weekday_flag row (weekday d) = true ∧ _date_to_str d = k) ∧
      (is_Some (cal !! k) ↔
         ∃ row d, row ∈ table_rows (calendar feed_weekdays) ∧
                  start_date row ≤ d ≤ end_date row ∧
                  weekday_flag row (weekday d) = true ∧ _date_to_str d = k) ∧
      cal !! k ≠ Some [].
Proof.
  apply (calendar_only_entries feed_weekdays "A").
  - reflexivity.
  - repeat constructor.
Defined.

(** "WD" is added on 2025-02-18 and no later row speaks of it. *)
Lemma last_exception_decides_witness :
  mkServiceRef "A" "WD"
    ∈ default [] (out_calendar add_and_removal_output
                    !! _date_to_str (cd_date weekday_on)) ↔
  exception_type weekday_on = 1.
Proof.
  apply (last_exception_decides feed_add_and_removal "A" [] weekday_on
           [holiday_off]).
  - reflexivity.
  - left. reflexivity.
  - constructor; [|constructor]. intros [Hservice _]. discriminate Hservice.
  - vm_compute. reflexivity.
Defined.

Lemma get_translation_key_errors_witness :
  ∃ k, _get_translation (Some translations_without_record_id)
         "routes" "route_long_name" "en" (Str "R1") = Raise (KeyError k) ∧
       k ∉ columns translations_without_record_id.
Proof.
  destruct (get_translation_key_errors translations_without_record_id
              "routes" "route_long_name" "en" (Str "R1"))
    as [Hmissing _]; [reflexivity|].
  apply (Hmissing "record_id");
    apply (bool_decide_unpack _); vm_compute; reflexivity.
Defined.

(** The head sign row of the sample table plays no part in the lookup of a
    route name. *)
Lemma get_translation_ignores_unrelated_rows_witness :
  _get_translation (Some bus_translations)
    "routes" "route_long_name" "en" (Str "R1")
  = _get_translation
      (Some (mkDataFrame (columns bus_translations)
               (take 1 (rows bus_translations))))
      "routes" "route_long_name" "en" (Str "R1").
Proof.
  apply (get_translation_ignores_unrelated_rows (columns bus_translations)
           (take 1 (rows bus_translations))
           []
           (translation (Str "stop_times") (Str "stop_headsign")
                        NaN (Str "City Hall") (Str "City Hall EN"))
           "routes" "route_long_name" "en" (Str "R1"));
    apply (bool_decide_unpack _); vm_compute; reflexivity.
Defined.

Lemma get_translation_never_raises_witness :
  ∃ v, _get_translation (Some bus_translations)
         "routes" "route_long_name" "en" (Str "R9") = Ok v ∧
       (v = Str "" ∨
        ∃ r, r ∈ rows bus_translations ∧ r !! "translation" = Some v).
Proof.
  apply (get_translation_never_raises bus_translations
           "routes" "route_long_name" "en" (Str "R9"));
    apply (bool_decide_unpack _); vm_compute; reflexivity.
Defined.

Lemma record_colors_service_and_provider_witness :
  route_color express_record = Str "FF0000" ∧
  route_text_color express_record = Str "" ∧
  service_id express_record = Str "WD".
Proof.
  destruct (record_colors_service_and_provider
              express_row trip_T1 numbered_routes "A" (Some bus_translations)
              express_record eq_refl) as (Hc & Ht & Hs).
  split_and!; [apply Hc | apply Ht | apply Hs]; exact I.
Defined.

Lemma create_departure_record_returns_witness :
  ∃ rec, _create_departure_record (stop_time "T1" "S1" (Int 90600) (Int 0))
           trip_T1 bus_routes "A" (Some bus_translations) = Ok rec.
Proof.
  apply (create_departure_record_returns
           (stop_time "T1" "S1" (Int 90600) (Int 0)) trip_T1 bus_routes
           "A" (Some bus_translations)).
  - discriminate.
  - discriminate.
  - apply (bool_decide_unpack _). vm_compute. reflexivity.
  - apply (bool_decide_unpack _). vm_compute. reflexivity.
  - right. split; apply (bool_decide_unpack _); vm_compute; reflexivity.
Defined.

Lemma one_list_per_stop_witness :
  length [[city_hall_record]; []] = length [Some "S1"; None] ∧
  Forall2 (λ stop ds,
             _process_stop_departures [stop] bus_feed "A"
               (Some bus_translations) = Ok [ds])
          [Some "S1"; None] [[city_hall_record]; []].
Proof.
  apply (one_list_per_stop [Some "S1"; None] bus_feed "A"
           (Some bus_translations)).
  vm_compute. reflexivity.
Defined.

Lemma missing_pickup_type_column_raises_witness :
  _process_stop_departures [None; Some "S1"] feed_without_pickup_type "A" None
    = Raise (KeyError "pickup_type").
Proof.
  apply (missing_pickup_type_column_raises feed_without_pickup_type "A" None
           [None; Some "S1"] "S1");
    apply (bool_decide_unpack _); vm_compute; reflexivity.
Defined.

(** No row of the bus feed names stop "S9". *)
Lemma unknown_stop_yields_empty_list_witness :
  _process_stop_departures [Some "S9"] bus_feed "A" (Some bus_translations)
    = Ok [[]].
Proof.
  apply (unknown_stop_yields_empty_list bus_feed "A" (Some bus_translations)
           "S9").
  - apply (bool_decide_unpack _). vm_compute. reflexivity.
  - apply (bool_decide_unpack _). vm_compute. reflexivity.
  - unfold pickups_convert. simpl. repeat constructor; by eexists.
  - simpl. repeat constructor.
Defined.

(** Stop "S1" of the bus feed: of its three rows, one has pickup_type 1 and
    one has no departure time. *)
Lemma records_are_those_of_the_joinable_rows_witness :
  Forall2 (λ row rec,
             _create_departure_record row (trip_rows bus_feed row)
               (route_rows bus_feed row) "A" (Some bus_translations) = Ok rec)
    (filter (λ r, joinable bus_feed r = true)
       (filter (λ r, boards_at "S1" r = true) (rows (stop_times bus_feed))))
    [city_hall_record].
Proof.
  apply (records_are_those_of_the_joinable_rows bus_feed "A"
           (Some bus_translations) "S1" [city_hall_record]).
  vm_compute. reflexivity.
Defined.

Lemma output_platforms_are_the_configured_ones_witness :
  dom (out_departure_info bus_output)
    = list_to_set (platform_config bus_processor).*1 ∧
  out_gtfs_id bus_output = gtfs_providers bus_processor ∧
  out_date_change_hour bus_output = date_change_hour bus_processor.
Proof.
  apply (output_platforms_are_the_configured_ones bus_processor bus_output).
  vm_compute. reflexivity.
Defined.

Lemma output_calendar_in_provider_order_witness :
  ∃ gs,
    Forall2 (λ p g, ∃ a,
               gtfs_files (processor_of feed_add_and_removal) !! p = Some a ∧
               _process_calendar_data (feed a) p = Ok g)
            (gtfs_providers (processor_of feed_add_and_removal)) gs ∧
    ∀ k,
      (is_Some (out_calendar add_and_removal_output !! k) ↔
         ∃ p a g, p ∈ gtfs_providers (processor_of feed_add_and_removal) ∧
                  gtfs_files (processor_of feed_add_and_removal) !! p = Some a ∧
                  _process_calendar_data (feed a) p = Ok g ∧
                  is_Some (g !! k)) ∧
      default [] (out_calendar add_and_removal_output !! k)
        = mjoin ((λ g, default [] (g !! k)) <$> gs).
Proof.
  apply (output_calendar_in_provider_order
           (processor_of feed_add_and_removal) add_and_removal_output).
  vm_compute. reflexivity.
Defined.

(** Provider "B" of platform "1" has no archive among the providers. *)
Lemma stops_of_unlisted_providers_are_ignored_witness :
  process_gtfs_data bus_processor
  = process_gtfs_data
      (mkGTFSProcessor ["A"]
         {[ "A" := mkArchive bus_feed (Some bus_translations) ]}
         [("1", [("A", Some "S1")]); ("2", [("A", Some "S2")])] 3).
Proof.
  apply (stops_of_unlisted_providers_are_ignored ["A"]
           {[ "A" := mkArchive bus_feed (Some bus_translations) ]}
           [] [("2", [("A", Some "S2")])] "1" [("A", Some "S1")] []
           "B" None 3).
  apply (bool_decide_unpack _). vm_compute. reflexivity.
Defined.

End further_examples.
